(** * MSR605X protocol engine: frame codec, track validator and HID transport

    A shallow embedding of [src/msr605x/parser.py] (class [TrackParser]) and
    of [src/msr605x/device.py] (class [MSR605XDevice]), with the properties
    their specification states about them.

    Python values are embedded as follows.
    - [bytes] is a list of [Byte.byte]; [str] is a list of Unicode code
      points ([N]); [int] is [Z]; [None]-or-value is [option].
    - A Python call that may raise returns in the monad [exc]; [try]/[except
      Exception] is [try_except].
    - [float] is the binary64 format of IEEE 754: the primitive floats.
    - The HID handle and the clock are the environment of the transport:
      every call on them is appended to a log of [io_event]s and its outcome
      is a function of the log so far. Calls of the status callback are
      logged too. The lock of the transport serialises threads; the model
      is of one thread, and what the code prints is left out. *)

From Stdlib Require Import Floats.PrimFloat.
From Stdlib Require Floats.SpecFloat Floats.FloatOps.
From Stdlib Require Import ZArith NArith List Bool Lia String Ascii.
From Stdlib Require Import Strings.Byte Sorting.Sorted DecimalString.
Import ListNotations.

Local Open Scope Z_scope.

(* ===================================================================== *)
(** ** Python primitives *)
(* ===================================================================== *)

Module Py.

(** Exceptions, by class, with the text [str(e)] yields. *)
Inductive exn : Type :=
| ValueError (msg : string)
| UnicodeEncodeError (msg : string)
| OSError (msg : string)
| RuntimeError (msg : string)
| OverflowError (msg : string)
| ZeroDivisionError (msg : string).

Definition exn_str (e : exn) : string :=
  match e with
  | ValueError m | UnicodeEncodeError m | OSError m | RuntimeError m
  | OverflowError m | ZeroDivisionError m => m
  end.

(** A computation that returns a value or raises. *)
Inductive exc (A : Type) : Type :=
| Ret (a : A)
| Raise (e : exn).
Arguments Ret {A} a.
Arguments Raise {A} e.

Definition bind {A B : Type} (m : exc A) (k : A -> exc B) : exc B :=
  match m with
  | Ret a => k a
  | Raise e => Raise e
  end.

(** [try: body / except Exception as e: handler e]. *)
Definition try_except {A : Type} (body : exc A) (handler : exn -> exc A) : exc A :=
  match body with
  | Ret a => Ret a
  | Raise e => handler e
  end.

Definition bytes : Type := list byte.
Definition char : Type := N.
Definition str : Type := list char.

(** [len(x)] *)
Definition len {A : Type} (l : list A) : Z := Z.of_nat (List.length l).

(** [float(i)] rounds the integer to the nearest double, ties to even, and
    raises [OverflowError] when the rounded value is not finite. *)
Definition round_to_float (i : Z) : float :=
  FloatOps.SF2Prim (SpecFloat.binary_normalize 53 1024 i 0 false).

Definition float_of_int (i : Z) : exc float :=
  let x := round_to_float i in
  if PrimFloat.is_infinity x
  then Raise (OverflowError "int too large to convert to float")
  else Ret x.

(** [i / y] for an [int] and a [float]: the integer is converted first. *)
Definition int_truediv_float (i : Z) (y : float) : exc float :=
  bind (float_of_int i)
       (fun x => if PrimFloat.eqb y 0
                 then Raise (ZeroDivisionError "float division by zero")
                 else Ret (PrimFloat.div x y)).

(** [x > y] on floats: false when one of them is not a number. *)
Definition float_gt (x y : float) : bool := PrimFloat.ltb y x.

(** [bytes([i0, i1, ...])]: [ValueError] unless every item is in range(256). *)
Definition byte_of_int (i : Z) : exc byte :=
  if (i <? 0) || (255 <? i) then Raise (ValueError "bytes must be in range(0, 256)")
  else match Byte.of_N (Z.to_N i) with
       | Some b => Ret b
       | None => Raise (ValueError "bytes must be in range(0, 256)")
       end.

Fixpoint bytes_of_ints (l : list Z) : exc bytes :=
  match l with
  | [] => Ret []
  | i :: l' =>
      bind (byte_of_int i) (fun b =>
      bind (bytes_of_ints l') (fun bs => Ret (b :: bs)))
  end.

(** [bytes(n)]: [n] zero bytes. Python raises [ValueError] for a negative
    [n]; the one call in the source passes a positive [n]. *)
Definition zero_bytes (n : Z) : bytes := List.repeat x00 (Z.to_nat n).

(** [s.startswith(sub)] *)
Fixpoint startswith (s sub : bytes) {struct sub} : bool :=
  match sub, s with
  | [], _ => true
  | _ :: _, [] => false
  | a :: sub', b :: s' => Byte.eqb a b && startswith s' sub'
  end.

(** Lowest index of a match of [sub] in [s], where [s] is the part of the
    buffer that starts at index [i]; [-1] when there is none. *)
Fixpoint find_from (sub s : bytes) (i : Z) : Z :=
  if startswith s sub then i
  else match s with
       | [] => -1
       | _ :: s' => find_from sub s' (i + 1)
       end.

(** A negative index counts from the end. *)
Definition adjust_index (i n : Z) : Z :=
  if i <? 0 then Z.max 0 (i + n) else i.

(** [s.find(sub, start)] *)
Definition bytes_find (s sub : bytes) (start : Z) : Z :=
  let st := adjust_index start (len s) in
  if len s <? st then -1
  else find_from sub (skipn (Z.to_nat st) s) st.

(** [sub in s] *)
Definition bytes_contains (s sub : bytes) : bool :=
  negb (bytes_find s sub 0 =? -1).

(** [s[a:b]] *)
Definition slice {A : Type} (s : list A) (a b : Z) : list A :=
  let a' := Z.min (adjust_index a (len s)) (len s) in
  let b' := Z.min (adjust_index b (len s)) (len s) in
  firstn (Z.to_nat (b' - a')) (skipn (Z.to_nat a') s).

(** [s.rstrip(b'\x00')] *)
Fixpoint drop_while {A : Type} (p : A -> bool) (l : list A) : list A :=
  match l with
  | [] => []
  | a :: l' => if p a then drop_while p l' else l
  end.

Definition rstrip_with {A : Type} (p : A -> bool) (l : list A) : list A :=
  rev (drop_while p (rev l)).

Definition bytes_rstrip_nul (s : bytes) : bytes :=
  rstrip_with (Byte.eqb x00) s.

(** Text literals of the source, as code points. *)
Fixpoint str_of_string (s : string) : str :=
  match s with
  | EmptyString => []
  | String a s' => N_of_ascii a :: str_of_string s'
  end.

Definition char_in (c : char) (s : str) : bool := existsb (N.eqb c) s.

(** [s.hex()]: two lower-case hexadecimal digits per byte. *)
Definition hex_digit (n : N) : char :=
  (if n <? 10 then 48 + n else 87 + n)%N.

Definition bytes_hex (s : bytes) : str :=
  flat_map (fun b => let n := Byte.to_N b in
                     [hex_digit (n / 16)%N; hex_digit (n mod 16)%N]) s.

(** [s.decode('ascii', errors='replace')]: a byte above 127 becomes U+FFFD. *)
Definition decode_ascii_replace (s : bytes) : str :=
  map (fun b => let n := Byte.to_N b in
                if (n <? 128)%N then n else 65533%N) s.

(** [s.encode('ascii')]: [UnicodeEncodeError] on a code point above 127. *)
Definition encode_char (c : char) : exc byte :=
  if (c <? 128)%N
  then match Byte.of_N c with
       | Some b => Ret b
       | None => Raise (UnicodeEncodeError "ordinal not in range(128)")
       end
  else Raise (UnicodeEncodeError "ordinal not in range(128)").

Fixpoint encode_ascii (s : str) : exc bytes :=
  match s with
  | [] => Ret []
  | c :: s' =>
      bind (encode_char c) (fun b =>
      bind (encode_ascii s') (fun bs => Ret (b :: bs)))
  end.

(** [c.isspace()], the white space [str.strip()] removes: the characters of
    bidirectional type WS, B or S and of category Zs. *)
Definition isspace (c : char) : bool :=
  (((9 <=? c) && (c <=? 13)) || ((28 <=? c) && (c <=? 32))
   || (c =? 133) || (c =? 160) || (c =? 5760)
   || ((8192 <=? c) && (c <=? 8202))
   || (c =? 8232) || (c =? 8233) || (c =? 8239) || (c =? 8287)
   || (c =? 12288))%N.

(** [s.strip()] *)
Definition str_strip (s : str) : str :=
  rstrip_with isspace (drop_while isspace s).

(** [s.upper()] maps each character on its own. Inside ASCII it moves
    'a'..'z' to 'A'..'Z'; outside ASCII the mapping comes from the Unicode
    case tables, which are data of the interpreter: [upper_non_ascii]. *)
Definition char_upper (upper_non_ascii : char -> str) (c : char) : str :=
  if (c <? 128)%N
  then [if ((97 <=? c) && (c <=? 122))%N then (c - 32)%N else c]
  else upper_non_ascii c.

Definition str_upper (upper_non_ascii : char -> str) (s : str) : str :=
  flat_map (char_upper upper_non_ascii) s.

End Py.

Import Py.

Notation "x <- m ;; k" := (bind m (fun x => k))
  (at level 61, m at next level, right associativity).

(* ===================================================================== *)
(** ** Constants of [constants.py] *)
(* ===================================================================== *)

(** The module [constants.py] fixes the report size of the HID channel and,
    in [TrackSpec.TRACK_n['max_chars']], the longest text of each track.
    Their values are parameters of the development. *)
Class Constants : Type := {
  HID_REPORT_SIZE : Z;
  TRACK_1_max_chars : Z;
  TRACK_2_max_chars : Z;
  TRACK_3_max_chars : Z
}.

(** What [str.upper()] does outside ASCII. *)
Class CaseTables : Type := {
  upper_non_ascii : char -> str
}.

(** Modelled from the spec: the enumeration [DataFormat] of [constants.py],
    of which the spec names the members ISO and RAW. *)
Inductive DataFormat : Type := ISO | RAW.

Definition DataFormat_eqb (a b : DataFormat) : bool :=
  match a, b with
  | ISO, ISO | RAW, RAW => true
  | _, _ => false
  end.

(* ===================================================================== *)
(** ** [parser.py]: frame codec and track validator *)
(* ===================================================================== *)

Record TrackData : Type := {
  track_number : Z;
  data : str;
  raw_data : bytes;
  is_valid : bool;
  format : DataFormat;
  error_message : option string
}.

Record TrackParser : Type := {
  _data_format : DataFormat
}.

Definition TRACK1_CHARSET : str :=
  str_of_string " !" ++ [34%N]
  ++ str_of_string "#$%&'()*+,-./0123456789:;<=>?@ABCDEFGHIJKLMNOPQRSTUVWXYZ[\]^_".
Definition TRACK2_CHARSET : str := str_of_string "0123456789:;<=>?".
Definition TRACK3_CHARSET : str := str_of_string "0123456789:;<=>?".

(** A track argument [if track:] lets through: neither [None] nor empty. *)
Definition truthy {A : Type} (o : option (list A)) : bool :=
  match o with
  | Some (_ :: _) => true
  | _ => false
  end.

Section Parser.
Context {consts : Constants} {tables : CaseTables}.

Definition _clean_track_data (self : TrackParser) (data : str) (track_num : Z) : str :=
  let cleaned := filter (fun c => (32 <=? c)%N || char_in c [9%N]) data in
  let cleaned := filter (fun c => negb (c =? 27)%N) cleaned in
  str_strip cleaned.

(** [specs.get(track_num, (None, None))], the spec reduced to its
    ['max_chars'] entry; a [TrackSpec] dictionary has this entry, so it is
    not empty and [not spec] is false for it. *)
Definition specs_get (track_num : Z) : option (Z * str) :=
  if track_num =? 1 then Some (TRACK_1_max_chars, TRACK1_CHARSET)
  else if track_num =? 2 then Some (TRACK_2_max_chars, TRACK2_CHARSET)
  else if track_num =? 3 then Some (TRACK_3_max_chars, TRACK3_CHARSET)
  else None.

Definition _validate_track_data (self : TrackParser) (data : str) (track_num : Z) : bool :=
  match data with
  | [] => false
  | _ :: _ =>
      match specs_get track_num with
      | None => false
      | Some (max_chars, charset) =>
          if max_chars <? len data then false
          else if DataFormat_eqb (_data_format self) ISO then
            if track_num =? 1
            then forallb (fun c => (32 <=? c)%N && (c <=? 95)%N) data
            else forallb (fun c => char_in c charset
                                   || char_in c (str_of_string "%?;")) data
          else true
      end
  end.

Definition _extract_track (self : TrackParser) (response : bytes)
    (track_num : Z) (raw : bool) : exc (option TrackData) :=
  start_marker <- bytes_of_ints [27; track_num] ;;
  let end_marker := [x1c] in
  try_except
    (let start_idx := bytes_find response start_marker 0 in
     if start_idx =? -1 then Ret None
     else
       let data_start := start_idx + len start_marker in
       let end_idx := bytes_find response end_marker data_start in
       end_idx <-
         (if end_idx =? -1 then
            next_marker <- bytes_of_ints [27; track_num + 1] ;;
            let next_track := bytes_find response next_marker data_start in
            let status_marker := bytes_find response [x1b; x30] data_start in
            Ret (if negb (next_track =? -1) then next_track
                 else if negb (status_marker =? -1) then status_marker
                 else len response)
          else Ret end_idx) ;;
       let raw_data := slice response data_start end_idx in
       if raw then
         Ret (Some {| track_number := track_num;
                      data := bytes_hex raw_data;
                      raw_data := raw_data;
                      is_valid := 0 <? len raw_data;
                      format := RAW;
                      error_message := None |})
       else
         try_except
           (let decoded := decode_ascii_replace raw_data in
            let decoded := _clean_track_data self decoded track_num in
            let is_valid := _validate_track_data self decoded track_num in
            Ret (Some {| track_number := track_num;
                         data := decoded;
                         raw_data := raw_data;
                         is_valid := is_valid;
                         format := _data_format self;
                         error_message :=
                           if is_valid then None
                           else Some "Invalid characters in track data"%string |}))
           (fun e =>
            Ret (Some {| track_number := track_num;
                         data := [];
                         raw_data := raw_data;
                         is_valid := false;
                         format := _data_format self;
                         error_message := Some (exn_str e) |})))
    (fun _ => Ret None).

(** [for track_num in [1, 2, 3]: ... if track_data: tracks.append(track_data)];
    an instance of the dataclass is always true. *)
Definition collect_tracks (extract : Z -> exc (option TrackData)) : exc (list TrackData) :=
  fold_left
    (fun acc track_num =>
       tracks <- acc ;;
       track_data <- extract track_num ;;
       Ret (match track_data with
            | Some t => tracks ++ [t]
            | None => tracks
            end))
    [1; 2; 3] (Ret []).

Definition parse_iso_response (self : TrackParser) (response : bytes) : exc (list TrackData) :=
  collect_tracks (fun track_num => _extract_track self response track_num false).

Definition parse_raw_response (self : TrackParser) (response : bytes) : exc (list TrackData) :=
  collect_tracks (fun track_num => _extract_track self response track_num true).

Definition build_iso_write_data (self : TrackParser)
    (track1 track2 track3 : option str) : exc bytes :=
  let data := [x1b; x73] in
  let data := data ++ [x1b; x01] in
  data <- (match track1 with
           | Some ((_ :: _) as t) =>
               e <- encode_ascii (str_upper upper_non_ascii t) ;; Ret (data ++ e)
           | _ => Ret data
           end) ;;
  let data := data ++ [x1c] in
  let data := data ++ [x1b; x02] in
  data <- (match track2 with
           | Some ((_ :: _) as t) => e <- encode_ascii t ;; Ret (data ++ e)
           | _ => Ret data
           end) ;;
  let data := data ++ [x1c] in
  let data := data ++ [x1b; x03] in
  data <- (match track3 with
           | Some ((_ :: _) as t) => e <- encode_ascii t ;; Ret (data ++ e)
           | _ => Ret data
           end) ;;
  let data := data ++ [x1c] in
  let data := data ++ [x3f; x1c] in
  Ret data.

Definition build_raw_write_data (self : TrackParser)
    (track1 track2 track3 : option bytes) : bytes :=
  let data := [x1b; x73] in
  let data := data ++ [x1b; x01] in
  let data := match track1 with Some ((_ :: _) as t) => data ++ t | _ => data end in
  let data := data ++ [x1c] in
  let data := data ++ [x1b; x02] in
  let data := match track2 with Some ((_ :: _) as t) => data ++ t | _ => data end in
  let data := data ++ [x1c] in
  let data := data ++ [x1b; x03] in
  let data := match track3 with Some ((_ :: _) as t) => data ++ t | _ => data end in
  let data := data ++ [x1c] in
  let data := data ++ [x3f; x1c] in
  data.

End Parser.

(* ===================================================================== *)
(** ** [device.py]: the HID transport *)
(* ===================================================================== *)

(** The calls the transport makes on its environment. The log of a run lists
    them latest first. *)
Inductive io_event : Type :=
| EvWrite (report : bytes)
| EvRead (size timeout_ms : Z)
| EvClose
| EvTime
| EvSleep (seconds : float)
| EvStatus (connected : bool).

Definition io_log : Type := list io_event.

(** The environment answers each call from the calls made before it:
    [hid_write], [hid_read] and [hid_close] are the methods of the handle
    [hid.device], [time_time] is the clock [time.time()], in seconds, a
    double as in Python. *)
Class HidEnv : Type := {
  hid_write : io_log -> bytes -> exc Z;
  hid_read : io_log -> Z -> Z -> exc bytes;
  hid_close : io_log -> exc unit;
  time_time : io_log -> float
}.

(** The handle object [hid.device()]. *)
Inductive hid_device : Type := HidHandle.

Record DeviceInfo : Type := {
  vendor_id : Z;
  product_id : Z;
  serial_number : string;
  manufacturer : string;
  product : string;
  path : bytes
}.

(** The fields of an [MSR605XDevice]. The registered status callback is the
    function of its argument that tells whether the call raises. *)
Record MSR605XDevice : Type := {
  _device : option hid_device;
  _connected : bool;
  _device_info : option DeviceInfo;
  _on_status_change : option (bool -> exc unit)
}.

Section Device.
Context {consts : Constants} {env : HidEnv}.

Definition is_connected (self : MSR605XDevice) : bool :=
  _connected self && match _device self with Some _ => true | None => false end.

Definition _notify_status_change (self : MSR605XDevice) (connected : bool)
    (log : io_log) : exc unit * io_log :=
  match _on_status_change self with
  | Some callback => (callback connected, EvStatus connected :: log)
  | None => (Ret tt, log)
  end.

(** [disconnect()]: the result pair, the object after the call, the log. *)
Definition disconnect (self : MSR605XDevice) (log : io_log)
    : (bool * string) * MSR605XDevice * io_log :=
  match _connected self, _device self with
  | true, Some _ =>
      let closed := hid_close log in
      let log := EvClose :: log in
      match closed with
      | Raise e => ((false, ("Disconnect failed: " ++ exn_str e)%string), self, log)
      | Ret _ =>
          let self := {| _device := None;
                         _connected := false;
                         _device_info := None;
                         _on_status_change := _on_status_change self |} in
          match _notify_status_change self false log with
          | (Raise e, log) =>
              ((false, ("Disconnect failed: " ++ exn_str e)%string), self, log)
          | (Ret _, log) => ((true, "Disconnected successfully"%string), self, log)
          end
      end
  | _, _ => ((false, "Not connected"%string), self, log)
  end.

(** [send_command(command, data)]: the result pair and the log; the object is
    left as it was. *)
Definition send_command (self : MSR605XDevice) (command data : bytes)
    (log : io_log) : (bool * bytes) * io_log :=
  if negb (is_connected self) then ((false, []), log)
  else
    let payload := command ++ data in
    let report := [x00] ++ payload in
    let report :=
      if len report <? HID_REPORT_SIZE
      then report ++ zero_bytes (HID_REPORT_SIZE - len report)
      else report in
    match _device self with
    | None => ((false, []), log)
    | Some _ =>
        let written := hid_write log report in
        let log := EvWrite report :: log in
        match written with
        | Raise _ => ((false, []), log)
        | Ret bytes_written =>
            if bytes_written <? 0 then ((false, []), log) else ((true, []), log)
        end
    end.

(** The [while True:] loop of [receive_response]. Each turn reads the clock
    and, unless the time is up, polls the handle. [fuel] bounds the number of
    turns; [None] means the bound was reached before the loop ended. The
    argument of [time.sleep] is the double that [0.01] denotes. *)
Fixpoint receive_loop (fuel : nat) (start_time timeout_sec : float)
    (response : bytes) (log : io_log) : option (exc bytes * io_log) :=
  match fuel with
  | O => None
  | S fuel' =>
      let now := time_time log in
      let log := EvTime :: log in
      if float_gt (now - start_time)%float timeout_sec then Some (Ret response, log)
      else
        let polled := hid_read log HID_REPORT_SIZE 100 in
        let log := EvRead HID_REPORT_SIZE 100 :: log in
        match polled with
        | Raise e => Some (Raise e, log)
        | Ret [] =>
            receive_loop fuel' start_time timeout_sec response
              (EvSleep 0x1.47ae147ae147bp-7%float :: log)
        | Ret ((_ :: _) as data) =>
            let response := response ++ data in
            if 2 <=? len response then
              if bytes_contains response [x1b; x30]
                 || bytes_contains response [x1b; x31]
              then Some (Ret response, log)
              else if bytes_contains response [x1c]
              then Some (Ret response, log)
              else receive_loop fuel' start_time timeout_sec response log
            else receive_loop fuel' start_time timeout_sec response log
        end
  end.

(** [receive_response(timeout_ms)] *)
Definition receive_response (fuel : nat) (self : MSR605XDevice) (timeout_ms : Z)
    (log : io_log) : option ((bool * bytes) * io_log) :=
  if negb (is_connected self) then Some ((false, []), log)
  else
    let response : bytes := [] in
    let start_time := time_time log in
    let log := EvTime :: log in
    match int_truediv_float timeout_ms 1000 with
    | Raise _ => Some ((false, []), log)
    | Ret timeout_sec =>
        match receive_loop fuel start_time timeout_sec response log with
        | None => None
        | Some (Raise _, log) => Some ((false, []), log)
        | Some (Ret response, log) =>
            let response := bytes_rstrip_nul response in
            Some ((0 <? len response, response), log)
        end
    end.

End Device.

(* ===================================================================== *)
(** ** Notions the properties are stated with *)
(* ===================================================================== *)

(** The content of an optional track: an omitted track has none. *)
Definition payload {A : Type} (o : option (list A)) : list A :=
  match o with
  | Some t => t
  | None => []
  end.

(** The two bytes [ESC trackNum]. *)
Definition start_marker (track_num : Z) : bytes :=
  match bytes_of_ints [27; track_num] with
  | Ret m => m
  | Raise _ => []
  end.

(** The wire grammar of a write frame, in the words of the specification:
    [ESC 's' (ESC trackNum payload FS)x3 '?' FS]. *)
Definition track_field (track_num : byte) (p : bytes) : bytes :=
  [x1b; track_num] ++ p ++ [x1c].

Definition wire_frame (p1 p2 p3 : bytes) : bytes :=
  [x1b; x73] ++ track_field x01 p1 ++ track_field x02 p2 ++ track_field x03 p3
  ++ [x3f; x1c].

(** [sub] occurs in [s] at index [i]; [i] is its first occurrence at or after
    [start]; it does not occur at or after [start]. *)
Definition occurs_at (s sub : bytes) (i : Z) : Prop :=
  0 <= i <= len s /\ startswith (skipn (Z.to_nat i) s) sub = true.

Definition first_at (s sub : bytes) (start i : Z) : Prop :=
  start <= i /\ occurs_at s sub i /\
  forall j, start <= j < i -> ~ occurs_at s sub j.

Definition absent_from (s sub : bytes) (start : Z) : Prop :=
  forall j, start <= j -> ~ occurs_at s sub j.

(** Where the segment of a track ends, by priority: the first field
    separator; without one, the first marker [ESC (trackNum + 1)]; without
    one, the first status marker [ESC '0']; without one, the end. *)
Definition ends_by_priority (s : bytes) (track_num data_start e : Z) : Prop :=
  first_at s [x1c] data_start e
  \/ (absent_from s [x1c] data_start /\
      (first_at s (start_marker (track_num + 1)) data_start e
       \/ (absent_from s (start_marker (track_num + 1)) data_start /\
           (first_at s [x1b; x30] data_start e
            \/ (absent_from s [x1b; x30] data_start /\ e = len s))))).

(** Where the segment would end if it ended at the nearest of the field
    separator, the next marker, the status marker and the end of the buffer. *)
Definition nearest_end (s : bytes) (track_num data_start : Z) : Z :=
  fold_right Z.min (len s)
    (filter (fun i => negb (i =? -1))
       [bytes_find s [x1c] data_start;
        bytes_find s (start_marker (track_num + 1)) data_start;
        bytes_find s [x1b; x30] data_start]).

(** The entry the decoders build for a track from its segment. *)
Definition raw_track (track_num : Z) (segment : bytes) : TrackData :=
  {| track_number := track_num;
     data := bytes_hex segment;
     raw_data := segment;
     is_valid := 0 <? len segment;
     format := RAW;
     error_message := None |}.

Definition iso_track {consts : Constants} (self : TrackParser) (track_num : Z)
    (segment : bytes) : TrackData :=
  let decoded := _clean_track_data self (decode_ascii_replace segment) track_num in
  let valid := _validate_track_data self decoded track_num in
  {| track_number := track_num;
     data := decoded;
     raw_data := segment;
     is_valid := valid;
     format := _data_format self;
     error_message :=
       if valid then None else Some "Invalid characters in track data"%string |}.

Definition segment_end (s : bytes) (track_num data_start : Z) : Z :=
  let fs := bytes_find s [x1c] data_start in
  if fs =? -1 then
    let next_track := bytes_find s (start_marker (track_num + 1)) data_start in
    let status_marker := bytes_find s [x1b; x30] data_start in
    if negb (next_track =? -1) then next_track
    else if negb (status_marker =? -1) then status_marker
    else len s
  else fs.

Definition track_segment (s : bytes) (track_num : Z) : option bytes :=
  let start_idx := bytes_find s (start_marker track_num) 0 in
  if start_idx =? -1 then None
  else Some (slice s (start_idx + 2) (segment_end s track_num (start_idx + 2))).

(** The entries of the tracks that were found, in the order 1, 2, 3. *)
Definition found_tracks (entry : Z -> bytes -> TrackData) (s : bytes) : list TrackData :=
  flat_map (fun n => match track_segment s n with
                     | Some seg => [entry n seg]
                     | None => []
                     end) [1; 2; 3].

(** A payload the wire grammar frames without ambiguity: it holds neither
    the escape byte nor the field separator. *)
Definition clean_payload (p : bytes) : Prop :=
  Forall (fun b => b <> x1b /\ b <> x1c) p.

(** ASCII text. *)
Definition is_ascii (t : str) : Prop := Forall (fun c => (c < 128)%N) t.

(** The characters tracks 2 and 3 take in ISO mode. *)
Definition numeric_track_char (c : char) : Prop :=
  (48 <= c <= 57)%N \/ In c (str_of_string ":;<=>?") \/ In c (str_of_string "%?;").

(** Upper-case letters and digits. *)
Definition upper_alnum (c : char) : Prop :=
  (48 <= c <= 57)%N \/ (65 <= c <= 90)%N.

(** Sample values: the report size and track lengths of the device, a
    connected transport, and environments. *)
Definition sample_constants : Constants :=
  {| HID_REPORT_SIZE := 64;
     TRACK_1_max_chars := 79;
     TRACK_2_max_chars := 40;
     TRACK_3_max_chars := 107 |}.

(** The case tables of the interpreter, here of CPython 3.11 (Unicode 14.0):
    the characters outside ASCII that [str.upper()] changes, each with the
    characters it becomes. A character that is not listed is left as it is. *)
Definition unicode_upper : list (N * list N) :=
  [(181, [924]); (223, [83; 83]); (224, [192]); (225, [193]); (226, [194]);
   (227, [195]); (228, [196]); (229, [197]); (230, [198]); (231, [199]);
   (232, [200]); (233, [201]); (234, [202]); (235, [203]); (236, [204]);
   (237, [205]); (238, [206]); (239, [207]); (240, [208]); (241, [209]);
   (242, [210]); (243, [211]); (244, [212]); (245, [213]); (246, [214]);
   (248, [216]); (249, [217]); (250, [218]); (251, [219]); (252, [220]);
   (253, [221]); (254, [222]); (255, [376]); (257, [256]); (259, [258]);
   (261, [260]); (263, [262]); (265, [264]); (267, [266]); (269, [268]);
   (271, [270]); (273, [272]); (275, [274]); (277, [276]); (279, [278]);
   (281, [280]); (283, [282]); (285, [284]); (287, [286]); (289, [288]);
   (291, [290]); (293, [292]); (295, [294]); (297, [296]); (299, [298]);
   (301, [300]); (303, [302]); (305, [73]); (307, [306]); (309, [308]);
   (311, [310]); (314, [313]); (316, [315]); (318, [317]); (320, [319]);
   (322, [321]); (324, [323]); (326, [325]); (328, [327]); (329, [700; 78]);
   (331, [330]); (333, [332]); (335, [334]); (337, [336]); (339, [338]);
   (341, [340]); (343, [342]); (345, [344]); (347, [346]); (349, [348]);
   (351, [350]); (353, [352]); (355, [354]); (357, [356]); (359, [358]);
   (361, [360]); (363, [362]); (365, [364]); (367, [366]); (369, [368]);
   (371, [370]); (373, [372]); (375, [374]); (378, [377]); (380, [379]);
   (382, [381]); (383, [83]); (384, [579]); (387, [386]); (389, [388]);
   (392, [391]); (396, [395]); (402, [401]); (405, [502]); (409, [408]);
   (410, [573]); (414, [544]); (417, [416]); (419, [418]); (421, [420]);
   (424, [423]); (429, [428]); (432, [431]); (436, [435]); (438, [437]);
   (441, [440]); (445, [444]); (447, [503]); (453, [452]); (454, [452]);
   (456, [455]); (457, [455]); (459, [458]); (460, [458]); (462, [461]);
   (464, [463]); (466, [465]); (468, [467]); (470, [469]); (472, [471]);
   (474, [473]); (476, [475]); (477, [398]); (479, [478]); (481, [480]);
   (483, [482]); (485, [484]); (487, [486]); (489, [488]); (491, [490]);
   (493, [492]); (495, [494]); (496, [74; 780]); (498, [497]); (499, [497]);
   (501, [500]); (505, [504]); (507, [506]); (509, [508]); (511, [510]);
   (513, [512]); (515, [514]); (517, [516]); (519, [518]); (521, [520]);
   (523, [522]); (525, [524]); (527, [526]); (529, [528]); (531, [530]);
   (533, [532]); (535, [534]); (537, [536]); (539, [538]); (541, [540]);
   (543, [542]); (547, [546]); (549, [548]); (551, [550]); (553, [552]);
   (555, [554]); (557, [556]); (559, [558]); (561, [560]); (563, [562]);
   (572, [571]); (575, [11390]); (576, [11391]); (578, [577]); (583, [582]);
   (585, [584]); (587, [586]); (589, [588]); (591, [590]); (592, [11375]);
   (593, [11373]); (594, [11376]); (595, [385]); (596, [390]); (598, [393]);
   (599, [394]); (601, [399]); (603, [400]); (604, [42923]); (608, [403]);
   (609, [42924]); (611, [404]); (613, [42893]); (614, [42922]);
   (616, [407]); (617, [406]); (618, [42926]); (619, [11362]);
   (620, [42925]); (623, [412]); (625, [11374]); (626, [413]); (629, [415]);
   (637, [11364]); (640, [422]); (642, [42949]); (643, [425]);
   (647, [42929]); (648, [430]); (649, [580]); (650, [433]); (651, [434]);
   (652, [581]); (658, [439]); (669, [42930]); (670, [42928]); (837, [921]);
   (881, [880]); (883, [882]); (887, [886]); (891, [1021]); (892, [1022]);
   (893, [1023]); (912, [921; 776; 769]); (940, [902]); (941, [904]);
   (942, [905]); (943, [906]); (944, [933; 776; 769]); (945, [913]);
   (946, [914]); (947, [915]); (948, [916]); (949, [917]); (950, [918]);
   (951, [919]); (952, [920]); (953, [921]); (954, [922]); (955, [923]);
   (956, [924]); (957, [925]); (958, [926]); (959, [927]); (960, [928]);
   (961, [929]); (962, [931]); (963, [931]); (964, [932]); (965, [933]);
   (966, [934]); (967, [935]); (968, [936]); (969, [937]); (970, [938]);
   (971, [939]); (972, [908]); (973, [910]); (974, [911]); (976, [914]);
   (977, [920]); (981, [934]); (982, [928]); (983, [975]); (985, [984]);
   (987, [986]); (989, [988]); (991, [990]); (993, [992]); (995, [994]);
   (997, [996]); (999, [998]); (1001, [1000]); (1003, [1002]);
   (1005, [1004]); (1007, [1006]); (1008, [922]); (1009, [929]);
   (1010, [1017]); (1011, [895]); (1013, [917]); (1016, [1015]);
   (1019, [1018]); (1072, [1040]); (1073, [1041]); (1074, [1042]);
   (1075, [1043]); (1076, [1044]); (1077, [1045]); (1078, [1046]);
   (1079, [1047]); (1080, [1048]); (1081, [1049]); (1082, [1050]);
   (1083, [1051]); (1084, [1052]); (1085, [1053]); (1086, [1054]);
   (1087, [1055]); (1088, [1056]); (1089, [1057]); (1090, [1058]);
   (1091, [1059]); (1092, [1060]); (1093, [1061]); (1094, [1062]);
   (1095, [1063]); (1096, [1064]); (1097, [1065]); (1098, [1066]);
   (1099, [1067]); (1100, [1068]); (1101, [1069]); (1102, [1070]);
   (1103, [1071]); (1104, [1024]); (1105, [1025]); (1106, [1026]);
   (1107, [1027]); (1108, [1028]); (1109, [1029]); (1110, [1030]);
   (1111, [1031]); (1112, [1032]); (1113, [1033]); (1114, [1034]);
   (1115, [1035]); (1116, [1036]); (1117, [1037]); (1118, [1038]);
   (1119, [1039]); (1121, [1120]); (1123, [1122]); (1125, [1124]);
   (1127, [1126]); (1129, [1128]); (1131, [1130]); (1133, [1132]);
   (1135, [1134]); (1137, [1136]); (1139, [1138]); (1141, [1140]);
   (1143, [1142]); (1145, [1144]); (1147, [1146]); (1149, [1148]);
   (1151, [1150]); (1153, [1152]); (1163, [1162]); (1165, [1164]);
   (1167, [1166]); (1169, [1168]); (1171, [1170]); (1173, [1172]);
   (1175, [1174]); (1177, [1176]); (1179, [1178]); (1181, [1180]);
   (1183, [1182]); (1185, [1184]); (1187, [1186]); (1189, [1188]);
   (1191, [1190]); (1193, [1192]); (1195, [1194]); (1197, [1196]);
   (1199, [1198]); (1201, [1200]); (1203, [1202]); (1205, [1204]);
   (1207, [1206]); (1209, [1208]); (1211, [1210]); (1213, [1212]);
   (1215, [1214]); (1218, [1217]); (1220, [1219]); (1222, [1221]);
   (1224, [1223]); (1226, [1225]); (1228, [1227]); (1230, [1229]);
   (1231, [1216]); (1233, [1232]); (1235, [1234]); (1237, [1236]);
   (1239, [1238]); (1241, [1240]); (1243, [1242]); (1245, [1244]);
   (1247, [1246]); (1249, [1248]); (1251, [1250]); (1253, [1252]);
   (1255, [1254]); (1257, [1256]); (1259, [1258]); (1261, [1260]);
   (1263, [1262]); (1265, [1264]); (1267, [1266]); (1269, [1268]);
   (1271, [1270]); (1273, [1272]); (1275, [1274]); (1277, [1276]);
   (1279, [1278]); (1281, [1280]); (1283, [1282]); (1285, [1284]);
   (1287, [1286]); (1289, [1288]); (1291, [1290]); (1293, [1292]);
   (1295, [1294]); (1297, [1296]); (1299, [1298]); (1301, [1300]);
   (1303, [1302]); (1305, [1304]); (1307, [1306]); (1309, [1308]);
   (1311, [1310]); (1313, [1312]); (1315, [1314]); (1317, [1316]);
   (1319, [1318]); (1321, [1320]); (1323, [1322]); (1325, [1324]);
   (1327, [1326]); (1377, [1329]); (1378, [1330]); (1379, [1331]);
   (1380, [1332]); (1381, [1333]); (1382, [1334]); (1383, [1335]);
   (1384, [1336]); (1385, [1337]); (1386, [1338]); (1387, [1339]);
   (1388, [1340]); (1389, [1341]); (1390, [1342]); (1391, [1343]);
   (1392, [1344]); (1393, [1345]); (1394, [1346]); (1395, [1347]);
   (1396, [1348]); (1397, [1349]); (1398, [1350]); (1399, [1351]);
   (1400, [1352]); (1401, [1353]); (1402, [1354]); (1403, [1355]);
   (1404, [1356]); (1405, [1357]); (1406, [1358]); (1407, [1359]);
   (1408, [1360]); (1409, [1361]); (1410, [1362]); (1411, [1363]);
   (1412, [1364]); (1413, [1365]); (1414, [1366]); (1415, [1333; 1362]);
   (4304, [7312]); (4305, [7313]); (4306, [7314]); (4307, [7315]);
   (4308, [7316]); (4309, [7317]); (4310, [7318]); (4311, [7319]);
   (4312, [7320]); (4313, [7321]); (4314, [7322]); (4315, [7323]);
   (4316, [7324]); (4317, [7325]); (4318, [7326]); (4319, [7327]);
   (4320, [7328]); (4321, [7329]); (4322, [7330]); (4323, [7331]);
   (4324, [7332]); (4325, [7333]); (4326, [7334]); (4327, [7335]);
   (4328, [7336]); (4329, [7337]); (4330, [7338]); (4331, [7339]);
   (4332, [7340]); (4333, [7341]); (4334, [7342]); (4335, [7343]);
   (4336, [7344]); (4337, [7345]); (4338, [7346]); (4339, [7347]);
   (4340, [7348]); (4341, [7349]); (4342, [7350]); (4343, [7351]);
   (4344, [7352]); (4345, [7353]); (4346, [7354]); (4349, [7357]);
   (4350, [7358]); (4351, [7359]); (5112, [5104]); (5113, [5105]);
   (5114, [5106]); (5115, [5107]); (5116, [5108]); (5117, [5109]);
   (7296, [1042]); (7297, [1044]); (7298, [1054]); (7299, [1057]);
   (7300, [1058]); (7301, [1058]); (7302, [1066]); (7303, [1122]);
   (7304, [42570]); (7545, [42877]); (7549, [11363]); (7566, [42950]);
   (7681, [7680]); (7683, [7682]); (7685, [7684]); (7687, [7686]);
   (7689, [7688]); (7691, [7690]); (7693, [7692]); (7695, [7694]);
   (7697, [7696]); (7699, [7698]); (7701, [7700]); (7703, [7702]);
   (7705, [7704]); (7707, [7706]); (7709, [7708]); (7711, [7710]);
   (7713, [7712]); (7715, [7714]); (7717, [7716]); (7719, [7718]);
   (7721, [7720]); (7723, [7722]); (7725, [7724]); (7727, [7726]);
   (7729, [7728]); (7731, [7730]); (7733, [7732]); (7735, [7734]);
   (7737, [7736]); (7739, [7738]); (7741, [7740]); (7743, [7742]);
   (7745, [7744]); (7747, [7746]); (7749, [7748]); (7751, [7750]);
   (7753, [7752]); (7755, [7754]); (7757, [7756]); (7759, [7758]);
   (7761, [7760]); (7763, [7762]); (7765, [7764]); (7767, [7766]);
   (7769, [7768]); (7771, [7770]); (7773, [7772]); (7775, [7774]);
   (7777, [7776]); (7779, [7778]); (7781, [7780]); (7783, [7782]);
   (7785, [7784]); (7787, [7786]); (7789, [7788]); (7791, [7790]);
   (7793, [7792]); (7795, [7794]); (7797, [7796]); (7799, [7798]);
   (7801, [7800]); (7803, [7802]); (7805, [7804]); (7807, [7806]);
   (7809, [7808]); (7811, [7810]); (7813, [7812]); (7815, [7814]);
   (7817, [7816]); (7819, [7818]); (7821, [7820]); (7823, [7822]);
   (7825, [7824]); (7827, [7826]); (7829, [7828]); (7830, [72; 817]);
   (7831, [84; 776]); (7832, [87; 778]); (7833, [89; 778]);
   (7834, [65; 702]); (7835, [7776]); (7841, [7840]); (7843, [7842]);
   (7845, [7844]); (7847, [7846]); (7849, [7848]); (7851, [7850]);
   (7853, [7852]); (7855, [7854]); (7857, [7856]); (7859, [7858]);
   (7861, [7860]); (7863, [7862]); (7865, [7864]); (7867, [7866]);
   (7869, [7868]); (7871, [7870]); (7873, [7872]); (7875, [7874]);
   (7877, [7876]); (7879, [7878]); (7881, [7880]); (7883, [7882]);
   (7885, [7884]); (7887, [7886]); (7889, [7888]); (7891, [7890]);
   (7893, [7892]); (7895, [7894]); (7897, [7896]); (7899, [7898]);
   (7901, [7900]); (7903, [7902]); (7905, [7904]); (7907, [7906]);
   (7909, [7908]); (7911, [7910]); (7913, [7912]); (7915, [7914]);
   (7917, [7916]); (7919, [7918]); (7921, [7920]); (7923, [7922]);
   (7925, [7924]); (7927, [7926]); (7929, [7928]); (7931, [7930]);
   (7933, [7932]); (7935, [7934]); (7936, [7944]); (7937, [7945]);
   (7938, [7946]); (7939, [7947]); (7940, [7948]); (7941, [7949]);
   (7942, [7950]); (7943, [7951]); (7952, [7960]); (7953, [7961]);
   (7954, [7962]); (7955, [7963]); (7956, [7964]); (7957, [7965]);
   (7968, [7976]); (7969, [7977]); (7970, [7978]); (7971, [7979]);
   (7972, [7980]); (7973, [7981]); (7974, [7982]); (7975, [7983]);
   (7984, [7992]); (7985, [7993]); (7986, [7994]); (7987, [7995]);
   (7988, [7996]); (7989, [7997]); (7990, [7998]); (7991, [7999]);
   (8000, [8008]); (8001, [8009]); (8002, [8010]); (8003, [8011]);
   (8004, [8012]); (8005, [8013]); (8016, [933; 787]); (8017, [8025]);
   (8018, [933; 787; 768]); (8019, [8027]); (8020, [933; 787; 769]);
   (8021, [8029]); (8022, [933; 787; 834]); (8023, [8031]); (8032, [8040]);
   (8033, [8041]); (8034, [8042]); (8035, [8043]); (8036, [8044]);
   (8037, [8045]); (8038, [8046]); (8039, [8047]); (8048, [8122]);
   (8049, [8123]); (8050, [8136]); (8051, [8137]); (8052, [8138]);
   (8053, [8139]); (8054, [8154]); (8055, [8155]); (8056, [8184]);
   (8057, [8185]); (8058, [8170]); (8059, [8171]); (8060, [8186]);
   (8061, [8187]); (8064, [7944; 921]); (8065, [7945; 921]);
   (8066, [7946; 921]); (8067, [7947; 921]); (8068, [7948; 921]);
   (8069, [7949; 921]); (8070, [7950; 921]); (8071, [7951; 921]);
   (8072, [7944; 921]); (8073, [7945; 921]); (8074, [7946; 921]);
   (8075, [7947; 921]); (8076, [7948; 921]); (8077, [7949; 921]);
   (8078, [7950; 921]); (8079, [7951; 921]); (8080, [7976; 921]);
   (8081, [7977; 921]); (8082, [7978; 921]); (8083, [7979; 921]);
   (8084, [7980; 921]); (8085, [7981; 921]); (8086, [7982; 921]);
   (8087, [7983; 921]); (8088, [7976; 921]); (8089, [7977; 921]);
   (8090, [7978; 921]); (8091, [7979; 921]); (8092, [7980; 921]);
   (8093, [7981; 921]); (8094, [7982; 921]); (8095, [7983; 921]);
   (8096, [8040; 921]); (8097, [8041; 921]); (8098, [8042; 921]);
   (8099, [8043; 921]); (8100, [8044; 921]); (8101, [8045; 921]);
   (8102, [8046; 921]); (8103, [8047; 921]); (8104, [8040; 921]);
   (8105, [8041; 921]); (8106, [8042; 921]); (8107, [8043; 921]);
   (8108, [8044; 921]); (8109, [8045; 921]); (8110, [8046; 921]);
   (8111, [8047; 921]); (8112, [8120]); (8113, [8121]); (8114, [8122; 921]);
   (8115, [913; 921]); (8116, [902; 921]); (8118, [913; 834]);
   (8119, [913; 834; 921]); (8124, [913; 921]); (8126, [921]);
   (8130, [8138; 921]); (8131, [919; 921]); (8132, [905; 921]);
   (8134, [919; 834]); (8135, [919; 834; 921]); (8140, [919; 921]);
   (8144, [8152]); (8145, [8153]); (8146, [921; 776; 768]);
   (8147, [921; 776; 769]); (8150, [921; 834]); (8151, [921; 776; 834]);
   (8160, [8168]); (8161, [8169]); (8162, [933; 776; 768]);
   (8163, [933; 776; 769]); (8164, [929; 787]); (8165, [8172]);
   (8166, [933; 834]); (8167, [933; 776; 834]); (8178, [8186; 921]);
   (8179, [937; 921]); (8180, [911; 921]); (8182, [937; 834]);
   (8183, [937; 834; 921]); (8188, [937; 921]); (8526, [8498]);
   (8560, [8544]); (8561, [8545]); (8562, [8546]); (8563, [8547]);
   (8564, [8548]); (8565, [8549]); (8566, [8550]); (8567, [8551]);
   (8568, [8552]); (8569, [8553]); (8570, [8554]); (8571, [8555]);
   (8572, [8556]); (8573, [8557]); (8574, [8558]); (8575, [8559]);
   (8580, [8579]); (9424, [9398]); (9425, [9399]); (9426, [9400]);
   (9427, [9401]); (9428, [9402]); (9429, [9403]); (9430, [9404]);
   (9431, [9405]); (9432, [9406]); (9433, [9407]); (9434, [9408]);
   (9435, [9409]); (9436, [9410]); (9437, [9411]); (9438, [9412]);
   (9439, [9413]); (9440, [9414]); (9441, [9415]); (9442, [9416]);
   (9443, [9417]); (9444, [9418]); (9445, [9419]); (9446, [9420]);
   (9447, [9421]); (9448, [9422]); (9449, [9423]); (11312, [11264]);
   (11313, [11265]); (11314, [11266]); (11315, [11267]); (11316, [11268]);
   (11317, [11269]); (11318, [11270]); (11319, [11271]); (11320, [11272]);
   (11321, [11273]); (11322, [11274]); (11323, [11275]); (11324, [11276]);
   (11325, [11277]); (11326, [11278]); (11327, [11279]); (11328, [11280]);
   (11329, [11281]); (11330, [11282]); (11331, [11283]); (11332, [11284]);
   (11333, [11285]); (11334, [11286]); (11335, [11287]); (11336, [11288]);
   (11337, [11289]); (11338, [11290]); (11339, [11291]); (11340, [11292]);
   (11341, [11293]); (11342, [11294]); (11343, [11295]); (11344, [11296]);
   (11345, [11297]); (11346, [11298]); (11347, [11299]); (11348, [11300]);
   (11349, [11301]); (11350, [11302]); (11351, [11303]); (11352, [11304]);
   (11353, [11305]); (11354, [11306]); (11355, [11307]); (11356, [11308]);
   (11357, [11309]); (11358, [11310]); (11359, [11311]); (11361, [11360]);
   (11365, [570]); (11366, [574]); (11368, [11367]); (11370, [11369]);
   (11372, [11371]); (11379, [11378]); (11382, [11381]); (11393, [11392]);
   (11395, [11394]); (11397, [11396]); (11399, [11398]); (11401, [11400]);
   (11403, [11402]); (11405, [11404]); (11407, [11406]); (11409, [11408]);
   (11411, [11410]); (11413, [11412]); (11415, [11414]); (11417, [11416]);
   (11419, [11418]); (11421, [11420]); (11423, [11422]); (11425, [11424]);
   (11427, [11426]); (11429, [11428]); (11431, [11430]); (11433, [11432]);
   (11435, [11434]); (11437, [11436]); (11439, [11438]); (11441, [11440]);
   (11443, [11442]); (11445, [11444]); (11447, [11446]); (11449, [11448]);
   (11451, [11450]); (11453, [11452]); (11455, [11454]); (11457, [11456]);
   (11459, [11458]); (11461, [11460]); (11463, [11462]); (11465, [11464]);
   (11467, [11466]); (11469, [11468]); (11471, [11470]); (11473, [11472]);
   (11475, [11474]); (11477, [11476]); (11479, [11478]); (11481, [11480]);
   (11483, [11482]); (11485, [11484]); (11487, [11486]); (11489, [11488]);
   (11491, [11490]); (11500, [11499]); (11502, [11501]); (11507, [11506]);
   (11520, [4256]); (11521, [4257]); (11522, [4258]); (11523, [4259]);
   (11524, [4260]); (11525, [4261]); (11526, [4262]); (11527, [4263]);
   (11528, [4264]); (11529, [4265]); (11530, [4266]); (11531, [4267]);
   (11532, [4268]); (11533, [4269]); (11534, [4270]); (11535, [4271]);
   (11536, [4272]); (11537, [4273]); (11538, [4274]); (11539, [4275]);
   (11540, [4276]); (11541, [4277]); (11542, [4278]); (11543, [4279]);
   (11544, [4280]); (11545, [4281]); (11546, [4282]); (11547, [4283]);
   (11548, [4284]); (11549, [4285]); (11550, [4286]); (11551, [4287]);
   (11552, [4288]); (11553, [4289]); (11554, [4290]); (11555, [4291]);
   (11556, [4292]); (11557, [4293]); (11559, [4295]); (11565, [4301]);
   (42561, [42560]); (42563, [42562]); (42565, [42564]); (42567, [42566]);
   (42569, [42568]); (42571, [42570]); (42573, [42572]); (42575, [42574]);
   (42577, [42576]); (42579, [42578]); (42581, [42580]); (42583, [42582]);
   (42585, [42584]); (42587, [42586]); (42589, [42588]); (42591, [42590]);
   (42593, [42592]); (42595, [42594]); (42597, [42596]); (42599, [42598]);
   (42601, [42600]); (42603, [42602]); (42605, [42604]); (42625, [42624]);
   (42627, [42626]); (42629, [42628]); (42631, [42630]); (42633, [42632]);
   (42635, [42634]); (42637, [42636]); (42639, [42638]); (42641, [42640]);
   (42643, [42642]); (42645, [42644]); (42647, [42646]); (42649, [42648]);
   (42651, [42650]); (42787, [42786]); (42789, [42788]); (42791, [42790]);
   (42793, [42792]); (42795, [42794]); (42797, [42796]); (42799, [42798]);
   (42803, [42802]); (42805, [42804]); (42807, [42806]); (42809, [42808]);
   (42811, [42810]); (42813, [42812]); (42815, [42814]); (42817, [42816]);
   (42819, [42818]); (42821, [42820]); (42823, [42822]); (42825, [42824]);
   (42827, [42826]); (42829, [42828]); (42831, [42830]); (42833, [42832]);
   (42835, [42834]); (42837, [42836]); (42839, [42838]); (42841, [42840]);
   (42843, [42842]); (42845, [42844]); (42847, [42846]); (42849, [42848]);
   (42851, [42850]); (42853, [42852]); (42855, [42854]); (42857, [42856]);
   (42859, [42858]); (42861, [42860]); (42863, [42862]); (42874, [42873]);
   (42876, [42875]); (42879, [42878]); (42881, [42880]); (42883, [42882]);
   (42885, [42884]); (42887, [42886]); (42892, [42891]); (42897, [42896]);
   (42899, [42898]); (42900, [42948]); (42903, [42902]); (42905, [42904]);
   (42907, [42906]); (42909, [42908]); (42911, [42910]); (42913, [42912]);
   (42915, [42914]); (42917, [42916]); (42919, [42918]); (42921, [42920]);
   (42933, [42932]); (42935, [42934]); (42937, [42936]); (42939, [42938]);
   (42941, [42940]); (42943, [42942]); (42945, [42944]); (42947, [42946]);
   (42952, [42951]); (42954, [42953]); (42961, [42960]); (42967, [42966]);
   (42969, [42968]); (42998, [42997]); (43859, [42931]); (43888, [5024]);
   (43889, [5025]); (43890, [5026]); (43891, [5027]); (43892, [5028]);
   (43893, [5029]); (43894, [5030]); (43895, [5031]); (43896, [5032]);
   (43897, [5033]); (43898, [5034]); (43899, [5035]); (43900, [5036]);
   (43901, [5037]); (43902, [5038]); (43903, [5039]); (43904, [5040]);
   (43905, [5041]); (43906, [5042]); (43907, [5043]); (43908, [5044]);
   (43909, [5045]); (43910, [5046]); (43911, [5047]); (43912, [5048]);
   (43913, [5049]); (43914, [5050]); (43915, [5051]); (43916, [5052]);
   (43917, [5053]); (43918, [5054]); (43919, [5055]); (43920, [5056]);
   (43921, [5057]); (43922, [5058]); (43923, [5059]); (43924, [5060]);
   (43925, [5061]); (43926, [5062]); (43927, [5063]); (43928, [5064]);
   (43929, [5065]); (43930, [5066]); (43931, [5067]); (43932, [5068]);
   (43933, [5069]); (43934, [5070]); (43935, [5071]); (43936, [5072]);
   (43937, [5073]); (43938, [5074]); (43939, [5075]); (43940, [5076]);
   (43941, [5077]); (43942, [5078]); (43943, [5079]); (43944, [5080]);
   (43945, [5081]); (43946, [5082]); (43947, [5083]); (43948, [5084]);
   (43949, [5085]); (43950, [5086]); (43951, [5087]); (43952, [5088]);
   (43953, [5089]); (43954, [5090]); (43955, [5091]); (43956, [5092]);
   (43957, [5093]); (43958, [5094]); (43959, [5095]); (43960, [5096]);
   (43961, [5097]); (43962, [5098]); (43963, [5099]); (43964, [5100]);
   (43965, [5101]); (43966, [5102]); (43967, [5103]); (64256, [70; 70]);
   (64257, [70; 73]); (64258, [70; 76]); (64259, [70; 70; 73]);
   (64260, [70; 70; 76]); (64261, [83; 84]); (64262, [83; 84]);
   (64275, [1348; 1350]); (64276, [1348; 1333]); (64277, [1348; 1339]);
   (64278, [1358; 1350]); (64279, [1348; 1341]); (65345, [65313]);
   (65346, [65314]); (65347, [65315]); (65348, [65316]); (65349, [65317]);
   (65350, [65318]); (65351, [65319]); (65352, [65320]); (65353, [65321]);
   (65354, [65322]); (65355, [65323]); (65356, [65324]); (65357, [65325]);
   (65358, [65326]); (65359, [65327]); (65360, [65328]); (65361, [65329]);
   (65362, [65330]); (65363, [65331]); (65364, [65332]); (65365, [65333]);
   (65366, [65334]); (65367, [65335]); (65368, [65336]); (65369, [65337]);
   (65370, [65338]); (66600, [66560]); (66601, [66561]); (66602, [66562]);
   (66603, [66563]); (66604, [66564]); (66605, [66565]); (66606, [66566]);
   (66607, [66567]); (66608, [66568]); (66609, [66569]); (66610, [66570]);
   (66611, [66571]); (66612, [66572]); (66613, [66573]); (66614, [66574]);
   (66615, [66575]); (66616, [66576]); (66617, [66577]); (66618, [66578]);
   (66619, [66579]); (66620, [66580]); (66621, [66581]); (66622, [66582]);
   (66623, [66583]); (66624, [66584]); (66625, [66585]); (66626, [66586]);
   (66627, [66587]); (66628, [66588]); (66629, [66589]); (66630, [66590]);
   (66631, [66591]); (66632, [66592]); (66633, [66593]); (66634, [66594]);
   (66635, [66595]); (66636, [66596]); (66637, [66597]); (66638, [66598]);
   (66639, [66599]); (66776, [66736]); (66777, [66737]); (66778, [66738]);
   (66779, [66739]); (66780, [66740]); (66781, [66741]); (66782, [66742]);
   (66783, [66743]); (66784, [66744]); (66785, [66745]); (66786, [66746]);
   (66787, [66747]); (66788, [66748]); (66789, [66749]); (66790, [66750]);
   (66791, [66751]); (66792, [66752]); (66793, [66753]); (66794, [66754]);
   (66795, [66755]); (66796, [66756]); (66797, [66757]); (66798, [66758]);
   (66799, [66759]); (66800, [66760]); (66801, [66761]); (66802, [66762]);
   (66803, [66763]); (66804, [66764]); (66805, [66765]); (66806, [66766]);
   (66807, [66767]); (66808, [66768]); (66809, [66769]); (66810, [66770]);
   (66811, [66771]); (66967, [66928]); (66968, [66929]); (66969, [66930]);
   (66970, [66931]); (66971, [66932]); (66972, [66933]); (66973, [66934]);
   (66974, [66935]); (66975, [66936]); (66976, [66937]); (66977, [66938]);
   (66979, [66940]); (66980, [66941]); (66981, [66942]); (66982, [66943]);
   (66983, [66944]); (66984, [66945]); (66985, [66946]); (66986, [66947]);
   (66987, [66948]); (66988, [66949]); (66989, [66950]); (66990, [66951]);
   (66991, [66952]); (66992, [66953]); (66993, [66954]); (66995, [66956]);
   (66996, [66957]); (66997, [66958]); (66998, [66959]); (66999, [66960]);
   (67000, [66961]); (67001, [66962]); (67003, [66964]); (67004, [66965]);
   (68800, [68736]); (68801, [68737]); (68802, [68738]); (68803, [68739]);
   (68804, [68740]); (68805, [68741]); (68806, [68742]); (68807, [68743]);
   (68808, [68744]); (68809, [68745]); (68810, [68746]); (68811, [68747]);
   (68812, [68748]); (68813, [68749]); (68814, [68750]); (68815, [68751]);
   (68816, [68752]); (68817, [68753]); (68818, [68754]); (68819, [68755]);
   (68820, [68756]); (68821, [68757]); (68822, [68758]); (68823, [68759]);
   (68824, [68760]); (68825, [68761]); (68826, [68762]); (68827, [68763]);
   (68828, [68764]); (68829, [68765]); (68830, [68766]); (68831, [68767]);
   (68832, [68768]); (68833, [68769]); (68834, [68770]); (68835, [68771]);
   (68836, [68772]); (68837, [68773]); (68838, [68774]); (68839, [68775]);
   (68840, [68776]); (68841, [68777]); (68842, [68778]); (68843, [68779]);
   (68844, [68780]); (68845, [68781]); (68846, [68782]); (68847, [68783]);
   (68848, [68784]); (68849, [68785]); (68850, [68786]); (71872, [71840]);
   (71873, [71841]); (71874, [71842]); (71875, [71843]); (71876, [71844]);
   (71877, [71845]); (71878, [71846]); (71879, [71847]); (71880, [71848]);
   (71881, [71849]); (71882, [71850]); (71883, [71851]); (71884, [71852]);
   (71885, [71853]); (71886, [71854]); (71887, [71855]); (71888, [71856]);
   (71889, [71857]); (71890, [71858]); (71891, [71859]); (71892, [71860]);
   (71893, [71861]); (71894, [71862]); (71895, [71863]); (71896, [71864]);
   (71897, [71865]); (71898, [71866]); (71899, [71867]); (71900, [71868]);
   (71901, [71869]); (71902, [71870]); (71903, [71871]); (93792, [93760]);
   (93793, [93761]); (93794, [93762]); (93795, [93763]); (93796, [93764]);
   (93797, [93765]); (93798, [93766]); (93799, [93767]); (93800, [93768]);
   (93801, [93769]); (93802, [93770]); (93803, [93771]); (93804, [93772]);
   (93805, [93773]); (93806, [93774]); (93807, [93775]); (93808, [93776]);
   (93809, [93777]); (93810, [93778]); (93811, [93779]); (93812, [93780]);
   (93813, [93781]); (93814, [93782]); (93815, [93783]); (93816, [93784]);
   (93817, [93785]); (93818, [93786]); (93819, [93787]); (93820, [93788]);
   (93821, [93789]); (93822, [93790]); (93823, [93791]); (125218, [125184]);
   (125219, [125185]); (125220, [125186]); (125221, [125187]);
   (125222, [125188]); (125223, [125189]); (125224, [125190]);
   (125225, [125191]); (125226, [125192]); (125227, [125193]);
   (125228, [125194]); (125229, [125195]); (125230, [125196]);
   (125231, [125197]); (125232, [125198]); (125233, [125199]);
   (125234, [125200]); (125235, [125201]); (125236, [125202]);
   (125237, [125203]); (125238, [125204]); (125239, [125205]);
   (125240, [125206]); (125241, [125207]); (125242, [125208]);
   (125243, [125209]); (125244, [125210]); (125245, [125211]);
   (125246, [125212]); (125247, [125213]); (125248, [125214]);
   (125249, [125215]); (125250, [125216]); (125251, [125217])]%N.

Definition python_upper_non_ascii (c : char) : str :=
  match find (fun entry => (fst entry =? c)%N) unicode_upper with
  | Some (_, upper) => upper
  | None => [c]
  end.

Definition sample_tables : CaseTables :=
  {| upper_non_ascii := python_upper_non_ascii |}.

Definition iso_parser : TrackParser := {| _data_format := ISO |}.

Definition connected_device : MSR605XDevice :=
  {| _device := Some HidHandle;
     _connected := true;
     _device_info := None;
     _on_status_change := Some (fun _ => Ret tt) |}.

(** A clock on which every call takes a tenth of a second, for the first
    hundred calls. *)
Definition sample_clock (log : io_log) : float :=
  (round_to_float (Z.of_nat (Nat.min (List.length log) 100)) / 10)%float.

(** An environment with this clock in which writes go through and the first
    poll brings the two bytes "AB" and padding. *)
Definition sample_env : HidEnv :=
  {| hid_write := fun _ report => Ret (len report);
     hid_read := fun log _ _ =>
       if Z.of_nat (List.length log) <? 3 then Ret [x41; x42; x00] else Ret [];
     hid_close := fun _ => Ret tt;
     time_time := sample_clock |}.

(** An environment with this clock in which the first poll brings the byte
    "A" and the second the status sentinel [ESC '0'] and padding. *)
Definition sentinel_env : HidEnv :=
  {| hid_write := fun _ report => Ret (len report);
     hid_read := fun log _ _ =>
       if Z.of_nat (List.length log) <? 3 then Ret [x41] else Ret [x1b; x30; x00];
     hid_close := fun _ => Ret tt;
     time_time := sample_clock |}.

(** The clock, read after the calls of [log], is more than the timeout past
    the start. *)
Definition time_is_up {env : HidEnv} (start_time timeout_sec : float)
    (log : io_log) : bool :=
  float_gt (time_time log - start_time)%float timeout_sec.

(** The clock is past the timeout once [n] calls were made. *)
Definition clock_expires {env : HidEnv} (start_time timeout_sec : float) (n : nat)
    : Prop :=
  forall log : io_log, (n <= List.length log)%nat ->
    time_is_up start_time timeout_sec log = true.

(** The test that ends the polling: the buffer is two bytes long or more and
    holds [ESC '0'], [ESC '1'] or [FS]. *)
Definition stop_sentinel (response : bytes) : bool :=
  (2 <=? len response)
  && (bytes_contains response [x1b; x30] || bytes_contains response [x1b; x31]
      || bytes_contains response [x1c]).

(** The polling ended on the clock: its last call read a time more than the
    timeout after the start. *)
Definition timed_out {env : HidEnv} (start_time timeout_sec : float)
    (log : io_log) : Prop :=
  exists before, log = EvTime :: before /\
    time_is_up start_time timeout_sec before = true.

(** The calls of one turn of the polling in which the poll brought [chunk]:
    the clock reading, the poll and, when the poll brought nothing, the
    sleep. *)
Definition turn_log {consts : Constants} (log : io_log) (chunk : bytes) : io_log :=
  match chunk with
  | [] => EvSleep 0x1.47ae147ae147bp-7%float :: EvRead HID_REPORT_SIZE 100
          :: EvTime :: log
  | _ :: _ => EvRead HID_REPORT_SIZE 100 :: EvTime :: log
  end.

Definition turns_log {consts : Constants} (log : io_log) (chunks : list bytes)
    : io_log :=
  fold_left turn_log chunks log.

(** The polling goes on through the polls that brought [chunks], from the
    buffer [buffer] and the log [log]: at each of these turns the time is not
    up, the poll brings the chunk, and the buffer with the chunk added holds
    no sentinel. *)
Fixpoint polling_goes_on {consts : Constants} {env : HidEnv}
    (start_time timeout_sec : float) (buffer : bytes) (log : io_log)
    (chunks : list bytes) : Prop :=
  match chunks with
  | [] => True
  | chunk :: rest =>
      time_is_up start_time timeout_sec log = false /\
      hid_read (EvTime :: log) HID_REPORT_SIZE 100 = Ret chunk /\
      stop_sentinel (buffer ++ chunk) = false /\
      polling_goes_on start_time timeout_sec (buffer ++ chunk)
        (turn_log log chunk) rest
  end.

(** The payload of track [track_num] in the buffer [s]: the bytes between
    the first start marker [ESC trackNum] and the end of its segment. *)
Definition payload_between (s : bytes) (track_num : Z) (p : bytes) : Prop :=
  exists i e,
    first_at s (start_marker track_num) 0 i /\
    ends_by_priority s track_num (i + 2) e /\
    i + 2 <= e <= len s /\
    p = firstn (Z.to_nat (e - (i + 2))) (skipn (Z.to_nat (i + 2)) s).

(* ===================================================================== *)
(** ** [parser.py]: the remaining methods *)
(* ===================================================================== *)

(** [set_format(format)] *)
Definition set_format (self : TrackParser) (format : DataFormat) : TrackParser :=
  {| _data_format := format |}.

(** [str(i)] for an integer: its decimal digits, with a sign when negative. *)
Definition str_of_int (i : Z) : str :=
  str_of_string (DecimalString.NilZero.string_of_int (Z.to_int i)).

(** [sep.join(lines)] *)
Fixpoint str_join (sep : str) (lines : list str) : str :=
  match lines with
  | [] => []
  | [l] => l
  | l :: rest => l ++ sep ++ str_join sep rest
  end.

(** The lines [format_track_display] appends for one track; the error line
    is there when the message is neither [None] nor empty. *)
Definition track_display_lines (track : TrackData) : list str :=
  let status := if is_valid track then str_of_string "OK" else str_of_string "ERROR" in
  (str_of_string "Track " ++ str_of_int (track_number track) ++ str_of_string " ["
   ++ status ++ str_of_string "]: " ++ data track)
  :: match error_message track with
     | Some (String _ _ as msg) => [str_of_string "  Error: " ++ str_of_string msg]
     | _ => []
     end.

Definition format_track_display (self : TrackParser) (tracks : list TrackData) : str :=
  let lines := fold_left (fun lines track => lines ++ track_display_lines track) tracks [] in
  str_join [10%N] lines.

(** The regular expressions of [parse_aamva] are sequences of items, each a
    class of one character (a literal, [A-Z] or [A-Z0-9]) with a count (one,
    [{2}], [+] or the star), one item of each pattern being its group; the
    first pattern is anchored at the start with [^]. Python matches them
    leftmost and greedily, with backtracking. *)
Inductive char_class : Type :=
| Literal (c : char)
| UpperLetter
| UpperLetterOrDigit.

Definition class_matches (k : char_class) (c : char) : bool :=
  match k with
  | Literal l => (c =? l)%N
  | UpperLetter => ((65 <=? c) && (c <=? 90))%N
  | UpperLetterOrDigit =>
      (((65 <=? c) && (c <=? 90)) || ((48 <=? c) && (c <=? 57)))%N
  end.

Inductive repeat_count : Type :=
| Once
| Times (n : nat)
| OneOrMore
| ZeroOrMore.

Definition min_count (q : repeat_count) : nat :=
  match q with
  | Once | OneOrMore => 1
  | Times n => n
  | ZeroOrMore => 0
  end.

Definition max_count (q : repeat_count) : option nat :=
  match q with
  | Once => Some 1%nat
  | Times n => Some n
  | OneOrMore | ZeroOrMore => None
  end.

Record regex_item : Type := {
  item_class : char_class;
  item_count : repeat_count;
  item_group : bool
}.

Record regex : Type := {
  anchored : bool;
  items : list regex_item
}.

(** How many characters at the head of [s] are in the class. *)
Fixpoint run_length (k : char_class) (s : str) : nat :=
  match s with
  | c :: s' => if class_matches k c then S (run_length k s') else 0
  | [] => 0
  end.

(** The first success of [f] on [lo + extra], [lo + extra - 1], ..., [lo]:
    a greedy count gives characters back one at a time. *)
Fixpoint first_down {A : Type} (f : nat -> option A) (lo extra : nat) : option A :=
  match f (lo + extra)%nat with
  | Some a => Some a
  | None =>
      match extra with
      | O => None
      | S extra' => first_down f lo extra'
      end
  end.

(** A match of the items at the head of [s]; the result is the text of the
    group. *)
Fixpoint match_here (its : list regex_item) (s : str) (group : option str)
    : option (option str) :=
  match its with
  | [] => Some group
  | it :: rest =>
      let run := run_length (item_class it) s in
      let lo := min_count (item_count it) in
      let hi := match max_count (item_count it) with
                | Some m => Nat.min m run
                | None => run
                end in
      if (hi <? lo)%nat then None
      else first_down
             (fun k => match_here rest (skipn k s)
                         (if item_group it then Some (firstn k s) else group))
             lo (hi - lo)
  end.

(** The leftmost match: at the head of [s], else further on. *)
Fixpoint search_from (its : list regex_item) (s : str) : option (option str) :=
  match match_here its s None with
  | Some g => Some g
  | None =>
      match s with
      | [] => None
      | _ :: s' => search_from its s'
      end
  end.

(** [re.search(pattern, s)], then [match.group(1)]. *)
Definition re_search (r : regex) (s : str) : option (option str) :=
  if anchored r then match_here (items r) s None else search_from (items r) s.

Definition one (k : char_class) : regex_item :=
  {| item_class := k; item_count := Once; item_group := false |}.

Definition group_of (k : char_class) (q : repeat_count) : regex_item :=
  {| item_class := k; item_count := q; item_group := true |}.

Definition aamva_patterns : list (string * regex) :=
  [("iin"%string,
    {| anchored := true;
       items := [one (Literal 37%N); group_of UpperLetter (Times 2)] |});
   ("license_number"%string,
    {| anchored := false;
       items := [group_of UpperLetterOrDigit OneOrMore; one (Literal 94%N)] |});
   ("last_name"%string,
    {| anchored := false;
       items := [one (Literal 94%N); group_of UpperLetter OneOrMore; one (Literal 36%N)] |});
   ("first_name"%string,
    {| anchored := false;
       items := [one (Literal 36%N); group_of UpperLetter OneOrMore; one (Literal 36%N)] |});
   ("middle_name"%string,
    {| anchored := false;
       items := [one (Literal 36%N); one (Literal 36%N); group_of UpperLetter ZeroOrMore;
                 one (Literal 94%N)] |})].

(** [parse_aamva(track_data)]: the dictionary of the fields whose pattern was
    found, in the order of insertion. *)
Definition parse_aamva (self : TrackParser) (track_data : str) : list (string * str) :=
  flat_map (fun fp : string * regex =>
              match re_search (snd fp) track_data with
              | Some (Some g) => [(fst fp, g)]
              | _ => []
              end) aamva_patterns.

(** [result.get(field)] *)
Fixpoint dict_get (d : list (string * str)) (field : string) : option str :=
  match d with
  | [] => None
  | (k, v) :: d' => if String.eqb k field then Some v else dict_get d' field
  end.

(* ===================================================================== *)
(** ** [device.py]: the remaining methods *)
(* ===================================================================== *)

(** The identifiers [VENDOR_ID] and [PRODUCT_ID] of [constants.py]. *)
Class UsbIds : Type := {
  VENDOR_ID : Z;
  PRODUCT_ID : Z
}.

(** A dictionary of [hid.enumerate]. The keys read with [dev['...']] are
    taken to be there; a key read with [dev.get] may be missing. *)
Record hid_info : Type := {
  hi_vendor_id : Z;
  hi_product_id : Z;
  hi_serial_number : option string;
  hi_manufacturer_string : option string;
  hi_product_string : option string;
  hi_path : bytes
}.

(** The calls of [connect] and [enumerate_devices], beside those of the
    transport. *)
Inductive conn_event : Type :=
| EvHidDevice
| EvOpenPath (path : bytes)
| EvOpen (vendor_id product_id : Z)
| EvSetNonblocking (flag : bool)
| EvEnumerate (vendor_id product_id : Z)
| EvTransport (e : io_event).

Definition conn_log : Type := list conn_event.

Class HidOpenEnv : Type := {
  hid_open_path : conn_log -> bytes -> exc unit;
  hid_open : conn_log -> Z -> Z -> exc unit;
  hid_set_nonblocking : conn_log -> bool -> exc unit;
  hid_enumerate : conn_log -> Z -> Z -> exc (list hid_info)
}.

(** [MSR605XDevice()] *)
Definition new_device : MSR605XDevice :=
  {| _device := None;
     _connected := false;
     _device_info := None;
     _on_status_change := None |}.

(** [set_status_callback(callback)] *)
Definition set_status_callback (self : MSR605XDevice) (callback : bool -> exc unit)
    : MSR605XDevice :=
  {| _device := _device self;
     _connected := _connected self;
     _device_info := _device_info self;
     _on_status_change := Some callback |}.

Definition option_default {A : Type} (o : option A) (d : A) : A :=
  match o with
  | Some a => a
  | None => d
  end.

Section Connection.
Context {consts : Constants} {ids : UsbIds} {env : HidEnv} {open_env : HidOpenEnv}.

(** [enumerate_devices()] *)
Definition enumerate_devices (log : conn_log) : exc (list DeviceInfo) * conn_log :=
  let found := hid_enumerate log VENDOR_ID PRODUCT_ID in
  let log := EvEnumerate VENDOR_ID PRODUCT_ID :: log in
  (dev_list <- found ;;
   Ret (map (fun dev =>
               {| vendor_id := hi_vendor_id dev;
                  product_id := hi_product_id dev;
                  serial_number := option_default (hi_serial_number dev) ""%string;
                  manufacturer := option_default (hi_manufacturer_string dev) "Unknown"%string;
                  product := option_default (hi_product_string dev) "MSR605X"%string;
                  path := hi_path dev |}) dev_list),
   log).

(** What the [except] clause of [connect] does. *)
Definition connect_failed (self : MSR605XDevice) (e : exn) (log : conn_log)
    : (bool * string) * MSR605XDevice * conn_log :=
  ((false, ("Connection failed: " ++ exn_str e)%string),
   {| _device := None;
      _connected := false;
      _device_info := _device_info self;
      _on_status_change := _on_status_change self |},
   log).

(** [connect(path)]: the result pair, the object after the call, the log. *)
Definition connect (self : MSR605XDevice) (path : option bytes) (log : conn_log)
    : (bool * string) * MSR605XDevice * conn_log :=
  if _connected self then ((false, "Already connected"%string), self, log)
  else
    let log := EvHidDevice :: log in
    let self := {| _device := Some HidHandle;
                   _connected := _connected self;
                   _device_info := _device_info self;
                   _on_status_change := _on_status_change self |} in
    let '(opened, log) :=
      match path with
      | Some ((_ :: _) as p) => (hid_open_path log p, EvOpenPath p :: log)
      | _ => (hid_open log VENDOR_ID PRODUCT_ID, EvOpen VENDOR_ID PRODUCT_ID :: log)
      end in
    match opened with
    | Raise e => connect_failed self e log
    | Ret _ =>
        let set := hid_set_nonblocking log false in
        let log := EvSetNonblocking false :: log in
        match set with
        | Raise e => connect_failed self e log
        | Ret _ =>
            let self := {| _device := _device self;
                           _connected := true;
                           _device_info := _device_info self;
                           _on_status_change := _on_status_change self |} in
            match enumerate_devices log with
            | (Raise e, log) => connect_failed self e log
            | (Ret devices, log) =>
                let self :=
                  match devices with
                  | first :: _ =>
                      {| _device := _device self;
                         _connected := _connected self;
                         _device_info := Some first;
                         _on_status_change := _on_status_change self |}
                  | [] => self
                  end in
                match _notify_status_change self true [] with
                | (Raise e, events) =>
                    connect_failed self e (map EvTransport events ++ log)
                | (Ret _, events) =>
                    ((true, "Connected successfully"%string), self,
                     map EvTransport events ++ log)
                end
            end
        end
    end.

(** [send_and_receive(command, data, timeout_ms)] *)
Definition send_and_receive (fuel : nat) (self : MSR605XDevice)
    (command data : bytes) (timeout_ms : Z) (log : io_log)
    : option ((bool * bytes) * io_log) :=
  let '((success, _), log) := send_command self command data log in
  if negb success then Some ((false, []), log)
  else receive_response fuel self timeout_ms log.

(** The [while True:] loop of [flush]: it reads until a read brings nothing.
    [fuel] bounds the number of reads. *)
Fixpoint flush_loop (fuel : nat) (log : io_log) : option (exc unit * io_log) :=
  match fuel with
  | O => None
  | S fuel' =>
      let polled := hid_read log HID_REPORT_SIZE 50 in
      let log := EvRead HID_REPORT_SIZE 50 :: log in
      match polled with
      | Raise e => Some (Raise e, log)
      | Ret [] => Some (Ret tt, log)
      | Ret (_ :: _) => flush_loop fuel' log
      end
  end.

(** [flush()]: it returns nothing and swallows what the reads raise. *)
Definition flush (fuel : nat) (self : MSR605XDevice) (log : io_log) : option io_log :=
  if negb (is_connected self) then Some log
  else
    match flush_loop fuel log with
    | None => None
    | Some (_, log) => Some log
    end.

End Connection.

(** The transport holds a handle exactly when it is flagged connected. *)
Definition coherent (self : MSR605XDevice) : Prop :=
  _connected self = true <-> _device self <> None.

(** The calls a receive or a flush may make: clock readings, polls, sleeps. *)
Definition is_poll_event (e : io_event) : Prop :=
  match e with
  | EvTime | EvRead _ _ | EvSleep _ => True
  | _ => False
  end.

(** The log after [k] more polls of [flush]. *)
Fixpoint flush_polls {consts : Constants} (k : nat) (log : io_log) : io_log :=
  match k with
  | O => log
  | S k' => EvRead HID_REPORT_SIZE 50 :: flush_polls k' log
  end.

(** Text made of upper-case letters; of upper-case letters and digits. *)
Definition upper_letters (t : str) : Prop := Forall (fun c => (65 <= c <= 90)%N) t.
Definition upper_alnums (t : str) : Prop := Forall upper_alnum t.

(** A sample environment for [connect]: every call goes through and one
    device is listed. *)
Definition sample_ids : UsbIds := {| VENDOR_ID := 2049; PRODUCT_ID := 3 |}.

Definition sample_open_env : HidOpenEnv :=
  {| hid_open_path := fun _ _ => Ret tt;
     hid_open := fun _ _ _ => Ret tt;
     hid_set_nonblocking := fun _ _ => Ret tt;
     hid_enumerate := fun _ v p =>
       Ret [{| hi_vendor_id := v; hi_product_id := p;
               hi_serial_number := None;
               hi_manufacturer_string := None;
               hi_product_string := Some "MSR605X"%string;
               hi_path := [x31] |}] |}.

(** What a match tells about the text of the group: it is a stretch of the
    subject, made of characters of the class of a group item, as many as the
    count of the item allows. *)
Definition group_text_ok (its : list regex_item) (s v : str) : Prop :=
  exists it pre post,
    In it its /\ item_group it = true /\ s = pre ++ v ++ post /\
    Forall (fun c => class_matches (item_class it) c = true) v /\
    (min_count (item_count it) <= List.length v)%nat /\
    (forall m, max_count (item_count it) = Some m -> (List.length v <= m)%nat).

(* ===================================================================== *)
(** ** Lemmas on the primitives *)
(* ===================================================================== *)

Lemma byte_eqb_refl (a : byte) : Byte.eqb a a = true.
Proof. now apply Byte.byte_dec_lb. Qed.

Lemma byte_eqb_neq (a b : byte) : a <> b -> Byte.eqb a b = false.
Proof.
  intros Hne. destruct (Byte.eqb a b) eqn:E; [|reflexivity].
  apply Byte.byte_dec_bl in E. contradiction.
Qed.

Lemma len_nonneg {A : Type} (l : list A) : 0 <= len l.
Proof. unfold len. lia. Qed.

Lemma len_app {A : Type} (l1 l2 : list A) : len (l1 ++ l2) = len l1 + len l2.
Proof. unfold len. rewrite length_app. lia. Qed.

Lemma len_cons {A : Type} (a : A) (l : list A) : len (a :: l) = 1 + len l.
Proof. unfold len. cbn [List.length]. lia. Qed.

Lemma startswith_length (s sub : bytes) :
  startswith s sub = true -> (List.length sub <= List.length s)%nat.
Proof.
  revert s. induction sub as [|a sub IH]; intros s H; simpl in *; [lia|].
  destruct s as [|b s]; [discriminate|].
  apply andb_true_iff in H as [_ H]. apply IH in H. simpl. lia.
Qed.

Lemma adjust_index_nonneg (i n : Z) : 0 <= i -> adjust_index i n = i.
Proof. intros H. unfold adjust_index. destruct (Z.ltb_spec i 0); lia. Qed.

(** [find_from] returns the first index at which [sub] matches, if any. *)
Lemma find_from_spec (sub s : bytes) (i : Z) :
  (find_from sub s i = -1 /\
   forall k, (k <= List.length s)%nat -> startswith (skipn k s) sub = false)
  \/ (exists k, (k <= List.length s)%nat /\ find_from sub s i = i + Z.of_nat k /\
        startswith (skipn k s) sub = true /\
        forall j, (j < k)%nat -> startswith (skipn j s) sub = false).
Proof.
  revert i. induction s as [|b s IH]; intros i.
  - simpl. destruct sub as [|a sub]; simpl.
    + right. exists 0%nat. split; [lia|]. split; [lia|]. split; [reflexivity|].
      intros j Hj. lia.
    + left. split; [reflexivity|]. intros k _. destruct k; reflexivity.
  - cbn [find_from]. destruct (startswith (b :: s) sub) eqn:E.
    + right. exists 0%nat. split; [simpl; lia|]. split; [lia|]. split; [exact E|].
      intros j Hj. lia.
    + destruct (IH (i + 1)) as [[Hn Ha]|[k [Hk [Hf [Hm Hl]]]]].
      * left. split; [exact Hn|]. intros k Hk. destruct k; [exact E|].
        simpl. apply Ha. simpl in Hk. lia.
      * right. exists (S k). split; [simpl; lia|]. split; [rewrite Hf; lia|].
        split; [exact Hm|].
        intros j Hj. destruct j; [exact E|]. simpl. apply Hl. lia.
Qed.

Lemma bytes_find_from (s sub : bytes) (start : Z) :
  0 <= start <= len s ->
  bytes_find s sub start = find_from sub (skipn (Z.to_nat start) s) start.
Proof.
  intros H. unfold bytes_find. rewrite adjust_index_nonneg by lia.
  destruct (Z.ltb_spec (len s) start); [lia|reflexivity].
Qed.

Lemma bytes_find_range (s sub : bytes) (start : Z) :
  0 <= start ->
  bytes_find s sub start = -1
  \/ (start <= bytes_find s sub start /\
      bytes_find s sub start + len sub <= len s).
Proof.
  intros H0. unfold bytes_find. rewrite adjust_index_nonneg by lia.
  destruct (Z.ltb_spec (len s) start) as [|Hle]; [now left|].
  destruct (find_from_spec sub (skipn (Z.to_nat start) s) start)
    as [[Hn _]|[k [Hk [Hf [Hm _]]]]]; [now left|right].
  rewrite Hf. apply startswith_length in Hm.
  rewrite length_skipn in Hk. repeat rewrite length_skipn in Hm. unfold len in *. lia.
Qed.

Lemma bytes_find_first (s sub : bytes) (start : Z) :
  0 <= start -> bytes_find s sub start <> -1 ->
  first_at s sub start (bytes_find s sub start).
Proof.
  intros H0 Hne. unfold first_at, occurs_at, bytes_find in *.
  rewrite adjust_index_nonneg in * by lia.
  destruct (Z.ltb_spec (len s) start) as [|Hle]; [congruence|].
  destruct (find_from_spec sub (skipn (Z.to_nat start) s) start)
    as [[Hn _]|[k [Hk [Hf [Hm Hl]]]]]; [congruence|].
  rewrite Hf. rewrite length_skipn in Hk. unfold len in *.
  rewrite skipn_skipn in Hm.
  split; [lia|]. split.
  - split; [lia|]. replace (Z.to_nat (start + Z.of_nat k)) with (k + Z.to_nat start)%nat by lia.
    exact Hm.
  - intros j Hj [_ Hocc].
    specialize (Hl (Z.to_nat (j - start))). rewrite skipn_skipn in Hl.
    replace (Z.to_nat (j - start) + Z.to_nat start)%nat with (Z.to_nat j) in Hl by lia.
    rewrite Hl in Hocc by lia. discriminate.
Qed.

Lemma bytes_find_absent (s sub : bytes) (start : Z) :
  0 <= start -> bytes_find s sub start = -1 -> absent_from s sub start.
Proof.
  intros H0 Hn j Hj [Hr Hocc]. unfold bytes_find in Hn.
  rewrite adjust_index_nonneg in Hn by lia.
  destruct (Z.ltb_spec (len s) start) as [|Hle]; [lia|].
  destruct (find_from_spec sub (skipn (Z.to_nat start) s) start)
    as [[_ Ha]|[k [_ [Hf _]]]]; [|lia].
  specialize (Ha (Z.to_nat (j - start))). rewrite skipn_skipn in Ha.
  replace (Z.to_nat (j - start) + Z.to_nat start)%nat with (Z.to_nat j) in Ha by lia.
  rewrite Ha in Hocc; [discriminate|]. rewrite length_skipn. unfold len in *. lia.
Qed.

Lemma slice_inside {A : Type} (s : list A) (a b : Z) :
  0 <= a -> a <= b <= len s ->
  slice s a b = firstn (Z.to_nat (b - a)) (skipn (Z.to_nat a) s).
Proof.
  intros Ha Hb. unfold slice. rewrite !adjust_index_nonneg by lia.
  rewrite !Z.min_l by lia. reflexivity.
Qed.

(* ===================================================================== *)
(** ** The decoders in closed form *)
(* ===================================================================== *)

Section DecoderFacts.
Context {consts : Constants}.

Lemma start_marker_123 (n : Z) :
  n = 1 \/ n = 2 \/ n = 3 ->
  exists b b', bytes_of_ints [27; n] = Ret [x1b; b] /\
               bytes_of_ints [27; n + 1] = Ret [x1b; b'].
Proof.
  intros [-> | [-> | ->]]; do 2 eexists; split; reflexivity.
Qed.

Lemma extract_track_eq (self : TrackParser) (response : bytes) (n : Z)
    (raw : bool) (m m' : bytes) :
  bytes_of_ints [27; n] = Ret m -> len m = 2 ->
  bytes_of_ints [27; n + 1] = Ret m' ->
  _extract_track self response n raw
  = Ret (option_map (if raw then raw_track n else iso_track self n)
           (track_segment response n)).
Proof.
  intros Hm Hlen Hm'.
  unfold _extract_track, track_segment, segment_end, start_marker.
  rewrite Hm, Hm'. cbn [bind]. rewrite Hlen.
  destruct (bytes_find response m 0 =? -1); [reflexivity|].
  destruct (bytes_find response [x1c] (bytes_find response m 0 + 2) =? -1);
    destruct raw; reflexivity.
Qed.

Lemma extract_track_123 (self : TrackParser) (response : bytes) (n : Z) (raw : bool) :
  n = 1 \/ n = 2 \/ n = 3 ->
  _extract_track self response n raw
  = Ret (option_map (if raw then raw_track n else iso_track self n)
           (track_segment response n)).
Proof.
  intros Hn. destruct (start_marker_123 n Hn) as [b [b' [Hm Hm']]].
  now apply extract_track_eq with (m := [x1b; b]) (m' := [x1b; b']).
Qed.

Lemma parse_iso_response_eq (self : TrackParser) (response : bytes) :
  parse_iso_response self response = Ret (found_tracks (iso_track self) response).
Proof.
  unfold parse_iso_response, collect_tracks, found_tracks. cbn [fold_left flat_map].
  rewrite !extract_track_123 by tauto.
  destruct (track_segment response 1), (track_segment response 2),
    (track_segment response 3); reflexivity.
Qed.

Lemma parse_raw_response_eq (self : TrackParser) (response : bytes) :
  parse_raw_response self response = Ret (found_tracks raw_track response).
Proof.
  unfold parse_raw_response, collect_tracks, found_tracks. cbn [fold_left flat_map].
  rewrite !extract_track_123 by tauto.
  destruct (track_segment response 1), (track_segment response 2),
    (track_segment response 3); reflexivity.
Qed.

Lemma track_segment_None (s : bytes) (n : Z) :
  track_segment s n = None <-> bytes_find s (start_marker n) 0 = -1.
Proof.
  unfold track_segment. destruct (Z.eqb_spec (bytes_find s (start_marker n) 0) (-1)).
  - tauto.
  - split; [discriminate|contradiction].
Qed.

Lemma track_segment_Some (s : bytes) (n : Z) :
  bytes_find s (start_marker n) 0 <> -1 -> exists seg, track_segment s n = Some seg.
Proof.
  intros H. destruct (track_segment s n) eqn:E; [eauto|].
  apply track_segment_None in E. contradiction.
Qed.

Lemma found_tracks_numbers (entry : Z -> bytes -> TrackData) (s : bytes) :
  (forall n seg, track_number (entry n seg) = n) ->
  exists ns, map track_number (found_tracks entry s) = ns /\
    (ns = [] \/ ns = [1] \/ ns = [2] \/ ns = [3] \/ ns = [1; 2] \/ ns = [1; 3]
     \/ ns = [2; 3] \/ ns = [1; 2; 3]).
Proof.
  intros He. eexists. split; [reflexivity|]. unfold found_tracks. cbn [flat_map].
  destruct (track_segment s 1), (track_segment s 2), (track_segment s 3);
    cbn [app map]; rewrite ?He; tauto.
Qed.

Lemma found_tracks_omits (entry : Z -> bytes -> TrackData) (s : bytes) (n : Z) :
  (forall k seg, track_number (entry k seg) = k) ->
  track_segment s n = None ->
  forall t, In t (found_tracks entry s) -> track_number t <> n.
Proof.
  intros He Hn t Hin. unfold found_tracks in Hin.
  apply in_flat_map in Hin as [k [Hk Ht]].
  destruct (track_segment s k) eqn:Ek; [|contradiction].
  destruct Ht as [<-|[]]. rewrite He. intros ->. congruence.
Qed.

Lemma iso_track_number (self : TrackParser) (n : Z) (seg : bytes) :
  track_number (iso_track self n seg) = n.
Proof. reflexivity. Qed.

Lemma raw_track_number (n : Z) (seg : bytes) : track_number (raw_track n seg) = n.
Proof. reflexivity. Qed.

Lemma iso_track_empty (self : TrackParser) (n : Z) (seg : bytes) :
  seg = [] ->
  is_valid (iso_track self n seg) = false /\
  error_message (iso_track self n seg) = Some "Invalid characters in track data"%string.
Proof. intros ->. split; reflexivity. Qed.

Lemma raw_track_empty (n : Z) (seg : bytes) :
  seg = [] -> is_valid (raw_track n seg) = false.
Proof. intros ->. reflexivity. Qed.

Lemma segment_end_priority (s : bytes) (n ds : Z) :
  0 <= ds <= len s ->
  ds <= segment_end s n ds <= len s /\ ends_by_priority s n ds (segment_end s n ds).
Proof.
  intros Hds. unfold segment_end, ends_by_priority.
  destruct (Z.eqb_spec (bytes_find s [x1c] ds) (-1)) as [Hfs|Hfs].
  - pose proof (bytes_find_absent s [x1c] ds (proj1 Hds) Hfs) as Afs.
    destruct (Z.eqb_spec (bytes_find s (start_marker (n + 1)) ds) (-1)) as [Hnx|Hnx];
      cbn [negb].
    + pose proof (bytes_find_absent s _ ds (proj1 Hds) Hnx) as Anx.
      destruct (Z.eqb_spec (bytes_find s [x1b; x30] ds) (-1)) as [Hst|Hst]; cbn [negb].
      * pose proof (bytes_find_absent s _ ds (proj1 Hds) Hst) as Ast.
        split; [lia|]. right. split; [exact Afs|]. right. split; [exact Anx|].
        right. split; [exact Ast|reflexivity].
      * pose proof (bytes_find_first s _ ds (proj1 Hds) Hst) as Fst.
        split; [|right; split; [exact Afs|]; right; split; [exact Anx|]; now left].
        destruct Fst as [? [[? _] _]]. lia.
    + pose proof (bytes_find_first s _ ds (proj1 Hds) Hnx) as Fnx.
      split; [|right; split; [exact Afs|]; now left].
      destruct Fnx as [? [[? _] _]]. lia.
  - pose proof (bytes_find_first s _ ds (proj1 Hds) Hfs) as Ffs.
    split; [|now left]. destruct Ffs as [? [[? _] _]]. lia.
Qed.

Lemma start_marker_len (n : Z) : n = 1 \/ n = 2 \/ n = 3 -> len (start_marker n) = 2.
Proof. intros [-> | [-> | ->]]; reflexivity. Qed.

End DecoderFacts.

(* ===================================================================== *)
(** ** Properties of the response decoders *)
(* ===================================================================== *)

Section DecoderProperties.
Context {consts : Constants}.

(** C4, as the code has it. For a track 1-3 whose start marker is present,
    the extracted segment runs from just after the first start marker to an
    end chosen by priority, not by distance: the first field separator at or
    after the data start when there is one; otherwise the first marker
    [ESC (trackNum + 1)] (for track 3 the bytes [ESC 0x04]); otherwise the
    first status marker [ESC '0']; otherwise the end of the buffer. *)
Theorem C4_segment_end_by_priority (self : TrackParser) (response : bytes)
    (n : Z) (raw : bool) :
  n = 1 \/ n = 2 \/ n = 3 ->
  bytes_find response (start_marker n) 0 <> -1 ->
  exists t e,
    _extract_track self response n raw = Ret (Some t) /\
    let data_start := bytes_find response (start_marker n) 0 + 2 in
    raw_data t = slice response data_start e /\
    raw_data t = firstn (Z.to_nat (e - data_start))
                   (skipn (Z.to_nat data_start) response) /\
    data_start <= e <= len response /\
    ends_by_priority response n data_start e.
Proof.
  intros Hn Hfound.
  destruct (bytes_find_range response (start_marker n) 0 ltac:(lia)) as [|[H0 Hle]];
    [contradiction|].
  rewrite (start_marker_len n Hn) in Hle.
  set (ds := bytes_find response (start_marker n) 0 + 2) in *.
  assert (Hds : 0 <= ds <= len response) by (unfold ds; lia).
  destruct (segment_end_priority response n ds Hds) as [Hrange Hprio].
  rewrite (extract_track_123 self response n raw Hn).
  unfold track_segment. destruct (Z.eqb_spec (bytes_find response (start_marker n) 0) (-1));
    [contradiction|].
  fold ds. cbn [option_map].
  eexists _, (segment_end response n ds). split; [reflexivity|]. cbv zeta.
  assert (Hraw : raw_data ((if raw then raw_track n else iso_track self n)
                             (slice response ds (segment_end response n ds)))
                 = slice response ds (segment_end response n ds))
    by (destruct raw; reflexivity).
  rewrite Hraw. split; [reflexivity|]. split; [|split; assumption].
  apply slice_inside; lia.
Qed.

(** C7. On every byte string both decoders return a list of tracks, they do
    not raise; a track whose start marker is absent from the buffer has no
    entry in the list. *)
Theorem C7_decoders_never_raise (self : TrackParser) (response : bytes) :
  exists iso_tracks raw_tracks,
    parse_iso_response self response = Ret iso_tracks /\
    parse_raw_response self response = Ret raw_tracks /\
    forall n, n = 1 \/ n = 2 \/ n = 3 ->
      bytes_find response (start_marker n) 0 = -1 ->
      (forall t, In t iso_tracks -> track_number t <> n) /\
      (forall t, In t raw_tracks -> track_number t <> n).
Proof.
  exists (found_tracks (iso_track self) response), (found_tracks raw_track response).
  split; [apply parse_iso_response_eq|]. split; [apply parse_raw_response_eq|].
  intros n _ Habsent. apply track_segment_None in Habsent.
  split; apply found_tracks_omits; auto.
Qed.

(** C10. A list returned by a decoder holds at most one entry per track
    number, every track number is 1, 2 or 3, and the track numbers increase
    strictly along the list. *)
Theorem C10_track_numbers_increase (self : TrackParser) (response : bytes)
    (tracks : list TrackData) :
  parse_iso_response self response = Ret tracks
  \/ parse_raw_response self response = Ret tracks ->
  StronglySorted Z.lt (map track_number tracks) /\
  Forall (fun t => In (track_number t) [1; 2; 3]) tracks /\
  NoDup (map track_number tracks).
Proof.
  intros H.
  assert (Hns : exists ns, map track_number tracks = ns /\
            (ns = [] \/ ns = [1] \/ ns = [2] \/ ns = [3] \/ ns = [1; 2]
             \/ ns = [1; 3] \/ ns = [2; 3] \/ ns = [1; 2; 3])).
  { destruct H as [H|H].
    - rewrite parse_iso_response_eq in H. injection H as <-.
      apply found_tracks_numbers, iso_track_number.
    - rewrite parse_raw_response_eq in H. injection H as <-.
      apply found_tracks_numbers, raw_track_number. }
  destruct Hns as [ns [Hmap Hcases]].
  assert (Hin : forall x, In x ns -> In x [1; 2; 3]).
  { intros x Hx.
    destruct Hcases as [->|[->|[->|[->|[->|[->|[->| ->]]]]]]]; simpl in *; tauto. }
  split; [|split].
  - rewrite Hmap.
    destruct Hcases as [->|[->|[->|[->|[->|[->|[->| ->]]]]]]];
      repeat (constructor; try lia).
  - apply Forall_forall. intros t Ht. apply Hin. rewrite <- Hmap. now apply in_map.
  - rewrite Hmap.
    destruct Hcases as [->|[->|[->|[->|[->|[->|[->| ->]]]]]]];
      repeat (constructor; simpl; try (intros Hc; intuition lia)).
Qed.

End DecoderProperties.

Lemma C4_segment_end_by_priority_witness :
  exists t e,
    _extract_track (consts := sample_constants) iso_parser [x1b; x01; x41; x1b; x02; x42; x1c] 1 true
    = Ret (Some t) /\
    raw_data t = slice [x1b; x01; x41; x1b; x02; x42; x1c] 2 e /\
    ends_by_priority [x1b; x01; x41; x1b; x02; x42; x1c] 1 2 e.
Proof.
  destruct (C4_segment_end_by_priority (consts := sample_constants) iso_parser
              [x1b; x01; x41; x1b; x02; x42; x1c] 1 true)
    as [t [e [H1 [H2 [_ [_ H3]]]]]].
  - left. reflexivity.
  - vm_compute. discriminate.
  - exists t, e. repeat split; assumption.
Defined.

(** C4 as stated fails: in [ESC 1 'A' ESC 2 'B' FS] the segment of track 1
    runs to the field separator, past the start marker of track 2, which is
    the nearer of the two. *)
Lemma C4_nearest_end_counterexample :
  let response := [x1b; x01; x41; x1b; x02; x42; x1c] in
  exists t,
    _extract_track (consts := sample_constants) iso_parser response 1 true = Ret (Some t) /\
    raw_data t = [x41; x1b; x02; x42] /\
    slice response 2 (nearest_end response 1 2) = [x41] /\
    raw_data t <> slice response 2 (nearest_end response 1 2).
Proof.
  eexists. split; [vm_compute; reflexivity|]. cbn [raw_data].
  split; [reflexivity|]. split; [vm_compute; reflexivity|].
  vm_compute. discriminate.
Qed.

(** The extraction of one track does raise when it is given a track number
    no byte can hold; the decoders only ask for tracks 1, 2 and 3. *)
Example extract_track_raises :
  _extract_track (consts := sample_constants) iso_parser [] 256 false
  = Raise (ValueError "bytes must be in range(0, 256)").
Proof. reflexivity. Qed.

Lemma C10_track_numbers_increase_witness :
  exists tracks,
    parse_iso_response (consts := sample_constants) iso_parser [x1b; x03; x31; x1c; x1b; x01; x41] = Ret tracks /\
    map track_number tracks = [1; 3] /\
    StronglySorted Z.lt (map track_number tracks).
Proof.
  eexists. split; [vm_compute; reflexivity|]. split; [reflexivity|].
  apply (C10_track_numbers_increase (consts := sample_constants) iso_parser [x1b; x03; x31; x1c; x1b; x01; x41]).
  left. vm_compute. reflexivity.
Defined.

(* ===================================================================== *)
(** ** The track validator *)
(* ===================================================================== *)

Lemma char_in_In (c : char) (s : str) : char_in c s = true <-> In c s.
Proof.
  unfold char_in. rewrite existsb_exists. split.
  - intros [x [Hx He]]. apply N.eqb_eq in He. now subst.
  - intros H. exists c. split; [exact H|apply N.eqb_refl].
Qed.

Lemma numeric_track_char_iff (c : char) :
  char_in c TRACK2_CHARSET || char_in c (str_of_string "%?;") = true
  <-> numeric_track_char c.
Proof.
  rewrite orb_true_iff, !char_in_In. unfold numeric_track_char.
  cbn [TRACK2_CHARSET str_of_string N_of_ascii N_of_digits In N.add N.mul].
  cbv [N_of_ascii N_of_digits N.add N.mul Pos.add Pos.mul Pos.succ].
  split.
  - intros [H|H]; [|tauto]. assert (Hc : (48 <= c <= 63)%N) by (intuition lia).
    destruct (N.le_gt_cases c 57); [left; lia|].
    right. left.
    assert (c = 58 \/ c = 59 \/ c = 60 \/ c = 61 \/ c = 62 \/ c = 63)%N by lia.
    intuition auto.
  - intros [H|[H|H]]; [| |tauto].
    + left.
      assert (c = 48 \/ c = 49 \/ c = 50 \/ c = 51 \/ c = 52 \/ c = 53 \/ c = 54
              \/ c = 55 \/ c = 56 \/ c = 57)%N by lia.
      intuition auto.
    + left. intuition auto.
Qed.

Lemma forallb_Forall_iff {A : Type} (f : A -> bool) (P : A -> Prop) (l : list A) :
  (forall a, f a = true <-> P a) -> (forallb f l = true <-> Forall P l).
Proof.
  intros Hf. rewrite forallb_forall, Forall_forall.
  split; intros H a Ha; apply Hf, H, Ha.
Qed.

Section ValidatorProperties.
Context {consts : Constants}.

(** C6. Empty text is not valid on any track. In ISO mode: text of track 1
    with a character above code 95 is not valid; non-empty text of track 1
    made of upper-case letters and digits, no longer than the maximum of
    track 1, is valid; and text of track 2 (of track 3) is valid exactly when
    it is not empty, no longer than the maximum of the track, and made of
    digits, of the characters ':;<=>?' and of the characters '%?;'. *)
Theorem C6_track_validation :
  (forall (self : TrackParser) (track_num : Z),
     _validate_track_data self [] track_num = false) /\
  (forall self : TrackParser, _data_format self = ISO ->
     (forall t, Exists (fun c => (95 < c)%N) t ->
        _validate_track_data self t 1 = false) /\
     (forall t, t <> [] -> Forall upper_alnum t -> len t <= TRACK_1_max_chars ->
        _validate_track_data self t 1 = true) /\
     (forall t, _validate_track_data self t 2 = true
        <-> t <> [] /\ len t <= TRACK_2_max_chars /\ Forall numeric_track_char t) /\
     (forall t, _validate_track_data self t 3 = true
        <-> t <> [] /\ len t <= TRACK_3_max_chars /\ Forall numeric_track_char t)).
Proof.
  split; [reflexivity|]. intros self Hiso. split; [|split; [|split]].
  - intros t Hex. unfold _validate_track_data. destruct t as [|c t]; [reflexivity|].
    cbn [specs_get Z.eqb Pos.eqb]. rewrite Hiso. cbn [DataFormat_eqb].
    destruct (_ <? _); [reflexivity|].
    destruct (forallb _ (c :: t)) eqn:E; [|reflexivity].
    rewrite forallb_forall in E. apply Exists_exists in Hex as [x [Hx Hgt]].
    specialize (E x Hx). apply andb_true_iff in E as [_ E].
    apply N.leb_le in E. lia.
  - intros t Hne Hall Hlen. unfold _validate_track_data.
    destruct t as [|c t]; [contradiction|].
    cbn [specs_get Z.eqb Pos.eqb]. rewrite Hiso. cbn [DataFormat_eqb].
    destruct (Z.ltb_spec TRACK_1_max_chars (len (c :: t))); [lia|].
    apply forallb_forall. intros x Hx. rewrite Forall_forall in Hall.
    specialize (Hall x Hx). unfold upper_alnum in Hall.
    apply andb_true_iff. split; apply N.leb_le; lia.
  - intros t. unfold _validate_track_data. destruct t as [|c t].
    + split; [discriminate|]. intros [H _]. contradiction.
    + cbn [specs_get Z.eqb Pos.eqb]. rewrite Hiso. cbn [DataFormat_eqb].
      destruct (Z.ltb_spec TRACK_2_max_chars (len (c :: t))).
      * split; [discriminate|]. intros [_ [H' _]]. lia.
      * rewrite (forallb_Forall_iff _ _ _ numeric_track_char_iff).
        split; [intros H'; repeat split; [discriminate|lia|exact H']|tauto].
  - intros t. unfold _validate_track_data. destruct t as [|c t].
    + split; [discriminate|]. intros [H _]. contradiction.
    + cbn [specs_get Z.eqb Pos.eqb]. rewrite Hiso. cbn [DataFormat_eqb].
      destruct (Z.ltb_spec TRACK_3_max_chars (len (c :: t))).
      * split; [discriminate|]. intros [_ [H' _]]. lia.
      * rewrite (forallb_Forall_iff _ _ _ numeric_track_char_iff).
        split; [intros H'; repeat split; [discriminate|lia|exact H']|tauto].
Qed.

End ValidatorProperties.

Lemma C6_track_validation_witness :
  _validate_track_data (consts := sample_constants) iso_parser
    (str_of_string "DOE1") 1 = true /\
  _validate_track_data (consts := sample_constants) iso_parser
    (str_of_string "doe") 1 = false /\
  _validate_track_data (consts := sample_constants) iso_parser
    (str_of_string ";4111=2512?") 2 = true.
Proof.
  destruct (C6_track_validation (consts := sample_constants)) as [_ H].
  destruct (H iso_parser eq_refl) as [Hhigh [Halnum [H2 _]]].
  split; [|split].
  - apply Halnum; [discriminate| |vm_compute; discriminate].
    repeat constructor; unfold upper_alnum; cbn; lia.
  - apply Hhigh. apply Exists_cons_hd. cbn. lia.
  - apply H2. split; [discriminate|]. split; [vm_compute; discriminate|].
    apply (forallb_Forall_iff _ _ _ numeric_track_char_iff). vm_compute. reflexivity.
Defined.

(* ===================================================================== *)
(** ** The write-frame encoders *)
(* ===================================================================== *)

Lemma encode_char_ascii (c : char) :
  (c < 128)%N -> exists b, encode_char c = Ret b /\ Byte.to_N b = c.
Proof.
  intros Hc. unfold encode_char. destruct (N.ltb_spec c 128); [|lia].
  destruct (Byte.of_N c) as [b|] eqn:E.
  - exists b. split; [reflexivity|]. now apply Byte.to_of_N.
  - apply Byte.of_N_None_iff in E. lia.
Qed.

Lemma encode_char_Ret (c : char) (b : byte) :
  encode_char c = Ret b -> (c < 128)%N /\ Byte.to_N b = c.
Proof.
  unfold encode_char. destruct (N.ltb_spec c 128); [|discriminate].
  destruct (Byte.of_N c) as [b'|] eqn:E; [|discriminate].
  intros [= <-]. split; [assumption|]. now apply Byte.to_of_N.
Qed.

Lemma encode_ascii_total (t : str) :
  is_ascii t -> exists p, encode_ascii t = Ret p /\ map Byte.to_N p = t.
Proof.
  induction 1 as [|c t Hc _ [p [IHe IHm]]].
  - exists []. split; reflexivity.
  - destruct (encode_char_ascii c Hc) as [b [Hb Hn]].
    exists (b :: p). cbn [encode_ascii]. rewrite Hb, IHe. cbn [bind map].
    split; [reflexivity|]. now rewrite Hn, IHm.
Qed.

Lemma encode_ascii_Ret (t : str) (p : bytes) :
  encode_ascii t = Ret p -> is_ascii t /\ map Byte.to_N p = t.
Proof.
  revert p. induction t as [|c t IH]; intros p H; cbn [encode_ascii] in H.
  - injection H as <-. split; [constructor|reflexivity].
  - destruct (encode_char c) as [b|] eqn:Eb; [|discriminate].
    destruct (encode_ascii t) as [q|] eqn:Eq; [|discriminate].
    cbn [bind] in H. injection H as <-.
    apply encode_char_Ret in Eb as [Hc Hb]. destruct (IH q eq_refl) as [Ha Hm].
    split; [now constructor|]. cbn [map]. now rewrite Hb, Hm.
Qed.


Lemma str_upper_ascii (f : char -> str) (t : str) :
  is_ascii t -> is_ascii (str_upper f t).
Proof.
  induction 1 as [|c t Hc _ IH]; [constructor|].
  unfold str_upper in *. cbn [flat_map]. unfold char_upper at 1.
  destruct (N.ltb_spec c 128); [|lia]. cbn [app]. constructor; [|exact IH].
  destruct ((97 <=? c) && (c <=? 122))%N; lia.
Qed.

Lemma build_raw_write_data_eq (self : TrackParser) (t1 t2 t3 : option bytes) :
  build_raw_write_data self t1 t2 t3
  = wire_frame (payload t1) (payload t2) (payload t3).
Proof.
  unfold build_raw_write_data, wire_frame, track_field.
  destruct t1 as [[|a1 t1]|], t2 as [[|a2 t2]|], t3 as [[|a3 t3]|];
    cbn [payload]; rewrite <- ?app_assoc; reflexivity.
Qed.

Section EncoderProperties.
Context {tables : CaseTables}.

Lemma build_iso_write_data_eq (self : TrackParser) (t1 t2 t3 : option str) :
  build_iso_write_data self t1 t2 t3
  = (p1 <- encode_ascii (str_upper upper_non_ascii (payload t1)) ;;
     p2 <- encode_ascii (payload t2) ;;
     p3 <- encode_ascii (payload t3) ;;
     Ret (wire_frame p1 p2 p3)).
Proof.
  unfold build_iso_write_data, wire_frame, track_field.
  assert (H1 : match t1 with
               | Some ((_ :: _) as t) =>
                   e <- encode_ascii (str_upper upper_non_ascii t) ;;
                   Ret (([x1b; x73] ++ [x1b; x01]) ++ e)
               | _ => Ret ([x1b; x73] ++ [x1b; x01])
               end
               = (p1 <- encode_ascii (str_upper upper_non_ascii (payload t1)) ;;
                  Ret (([x1b; x73] ++ [x1b; x01]) ++ p1))).
  { destruct t1 as [[|a t]|]; cbn [payload]; reflexivity. }
  rewrite H1. clear H1.
  destruct (encode_ascii (str_upper upper_non_ascii (payload t1))) as [p1|e1];
    [|reflexivity].
  cbn [bind].
  assert (H2 : forall (t : option str) (d : bytes),
             match t with
             | Some ((_ :: _) as t) => e <- encode_ascii t ;; Ret (d ++ e)
             | _ => Ret d
             end
             = (p <- encode_ascii (payload t) ;; Ret (d ++ p))).
  { intros [[|a t]|] d; cbn [payload encode_ascii bind]; rewrite ?app_nil_r; reflexivity. }
  rewrite H2.
  destruct (encode_ascii (payload t2)) as [p2|e2]; [|reflexivity]. cbn [bind].
  rewrite H2.
  destruct (encode_ascii (payload t3)) as [p3|e3]; [|reflexivity]. cbn [bind].
  rewrite <- ?app_assoc. reflexivity.
Qed.

Lemma encode_ascii_Raise (t : str) :
  (exists e, encode_ascii t = Raise e) <-> ~ is_ascii t.
Proof.
  split.
  - intros [e He] Ha. destruct (encode_ascii_total t Ha) as [p [Hp _]]. congruence.
  - intros Hn. destruct (encode_ascii t) as [p|e] eqn:E; [|eauto].
    apply encode_ascii_Ret in E as [Ha _]. contradiction.
Qed.

Lemma encode_ascii_error (t : str) (e : exn) :
  encode_ascii t = Raise e -> exists msg, e = UnicodeEncodeError msg.
Proof.
  induction t as [|c t IH]; cbn [encode_ascii]; [discriminate|].
  destruct (encode_char c) as [b|e'] eqn:Ec; cbn [bind].
  - destruct (encode_ascii t) as [q|e'']; cbn [bind]; [discriminate|].
    intros [= <-]. now apply IH.
  - intros [= <-]. unfold encode_char in Ec.
    destruct (c <? 128)%N; [destruct (Byte.of_N c)|]; try discriminate;
      injection Ec as <-; eauto.
Qed.

(** C5, as the code has it. Both encoders emit the wire grammar [ESC 's'],
    then for the tracks 1, 2, 3 in this order [ESC trackNum], the payload
    (empty for an omitted track) and [FS], then ['?' FS]: the three markers
    are there whichever tracks are populated. The RAW encoder does so for
    every payload and passes the bytes through. The ISO encoder writes the
    ASCII bytes of the text of tracks 2 and 3 and of the upper-cased text of
    track 1. It emits the frame when these three texts are ASCII, which they
    are when the texts given are; otherwise it raises [UnicodeEncodeError]
    and emits nothing. So a character outside ASCII makes it raise on tracks
    2 and 3, and on track 1 unless upper-casing turns it into ASCII. *)
Theorem C5_write_frame_grammar (self : TrackParser) :
  (forall t1 t2 t3 : option bytes,
     build_raw_write_data self t1 t2 t3
     = wire_frame (payload t1) (payload t2) (payload t3)) /\
  (forall t1 t2 t3 : option str,
     build_iso_write_data self t1 t2 t3
     = (p1 <- encode_ascii (str_upper upper_non_ascii (payload t1)) ;;
        p2 <- encode_ascii (payload t2) ;;
        p3 <- encode_ascii (payload t3) ;;
        Ret (wire_frame p1 p2 p3))) /\
  (forall t1 t2 t3 : option str,
     is_ascii (str_upper upper_non_ascii (payload t1)) ->
     is_ascii (payload t2) -> is_ascii (payload t3) ->
     exists p1 p2 p3,
       build_iso_write_data self t1 t2 t3 = Ret (wire_frame p1 p2 p3) /\
       map Byte.to_N p1 = str_upper upper_non_ascii (payload t1) /\
       map Byte.to_N p2 = payload t2 /\
       map Byte.to_N p3 = payload t3) /\
  (forall t : str, is_ascii t -> is_ascii (str_upper upper_non_ascii t)) /\
  (forall t1 t2 t3 : option str,
     (exists e, build_iso_write_data self t1 t2 t3 = Raise e)
     <-> ~ (is_ascii (str_upper upper_non_ascii (payload t1))
            /\ is_ascii (payload t2) /\ is_ascii (payload t3))) /\
  (forall (t1 t2 t3 : option str) (e : exn),
     build_iso_write_data self t1 t2 t3 = Raise e ->
     exists msg, e = UnicodeEncodeError msg).
Proof.
  split; [apply build_raw_write_data_eq|]. split; [apply build_iso_write_data_eq|].
  assert (Hframe : forall t1 t2 t3 : option str,
            is_ascii (str_upper upper_non_ascii (payload t1)) ->
            is_ascii (payload t2) -> is_ascii (payload t3) ->
            exists p1 p2 p3,
              build_iso_write_data self t1 t2 t3 = Ret (wire_frame p1 p2 p3) /\
              map Byte.to_N p1 = str_upper upper_non_ascii (payload t1) /\
              map Byte.to_N p2 = payload t2 /\
              map Byte.to_N p3 = payload t3).
  { intros t1 t2 t3 A1 A2 A3.
    destruct (encode_ascii_total _ A1) as [p1 [E1 M1]].
    destruct (encode_ascii_total _ A2) as [p2 [E2 M2]].
    destruct (encode_ascii_total _ A3) as [p3 [E3 M3]].
    exists p1, p2, p3. rewrite build_iso_write_data_eq, E1, E2, E3.
    cbn [bind]. repeat split; assumption. }
  split; [exact Hframe|]. split; [apply str_upper_ascii|]. split.
  - intros t1 t2 t3. split.
    + intros [e He] [A1 [A2 A3]].
      destruct (Hframe t1 t2 t3 A1 A2 A3) as [p1 [p2 [p3 [Hp _]]]]. congruence.
    + intros Hn. rewrite build_iso_write_data_eq.
      destruct (encode_ascii (str_upper upper_non_ascii (payload t1)))
        as [p1|e1] eqn:E1; [|cbn [bind]; eauto].
      destruct (encode_ascii (payload t2)) as [p2|e2] eqn:E2; [|cbn [bind]; eauto].
      destruct (encode_ascii (payload t3)) as [p3|e3] eqn:E3; [|cbn [bind]; eauto].
      exfalso. apply Hn. apply encode_ascii_Ret in E1, E2, E3. tauto.
  - intros t1 t2 t3 e. rewrite build_iso_write_data_eq.
    destruct (encode_ascii (str_upper upper_non_ascii (payload t1)))
      as [p1|e1] eqn:E1; cbn [bind];
      [|intros [= <-]; now apply encode_ascii_error in E1].
    destruct (encode_ascii (payload t2)) as [p2|e2] eqn:E2; cbn [bind];
      [|intros [= <-]; now apply encode_ascii_error in E2].
    destruct (encode_ascii (payload t3)) as [p3|e3] eqn:E3; cbn [bind];
      [discriminate|intros [= <-]; now apply encode_ascii_error in E3].
Qed.

End EncoderProperties.

Lemma C5_write_frame_grammar_witness :
  build_iso_write_data (tables := sample_tables) iso_parser
    (Some [115; 116; 114; 97; 223; 101]%N)
    (Some (str_of_string ";4111111111111111=2512?")) None
  = Ret ([x1b; x73; x1b; x01]
         ++ [x53; x54; x52; x41; x53; x53; x45]
         ++ [x1c; x1b; x02]
         ++ [x3b; x34; x31; x31; x31; x31; x31; x31; x31; x31; x31; x31; x31;
             x31; x31; x31; x31; x3d; x32; x35; x31; x32; x3f]
         ++ [x1c; x1b; x03; x1c; x3f; x1c]).
Proof.
  destruct (C5_write_frame_grammar (tables := sample_tables) iso_parser)
    as [_ [_ [H _]]].
  destruct (H (Some [115; 116; 114; 97; 223; 101]%N)
              (Some (str_of_string ";4111111111111111=2512?")) None)
    as [p1 [p2 [p3 [Hb _]]]].
  - apply Forall_forall. intros c Hc. vm_compute in Hc.
    repeat (destruct Hc as [<-|Hc]; [reflexivity|]). destruct Hc.
  - apply Forall_forall. intros c Hc. vm_compute in Hc.
    repeat (destruct Hc as [<-|Hc]; [reflexivity|]). destruct Hc.
  - constructor.
  - vm_compute. reflexivity.
Defined.

(** C5 as stated fails in ISO mode: the one-letter text U+00E9, an e with
    an acute accent (code point 233), on track 2 makes the encoder raise; it
    emits no frame. *)
Lemma C5_non_ascii_counterexample :
  build_iso_write_data (tables := sample_tables) iso_parser None (Some [233%N]) None
  = Raise (UnicodeEncodeError "ordinal not in range(128)").
Proof. reflexivity. Qed.

(* ===================================================================== *)
(** ** Decoding a write frame *)
(* ===================================================================== *)

Lemma find_from_skip (a : byte) (sub p rest : bytes) (i : Z) :
  Forall (fun b => b <> a) p ->
  find_from (a :: sub) (p ++ rest) i = find_from (a :: sub) rest (i + len p).
Proof.
  intros H. revert i. induction H as [|b p Hb _ IH]; intros i.
  - cbn [app]. f_equal. unfold len. cbn [List.length]. lia.
  - cbn [app find_from startswith]. rewrite (byte_eqb_neq a b) by congruence.
    cbn [andb]. rewrite IH, len_cons. f_equal. lia.
Qed.

Lemma startswith_nil (s : bytes) : startswith s [] = true.
Proof. destruct s; reflexivity. Qed.

Ltac len_lia :=
  unfold len in *;
  repeat (progress cbn [List.length] in * || rewrite length_app in * );
  lia.

Lemma skipn_len_app {A : Type} (pre rest : list A) (n : Z) :
  n = len pre -> skipn (Z.to_nat n) (pre ++ rest) = rest.
Proof.
  intros ->. unfold len. rewrite Nat2Z.id, skipn_app, skipn_all, Nat.sub_diag.
  reflexivity.
Qed.

Lemma firstn_len_app {A : Type} (p rest : list A) (n : Z) :
  n = len p -> firstn (Z.to_nat n) (p ++ rest) = p.
Proof.
  intros ->. unfold len. rewrite Nat2Z.id, firstn_app, firstn_all, Nat.sub_diag.
  cbn [firstn]. apply app_nil_r.
Qed.

(** A field [marker payload FS] whose marker is first found where the field
    starts, and whose payload holds no field separator, is cut out whole. *)
Lemma track_segment_field (pre p post : bytes) (n : Z) (b : byte) :
  start_marker n = [x1b; b] ->
  bytes_find (pre ++ [x1b; b] ++ p ++ x1c :: post) [x1b; b] 0 = len pre ->
  Forall (fun c => c <> x1c) p ->
  track_segment (pre ++ [x1b; b] ++ p ++ x1c :: post) n = Some p.
Proof.
  intros Hm Hfind Hp. unfold track_segment. rewrite Hm, Hfind.
  pose proof (len_nonneg pre) as Hpre.
  destruct (Z.eqb_spec (len pre) (-1)); [lia|].
  set (s := pre ++ [x1b; b] ++ p ++ x1c :: post).
  assert (Hs : s = (pre ++ [x1b; b]) ++ p ++ x1c :: post)
    by (unfold s; now rewrite <- app_assoc).
  assert (Hlen : len s = len pre + 2 + len p + 1 + len post).
  { unfold s. len_lia. }
  pose proof (len_nonneg p) as Hlp. pose proof (len_nonneg post) as Hlpost.
  assert (Hskip : skipn (Z.to_nat (len pre + 2)) s = p ++ x1c :: post).
  { rewrite Hs. apply skipn_len_app. len_lia. }
  assert (Hfs : bytes_find s [x1c] (len pre + 2) = len pre + 2 + len p).
  { rewrite bytes_find_from by lia. rewrite Hskip.
    rewrite find_from_skip by exact Hp.
    cbn [find_from startswith]. now rewrite byte_eqb_refl. }
  unfold segment_end. rewrite Hfs.
  destruct (Z.eqb_spec (len pre + 2 + len p) (-1)); [lia|].
  rewrite slice_inside by lia. rewrite Hskip. apply f_equal. apply firstn_len_app. lia.
Qed.

Lemma clean_payload_no_esc (p : bytes) :
  clean_payload p -> Forall (fun b => b <> x1b) p.
Proof. apply Forall_impl. tauto. Qed.

Lemma clean_payload_no_fs (p : bytes) :
  clean_payload p -> Forall (fun b => b <> x1c) p.
Proof. apply Forall_impl. tauto. Qed.

Lemma wire_frame_segment_1 (p1 p2 p3 : bytes) :
  clean_payload p1 -> track_segment (wire_frame p1 p2 p3) 1 = Some p1.
Proof.
  intros C1.
  replace (wire_frame p1 p2 p3)
    with ([x1b; x73] ++ [x1b; x01] ++ p1 ++ x1c ::
          (track_field x02 p2 ++ track_field x03 p3 ++ [x3f; x1c]))
    by (unfold wire_frame, track_field; rewrite <- ?app_assoc; reflexivity).
  apply track_segment_field; [reflexivity| |now apply clean_payload_no_fs].
  rewrite bytes_find_from by (split; [lia|apply len_nonneg]).
  cbn. reflexivity.
Qed.

Lemma wire_frame_segment_2 (p1 p2 p3 : bytes) :
  clean_payload p1 -> clean_payload p2 ->
  track_segment (wire_frame p1 p2 p3) 2 = Some p2.
Proof.
  intros C1 C2.
  replace (wire_frame p1 p2 p3)
    with (([x1b; x73; x1b; x01] ++ p1 ++ [x1c]) ++ [x1b; x02] ++ p2 ++ x1c ::
          (track_field x03 p3 ++ [x3f; x1c]))
    by (unfold wire_frame, track_field; rewrite <- ?app_assoc; reflexivity).
  apply track_segment_field; [reflexivity| |now apply clean_payload_no_fs].
  rewrite bytes_find_from by (split; [lia|apply len_nonneg]).
  rewrite <- ?app_assoc.
  cbn -[Z.add len]. rewrite find_from_skip by now apply clean_payload_no_esc.
  cbn -[Z.add len]. len_lia.
Qed.

Lemma wire_frame_segment_3 (p1 p2 p3 : bytes) :
  clean_payload p1 -> clean_payload p2 -> clean_payload p3 ->
  track_segment (wire_frame p1 p2 p3) 3 = Some p3.
Proof.
  intros C1 C2 C3.
  replace (wire_frame p1 p2 p3)
    with (([x1b; x73; x1b; x01] ++ p1 ++ [x1c; x1b; x02] ++ p2 ++ [x1c])
          ++ [x1b; x03] ++ p3 ++ x1c :: [x3f; x1c])
    by (unfold wire_frame, track_field; rewrite <- ?app_assoc; reflexivity).
  apply track_segment_field; [reflexivity| |now apply clean_payload_no_fs].
  rewrite bytes_find_from by (split; [lia|apply len_nonneg]).
  rewrite <- ?app_assoc.
  cbn. rewrite find_from_skip by now apply clean_payload_no_esc.
  cbn -[Z.add len]. rewrite find_from_skip by now apply clean_payload_no_esc.
  cbn -[Z.add len]. len_lia.
Qed.

Lemma bytes_find_occurs (s sub : bytes) (start j : Z) :
  0 <= start <= j -> occurs_at s sub j -> bytes_find s sub start <> -1.
Proof.
  intros Hj Hocc Hn. apply bytes_find_absent in Hn; [|lia].
  exact (Hn j (proj2 Hj) Hocc).
Qed.

Lemma occurs_at_app (pre sub rest : bytes) :
  occurs_at (pre ++ sub ++ rest) sub (len pre).
Proof.
  split.
  - rewrite len_app. pose proof (len_nonneg pre). pose proof (len_nonneg (sub ++ rest)). lia.
  - rewrite skipn_len_app by reflexivity. clear pre.
    induction sub as [|a sub IH]; [reflexivity|].
    cbn [app startswith]. now rewrite byte_eqb_refl, IH.
Qed.

(** Every frame of the wire grammar holds the three start markers. *)
Lemma wire_frame_has_markers (p1 p2 p3 : bytes) (n : Z) :
  n = 1 \/ n = 2 \/ n = 3 ->
  bytes_find (wire_frame p1 p2 p3) (start_marker n) 0 <> -1.
Proof.
  intros [-> | [-> | ->]].
  - replace (wire_frame p1 p2 p3)
      with ([x1b; x73] ++ [x1b; x01]
            ++ (p1 ++ [x1c] ++ track_field x02 p2 ++ track_field x03 p3 ++ [x3f; x1c]))
      by (unfold wire_frame, track_field; rewrite <- ?app_assoc; reflexivity).
    apply bytes_find_occurs with (j := len [x1b; x73]);
      [split; [lia|apply len_nonneg]|apply occurs_at_app].
  - replace (wire_frame p1 p2 p3)
      with (([x1b; x73; x1b; x01] ++ p1 ++ [x1c]) ++ [x1b; x02]
            ++ (p2 ++ [x1c] ++ track_field x03 p3 ++ [x3f; x1c]))
      by (unfold wire_frame, track_field; rewrite <- ?app_assoc; reflexivity).
    apply bytes_find_occurs with (j := len ([x1b; x73; x1b; x01] ++ p1 ++ [x1c]));
      [split; [lia|apply len_nonneg]|apply occurs_at_app].
  - replace (wire_frame p1 p2 p3)
      with (([x1b; x73; x1b; x01] ++ p1 ++ [x1c; x1b; x02] ++ p2 ++ [x1c])
            ++ [x1b; x03] ++ (p3 ++ [x1c; x3f; x1c]))
      by (unfold wire_frame, track_field; rewrite <- ?app_assoc; reflexivity).
    apply bytes_find_occurs
      with (j := len ([x1b; x73; x1b; x01] ++ p1 ++ [x1c; x1b; x02] ++ p2 ++ [x1c]));
      [split; [lia|apply len_nonneg]|apply occurs_at_app].
Qed.

Lemma first_at_unique (s sub : bytes) (start i j : Z) :
  first_at s sub start i -> first_at s sub start j -> i = j.
Proof.
  intros [Hi [Oi Fi]] [Hj [Oj Fj]].
  destruct (Z.lt_trichotomy i j) as [Hlt|[Heq|Hgt]]; [|exact Heq|].
  - exfalso. apply (Fj i); [lia|exact Oi].
  - exfalso. apply (Fi j); [lia|exact Oj].
Qed.

Lemma first_at_not_absent (s sub : bytes) (start i : Z) :
  first_at s sub start i -> absent_from s sub start -> False.
Proof. intros [Hi [Oi _]] Ha. exact (Ha i Hi Oi). Qed.

Lemma ends_by_priority_unique (s : bytes) (n ds e e' : Z) :
  ends_by_priority s n ds e -> ends_by_priority s n ds e' -> e = e'.
Proof.
  unfold ends_by_priority.
  intros [F1|[A1 [F2|[A2 [F3|[A3 ->]]]]]] [G1|[B1 [G2|[B2 [G3|[B3 ->]]]]]];
    try reflexivity;
    try (eapply first_at_unique; eassumption);
    exfalso; eauto using first_at_not_absent.
Qed.

Lemma payload_between_unique (s : bytes) (n : Z) (p q : bytes) :
  payload_between s n p -> payload_between s n q -> p = q.
Proof.
  intros [i [e [Fi [Ei [_ ->]]]]] [j [e' [Fj [Ej [_ ->]]]]].
  pose proof (first_at_unique _ _ _ _ _ Fi Fj) as <-.
  now rewrite (ends_by_priority_unique _ _ _ _ _ Ei Ej).
Qed.

(** The segment the decoders cut out is the payload between the markers. *)
Lemma track_segment_payload (s : bytes) (n : Z) (seg : bytes) :
  n = 1 \/ n = 2 \/ n = 3 ->
  track_segment s n = Some seg -> payload_between s n seg.
Proof.
  intros Hn. unfold track_segment.
  destruct (Z.eqb_spec (bytes_find s (start_marker n) 0) (-1)) as [|Hfound];
    [discriminate|].
  intros [= <-].
  destruct (bytes_find_range s (start_marker n) 0 ltac:(lia)) as [|[H0 Hle]];
    [contradiction|].
  rewrite (start_marker_len n Hn) in Hle.
  set (i := bytes_find s (start_marker n) 0) in *.
  assert (Hds : 0 <= i + 2 <= len s) by lia.
  destruct (segment_end_priority s n (i + 2) Hds) as [Hrange Hprio].
  exists i, (segment_end s n (i + 2)).
  split; [apply bytes_find_first; [lia|exact Hfound]|].
  split; [exact Hprio|]. split; [exact Hrange|].
  apply slice_inside; lia.
Qed.

Lemma occurs_found (s sub : bytes) :
  (exists i, occurs_at s sub i) -> bytes_find s sub 0 <> -1.
Proof.
  intros [i Hi]. apply bytes_find_occurs with (j := i); [|exact Hi].
  destruct Hi as [Hr _]. lia.
Qed.

Section DecodedFrames.
Context {consts : Constants}.

(** C9. When the three start markers occur in the buffer, as they do in
    every frame of the wire grammar, both decoders return three entries, for
    the tracks 1, 2, 3, and the raw data of each entry is the payload between
    the markers of its track in the buffer: the bytes from just after the
    first start marker to the end of the segment. A track whose payload
    between its markers is empty has its entry all the same, not valid and,
    from the ISO decoder, with an error message. In a frame of the wire
    grammar whose payloads hold neither [ESC] nor [FS], the payload between
    the markers of a track is the payload the frame was made of, the empty
    one for an omitted track. *)
Theorem C9_three_markers_three_entries (self : TrackParser) :
  (forall response : bytes,
     (forall n, n = 1 \/ n = 2 \/ n = 3 ->
        exists i, occurs_at response (start_marker n) i) ->
     exists d1 d2 d3 r1 r2 r3,
       parse_iso_response self response = Ret [d1; d2; d3] /\
       parse_raw_response self response = Ret [r1; r2; r3] /\
       forall n d r, In (n, d, r) [(1, d1, r1); (2, d2, r2); (3, d3, r3)] ->
         track_number d = n /\ track_number r = n /\
         (exists p, payload_between response n p) /\
         (forall p, payload_between response n p ->
            raw_data d = p /\ raw_data r = p /\
            (p = [] ->
             is_valid d = false /\
             error_message d = Some "Invalid characters in track data"%string /\
             is_valid r = false))) /\
  (forall (p1 p2 p3 : bytes) (n : Z), n = 1 \/ n = 2 \/ n = 3 ->
     exists i, occurs_at (wire_frame p1 p2 p3) (start_marker n) i) /\
  (forall p1 p2 p3 : bytes,
     (clean_payload p1 -> payload_between (wire_frame p1 p2 p3) 1 p1) /\
     (clean_payload p1 -> clean_payload p2 ->
      payload_between (wire_frame p1 p2 p3) 2 p2) /\
     (clean_payload p1 -> clean_payload p2 -> clean_payload p3 ->
      payload_between (wire_frame p1 p2 p3) 3 p3)).
Proof.
  split; [|split].
  - intros response Hall.
    assert (Hseg : forall n, n = 1 \/ n = 2 \/ n = 3 ->
              exists seg, track_segment response n = Some seg /\
                          payload_between response n seg).
    { intros n Hn.
      destruct (track_segment_Some response n (occurs_found _ _ (Hall n Hn)))
        as [seg E].
      exists seg. split; [exact E|]. now apply track_segment_payload. }
    destruct (Hseg 1 ltac:(tauto)) as [s1 [E1 P1]].
    destruct (Hseg 2 ltac:(tauto)) as [s2 [E2 P2]].
    destruct (Hseg 3 ltac:(tauto)) as [s3 [E3 P3]].
    exists (iso_track self 1 s1), (iso_track self 2 s2), (iso_track self 3 s3),
      (raw_track 1 s1), (raw_track 2 s2), (raw_track 3 s3).
    rewrite parse_iso_response_eq, parse_raw_response_eq. unfold found_tracks.
    cbn [flat_map]. rewrite E1, E2, E3. split; [reflexivity|].
    split; [reflexivity|].
    assert (Hentry : forall n seg, payload_between response n seg ->
              track_number (iso_track self n seg) = n /\
              track_number (raw_track n seg) = n /\
              (exists p, payload_between response n p) /\
              (forall p, payload_between response n p ->
                 raw_data (iso_track self n seg) = p /\
                 raw_data (raw_track n seg) = p /\
                 (p = [] ->
                  is_valid (iso_track self n seg) = false /\
                  error_message (iso_track self n seg)
                  = Some "Invalid characters in track data"%string /\
                  is_valid (raw_track n seg) = false))).
    { intros n seg Hp. split; [reflexivity|]. split; [reflexivity|].
      split; [now exists seg|]. intros p Hp'.
      pose proof (payload_between_unique _ _ _ _ Hp Hp') as <-.
      split; [reflexivity|]. split; [reflexivity|]. intros Hempty.
      destruct (iso_track_empty self n seg Hempty) as [Hv He].
      split; [exact Hv|]. split; [exact He|]. now apply raw_track_empty. }
    intros n d r [[= <- <- <-]|[[= <- <- <-]|[[= <- <- <-]|[]]]];
      now apply Hentry.
  - intros p1 p2 p3 n Hn.
    pose proof (wire_frame_has_markers p1 p2 p3 n Hn) as Hfound.
    destruct (bytes_find_first _ _ 0 ltac:(lia) Hfound) as [_ [Hocc _]].
    eauto.
  - intros p1 p2 p3. split; [|split].
    + intros C1. apply track_segment_payload; [tauto|].
      now apply wire_frame_segment_1.
    + intros C1 C2. apply track_segment_payload; [tauto|].
      now apply wire_frame_segment_2.
    + intros C1 C2 C3. apply track_segment_payload; [tauto|].
      now apply wire_frame_segment_3.
Qed.

End DecodedFrames.

Lemma C9_three_markers_three_entries_witness :
  exists d1 d2 d3 r1 r2 r3,
    parse_iso_response (consts := sample_constants) iso_parser
      (wire_frame [] [x3b; x31; x3f] []) = Ret [d1; d2; d3] /\
    parse_raw_response (consts := sample_constants) iso_parser
      (wire_frame [] [x3b; x31; x3f] []) = Ret [r1; r2; r3] /\
    is_valid d1 = false /\ is_valid d2 = true /\ is_valid d3 = false /\
    is_valid r1 = false /\ is_valid r2 = true /\ is_valid r3 = false /\
    raw_data d1 = [] /\ raw_data r1 = [] /\
    raw_data d2 = [x3b; x31; x3f] /\ raw_data r2 = [x3b; x31; x3f].
Proof.
  destruct (C9_three_markers_three_entries (consts := sample_constants) iso_parser)
    as [Hthree [Hmarkers Hpayload]].
  destruct (Hthree (wire_frame [] [x3b; x31; x3f] []) (Hmarkers _ _ _))
    as [d1 [d2 [d3 [r1 [r2 [r3 [Hiso [Hraw Hentries]]]]]]]].
  assert (C0 : clean_payload []) by constructor.
  assert (C2 : clean_payload [x3b; x31; x3f])
    by (repeat constructor; discriminate).
  destruct (Hpayload [] [x3b; x31; x3f] []) as [P1 [P2 _]].
  destruct (Hentries 1 d1 r1 ltac:(now left)) as [_ [_ [_ H1]]].
  destruct (H1 [] (P1 C0)) as [Hd1 [Hr1 Hempty]].
  destruct (Hempty eq_refl) as [Vd1 [_ Vr1]].
  destruct (Hentries 2 d2 r2 ltac:(right; now left)) as [_ [_ [_ H2]]].
  destruct (H2 _ (P2 C0 C2)) as [Hd2 [Hr2 _]].
  exists d1, d2, d3, r1, r2, r3. split; [exact Hiso|]. split; [exact Hraw|].
  vm_compute in Hiso. injection Hiso as <- <- <-.
  vm_compute in Hraw. injection Hraw as <- <- <-.
  repeat split; reflexivity.
Defined.


(* ===================================================================== *)
(** ** Encoding then decoding *)
(* ===================================================================== *)

Lemma filter_all {A : Type} (f : A -> bool) (l : list A) :
  Forall (fun a => f a = true) l -> filter f l = l.
Proof.
  induction 1 as [|a l Ha _ IH]; [reflexivity|].
  cbn [filter]. now rewrite Ha, IH.
Qed.

Lemma drop_while_head {A : Type} (p : A -> bool) (a : A) (l : list A) :
  p a = false -> drop_while p (a :: l) = a :: l.
Proof. intros H. cbn [drop_while]. now rewrite H. Qed.

Lemma rstrip_with_last {A : Type} (p : A -> bool) (l : list A) (a : A) :
  p a = false -> rstrip_with p (l ++ [a]) = l ++ [a].
Proof.
  intros H. unfold rstrip_with. rewrite rev_app_distr. cbn [rev app].
  rewrite drop_while_head by exact H. cbn [rev]. now rewrite rev_involutive.
Qed.

(** Text that neither begins nor ends with white space is left as it is. *)
Lemma str_strip_ends (t : str) :
  isspace (hd 0%N t) = false -> isspace (last t 0%N) = false -> str_strip t = t.
Proof.
  intros Hh Hl. unfold str_strip. destruct t as [|c t]; [reflexivity|].
  cbn [hd] in Hh. rewrite drop_while_head by exact Hh.
  rewrite (app_removelast_last 0%N (l := c :: t)) by discriminate.
  now apply rstrip_with_last.
Qed.


Section RoundTrip.
Context {consts : Constants} {tables : CaseTables}.








Lemma parse_iso_wire_frame (self : TrackParser) (p1 p2 p3 : bytes) :
  clean_payload p1 -> clean_payload p2 -> clean_payload p3 ->
  parse_iso_response self (wire_frame p1 p2 p3)
  = Ret [iso_track self 1 p1; iso_track self 2 p2; iso_track self 3 p3].
Proof.
  intros C1 C2 C3. rewrite parse_iso_response_eq. unfold found_tracks.
  cbn [flat_map]. rewrite wire_frame_segment_1, wire_frame_segment_2,
    wire_frame_segment_3 by assumption. reflexivity.
Qed.

Lemma parse_raw_wire_frame (self : TrackParser) (p1 p2 p3 : bytes) :
  clean_payload p1 -> clean_payload p2 -> clean_payload p3 ->
  parse_raw_response self (wire_frame p1 p2 p3)
  = Ret [raw_track 1 p1; raw_track 2 p2; raw_track 3 p3].
Proof.
  intros C1 C2 C3. rewrite parse_raw_response_eq. unfold found_tracks.
  cbn [flat_map]. rewrite wire_frame_segment_1, wire_frame_segment_2,
    wire_frame_segment_3 by assumption. reflexivity.
Qed.


End RoundTrip.

Section RoundTripProperty.
Context {consts : Constants} {tables : CaseTables}.


End RoundTripProperty.



(* ===================================================================== *)
(** ** The transport: sending and disconnecting *)
(* ===================================================================== *)

Section TransportProperties.
Context {consts : Constants} {env : HidEnv}.

Lemma is_connected_handle (self : MSR605XDevice) :
  is_connected self = true -> _connected self = true /\ exists h, _device self = Some h.
Proof.
  unfold is_connected. intros H. apply andb_true_iff in H as [Hc Hd].
  split; [exact Hc|]. destruct (_device self) as [h|]; [eauto|discriminate].
Qed.

Lemma zero_bytes_len (n : Z) : len (zero_bytes n) = Z.max 0 n.
Proof. unfold zero_bytes, len. rewrite repeat_length. lia. Qed.

(** C2, as the code has it. A connected transport writes one report per
    send: the report-ID byte 0x00, the payload, and zero bytes on the right
    up to the report size; the send succeeds exactly when the write returns
    a count that is not negative. A payload of at most the report size minus
    one gives a report of the report size. A longer payload is not turned
    down: it is written, without padding, as a report of its length plus
    one. *)
Theorem C2_send_writes_one_report (self : MSR605XDevice) (command data : bytes)
    (log : io_log) :
  is_connected self = true ->
  let payload := command ++ data in
  let report := [x00] ++ payload ++ zero_bytes (HID_REPORT_SIZE - 1 - len payload) in
  exists ok,
    send_command self command data log = ((ok, []), EvWrite report :: log) /\
    (ok = true <-> exists n, hid_write log report = Ret n /\ 0 <= n) /\
    (len payload <= HID_REPORT_SIZE - 1 -> len report = HID_REPORT_SIZE) /\
    (HID_REPORT_SIZE - 1 < len payload -> report = [x00] ++ payload).
Proof.
  intros Hc payload report.
  destruct (is_connected_handle self Hc) as [_ [h Hh]].
  unfold send_command. rewrite Hc, Hh. cbn [negb]. fold payload.
  assert (Hrep : (if len ([x00] ++ payload) <? HID_REPORT_SIZE
                  then ([x00] ++ payload)
                       ++ zero_bytes (HID_REPORT_SIZE - len ([x00] ++ payload))
                  else [x00] ++ payload) = report).
  { unfold report. rewrite len_app. change (len [x00]) with 1.
    destruct (Z.ltb_spec (1 + len payload) HID_REPORT_SIZE).
    - rewrite <- app_assoc. do 3 f_equal. lia.
    - unfold zero_bytes. replace (Z.to_nat (HID_REPORT_SIZE - 1 - len payload)) with 0%nat by lia.
      cbn [repeat]. now rewrite app_nil_r. }
  rewrite Hrep.
  assert (Hsize : len payload <= HID_REPORT_SIZE - 1 -> len report = HID_REPORT_SIZE).
  { intros Hle. unfold report. rewrite !len_app, zero_bytes_len.
    change (len [x00]) with 1. lia. }
  assert (Hlong : HID_REPORT_SIZE - 1 < len payload -> report = [x00] ++ payload).
  { intros Hgt. unfold report, zero_bytes.
    replace (Z.to_nat (HID_REPORT_SIZE - 1 - len payload)) with 0%nat by lia.
    cbn [repeat]. now rewrite app_nil_r. }
  destruct (hid_write log report) as [n|e] eqn:Ew.
  - destruct (Z.ltb_spec n 0).
    + exists false. split; [reflexivity|]. split; [|split; assumption].
      split; [discriminate|]. intros [m [[= <-] Hm]]. lia.
    + exists true. split; [reflexivity|]. split; [|split; assumption].
      split; [|reflexivity]. intros _. exists n. split; [reflexivity|lia].
  - exists false. split; [reflexivity|]. split; [|split; assumption].
    split; [discriminate|]. intros [m [[=] _]].
Qed.

(** C8. After a disconnect that succeeded, the handle and the cached
    identity are gone, the handle was closed and a registered listener was
    told [false]; from then on every send and every receive fails with the
    empty result and makes no call on the device. A disconnect without an
    open handle fails with "Not connected" and changes nothing. *)
Theorem C8_disconnect_then_not_connected (self self' : MSR605XDevice)
    (log log' : io_log) (msg : string) :
  disconnect self log = ((true, msg), self', log') ->
  (_device self' = None /\ _connected self' = false /\ _device_info self' = None) /\
  (log' = match _on_status_change self with
          | Some _ => [EvStatus false; EvClose] ++ log
          | None => [EvClose] ++ log
          end) /\
  (forall command data l, send_command self' command data l = ((false, []), l)) /\
  (forall fuel timeout_ms l,
     receive_response fuel self' timeout_ms l = Some ((false, []), l)) /\
  (forall l, disconnect self' l = ((false, "Not connected"%string), self', l)) /\
  (forall s l, _connected s = false \/ _device s = None ->
     disconnect s l = ((false, "Not connected"%string), s, l)).
Proof.
  intros H.
  assert (Hnot : forall s l, _connected s = false \/ _device s = None ->
                   disconnect s l = ((false, "Not connected"%string), s, l)).
  { intros s l [Hc|Hd]; unfold disconnect.
    - rewrite Hc. reflexivity.
    - rewrite Hd. destruct (_connected s); reflexivity. }
  unfold disconnect, _notify_status_change in H.
  destruct (_connected self); [|discriminate].
  destruct (_device self) as [h|]; [|discriminate].
  destruct (hid_close log) as [[]|e]; [|discriminate]. cbn [_on_status_change] in H.
  destruct (_on_status_change self) as [callback|].
  - destruct (callback false) as [[]|e]; [|discriminate].
    injection H as <- <- <-. cbn [_device _connected _device_info].
    repeat split; try reflexivity. intros s l Hs. now apply Hnot.
  - injection H as <- <- <-. cbn [_device _connected _device_info].
    repeat split; try reflexivity. intros s l Hs. now apply Hnot.
Qed.

End TransportProperties.

Lemma C2_send_writes_one_report_witness :
  send_command (consts := sample_constants) (env := sample_env) connected_device
    [x1b; x72] [] []
  = ((true, []), [EvWrite ([x00; x1b; x72] ++ zero_bytes 61)]).
Proof.
  destruct (C2_send_writes_one_report (consts := sample_constants)
              (env := sample_env) connected_device [x1b; x72] [] [] eq_refl)
    as [ok [Hs [Hok _]]].
  rewrite Hs. replace ok with true; [reflexivity|].
  symmetry. apply Hok. eexists. split; [reflexivity|]. vm_compute. discriminate.
Defined.

(** C2 as stated fails: with a report size of 64 a payload of 64 bytes is
    written to the device, as a report of 65 bytes, and the send succeeds. *)
Lemma C2_payload_too_large_counterexample :
  HID_REPORT_SIZE (Constants := sample_constants) - 1 < len (repeat x41 64 ++ []) /\
  send_command (consts := sample_constants) (env := sample_env) connected_device
    (repeat x41 64) [] []
  = ((true, []), [EvWrite (x00 :: repeat x41 64)]).
Proof. split; [vm_compute|]; reflexivity. Qed.

Lemma C8_disconnect_then_not_connected_witness :
  exists self' log',
    disconnect (env := sample_env) connected_device [] = ((true, "Disconnected successfully"%string), self', log') /\
    log' = [EvStatus false; EvClose] /\
    send_command (consts := sample_constants) (env := sample_env) self'
      [x1b; x72] [] log' = ((false, []), log') /\
    receive_response (consts := sample_constants) (env := sample_env) 5 self'
      1000 log' = Some ((false, []), log').
Proof.
  eexists _, _. split; [reflexivity|].
  destruct (C8_disconnect_then_not_connected (consts := sample_constants)
              (env := sample_env) connected_device _ [] _ _ eq_refl)
    as [_ [Hlog [Hsend [Hrecv _]]]].
  split; [exact Hlog|]. split; [apply Hsend|apply Hrecv].
Defined.

(* ===================================================================== *)
(** ** The transport: receiving *)
(* ===================================================================== *)

Lemma drop_while_nil_all {A : Type} (p : A -> bool) (l : list A) :
  drop_while p l = [] -> Forall (fun a => p a = true) l.
Proof.
  induction l as [|a l IH]; intros H; [constructor|].
  cbn [drop_while] in H. destruct (p a) eqn:E; [|discriminate].
  constructor; auto.
Qed.

Lemma drop_while_head_false {A : Type} (p : A -> bool) (l r : list A) (a : A) :
  drop_while p l = a :: r -> p a = false.
Proof.
  induction l as [|b l IH]; intros H; [discriminate|].
  cbn [drop_while] in H. destruct (p b) eqn:E; [auto|].
  injection H as -> _. exact E.
Qed.

Lemma rstrip_with_nil_all {A : Type} (p : A -> bool) (l : list A) :
  rstrip_with p l = [] -> Forall (fun a => p a = true) l.
Proof.
  unfold rstrip_with. intros H.
  assert (Hd : drop_while p (rev l) = []).
  { rewrite <- (rev_involutive (drop_while p (rev l))), H. reflexivity. }
  apply drop_while_nil_all in Hd. rewrite Forall_forall in *.
  intros a Ha. apply Hd. now apply in_rev in Ha.
Qed.

Lemma rstrip_with_last_false {A : Type} (p : A -> bool) (l r : list A) (a : A) :
  rstrip_with p l = r ++ [a] -> p a = false.
Proof.
  unfold rstrip_with. intros H.
  assert (Hd : drop_while p (rev l) = a :: rev r).
  { rewrite <- (rev_involutive (drop_while p (rev l))), H, rev_app_distr.
    reflexivity. }
  now apply drop_while_head_false in Hd.
Qed.

Lemma startswith_head (s sub : bytes) (a : byte) :
  startswith s (a :: sub) = true -> exists r, s = a :: r.
Proof.
  destruct s as [|b s]; cbn [startswith]; [discriminate|].
  intros H. apply andb_true_iff in H as [H _]. apply Byte.byte_dec_bl in H.
  subst. eauto.
Qed.

Lemma bytes_contains_In (s sub : bytes) (a : byte) :
  bytes_contains s (a :: sub) = true -> In a s.
Proof.
  unfold bytes_contains. intros H. apply negb_true_iff, Z.eqb_neq in H.
  rewrite bytes_find_from in H by (split; [lia|apply len_nonneg]).
  cbn [Z.to_nat skipn] in H.
  destruct (find_from_spec (a :: sub) s 0) as [[Hn _]|[k [_ [_ [Hm _]]]]];
    [contradiction|].
  apply startswith_head in Hm as [r Hr].
  rewrite <- (firstn_skipn k s), Hr. apply in_or_app. right. now left.
Qed.

Section ReceiveProperties.
Context {consts : Constants} {env : HidEnv}.

Lemma stop_sentinel_nonzero (response : bytes) :
  stop_sentinel response = true -> bytes_rstrip_nul response <> [].
Proof.
  unfold stop_sentinel. intros H. apply andb_true_iff in H as [_ H].
  assert (Hin : In x1b response \/ In x1c response).
  { apply orb_true_iff in H as [H|H]; [apply orb_true_iff in H as [H|H]|];
      apply bytes_contains_In in H; auto. }
  intros Hnil. apply rstrip_with_nil_all in Hnil. rewrite Forall_forall in Hnil.
  destruct Hin as [Hin|Hin]; apply Hnil in Hin; discriminate.
Qed.

Lemma drop_while_all {A : Type} (p : A -> bool) (l : list A) :
  Forall (fun a => p a = true) l -> drop_while p l = [].
Proof.
  induction 1 as [|a l Ha _ IH]; [reflexivity|].
  cbn [drop_while]. now rewrite Ha.
Qed.

Lemma rstrip_nul_nil_iff (buffer : bytes) :
  bytes_rstrip_nul buffer = [] <-> Forall (fun b => b = x00) buffer.
Proof.
  split.
  - intros H. apply rstrip_with_nil_all in H. revert H. apply Forall_impl.
    intros b Hb. apply Byte.byte_dec_bl in Hb. now subst.
  - intros H. unfold bytes_rstrip_nul, rstrip_with. rewrite drop_while_all.
    + reflexivity.
    + apply Forall_forall. intros b Hb. apply in_rev in Hb.
      rewrite Forall_forall in H. rewrite (H b Hb). reflexivity.
Qed.

(** One turn of the loop, with its tests named. *)
Lemma receive_loop_turn (fuel : nat) (start_time timeout_sec : float)
    (buffer : bytes) (log : io_log) :
  receive_loop (S fuel) start_time timeout_sec buffer log
  = if time_is_up start_time timeout_sec log
    then Some (Ret buffer, EvTime :: log)
    else match hid_read (EvTime :: log) HID_REPORT_SIZE 100 with
         | Raise e => Some (Raise e, EvRead HID_REPORT_SIZE 100 :: EvTime :: log)
         | Ret chunk =>
             match chunk with
             | [] => receive_loop fuel start_time timeout_sec buffer
                       (turn_log log chunk)
             | _ :: _ =>
                 if stop_sentinel (buffer ++ chunk)
                 then Some (Ret (buffer ++ chunk),
                            EvRead HID_REPORT_SIZE 100 :: EvTime :: log)
                 else receive_loop fuel start_time timeout_sec (buffer ++ chunk)
                        (turn_log log chunk)
             end
         end.
Proof.
  cbn [receive_loop]. unfold time_is_up, stop_sentinel, turn_log.
  destruct (float_gt _ _); [reflexivity|].
  destruct (hid_read (EvTime :: log) HID_REPORT_SIZE 100) as [[|b data]|e];
    [reflexivity| |reflexivity].
  destruct (2 <=? len (buffer ++ b :: data)); [|reflexivity].
  destruct (bytes_contains (buffer ++ b :: data) [x1b; x30]
            || bytes_contains (buffer ++ b :: data) [x1b; x31]); [reflexivity|].
  destruct (bytes_contains (buffer ++ b :: data) [x1c]); reflexivity.
Qed.

(** What a loop that ended went through: the polls that did not end it, then
    the clock reading, the poll with a sentinel or the poll that raised which
    ended it. *)
Lemma receive_loop_run (fuel : nat) (start_time timeout_sec : float)
    (buffer : bytes) (log : io_log) (result : exc bytes) (log' : io_log) :
  stop_sentinel buffer = false ->
  receive_loop fuel start_time timeout_sec buffer log = Some (result, log') ->
  exists chunks,
    polling_goes_on start_time timeout_sec buffer log chunks /\
    ((time_is_up start_time timeout_sec (turns_log log chunks) = true /\
      stop_sentinel (buffer ++ List.concat chunks) = false /\
      result = Ret (buffer ++ List.concat chunks) /\
      log' = EvTime :: turns_log log chunks)
     \/ (time_is_up start_time timeout_sec (turns_log log chunks) = false /\
         exists last,
           hid_read (EvTime :: turns_log log chunks) HID_REPORT_SIZE 100 = Ret last /\
           stop_sentinel ((buffer ++ List.concat chunks) ++ last) = true /\
           result = Ret ((buffer ++ List.concat chunks) ++ last) /\
           log' = EvRead HID_REPORT_SIZE 100 :: EvTime :: turns_log log chunks)
     \/ (time_is_up start_time timeout_sec (turns_log log chunks) = false /\
         exists e,
           hid_read (EvTime :: turns_log log chunks) HID_REPORT_SIZE 100 = Raise e /\
           result = Raise e /\
           log' = EvRead HID_REPORT_SIZE 100 :: EvTime :: turns_log log chunks)).
Proof.
  revert buffer log. induction fuel as [|fuel IH]; intros buffer log Hs H;
    [discriminate|].
  rewrite receive_loop_turn in H.
  destruct (time_is_up start_time timeout_sec log) eqn:Et.
  - injection H as <- <-. exists []. split; [exact I|]. left.
    cbn [List.concat turns_log fold_left]. rewrite app_nil_r. auto.
  - destruct (hid_read (EvTime :: log) HID_REPORT_SIZE 100) as [chunk|e] eqn:Er.
    + assert (Hmore : stop_sentinel (buffer ++ chunk) = false ->
                      receive_loop fuel start_time timeout_sec (buffer ++ chunk)
                        (turn_log log chunk) = Some (result, log') ->
                      exists chunks, polling_goes_on start_time timeout_sec buffer log chunks /\
                        ((time_is_up start_time timeout_sec (turns_log log chunks) = true /\
                          stop_sentinel (buffer ++ List.concat chunks) = false /\
                          result = Ret (buffer ++ List.concat chunks) /\
                          log' = EvTime :: turns_log log chunks)
                         \/ (time_is_up start_time timeout_sec (turns_log log chunks) = false /\
                             exists last,
                               hid_read (EvTime :: turns_log log chunks) HID_REPORT_SIZE 100
                               = Ret last /\
                               stop_sentinel ((buffer ++ List.concat chunks) ++ last) = true /\
                               result = Ret ((buffer ++ List.concat chunks) ++ last) /\
                               log' = EvRead HID_REPORT_SIZE 100 :: EvTime
                                      :: turns_log log chunks)
                         \/ (time_is_up start_time timeout_sec (turns_log log chunks) = false /\
                             exists e,
                               hid_read (EvTime :: turns_log log chunks) HID_REPORT_SIZE 100
                               = Raise e /\
                               result = Raise e /\
                               log' = EvRead HID_REPORT_SIZE 100 :: EvTime
                                      :: turns_log log chunks))).
      { intros Hs' Hrec. destruct (IH _ _ Hs' Hrec) as [chunks [Hgo Hend]].
        exists (chunk :: chunks). split.
        - cbn [polling_goes_on]. auto.
        - cbn [turns_log fold_left List.concat]. fold (turns_log (turn_log log chunk) chunks).
          rewrite app_assoc. exact Hend. }
      destruct chunk as [|b data].
      * apply Hmore; [now rewrite app_nil_r|now rewrite app_nil_r].
      * destruct (stop_sentinel (buffer ++ b :: data)) eqn:Es.
        -- injection H as <- <-. exists []. split; [exact I|]. right. left.
           cbn [List.concat turns_log fold_left]. rewrite app_nil_r.
           split; [exact Et|]. exists (b :: data). auto.
        -- now apply Hmore.
    + injection H as <- <-. exists []. split; [exact I|]. right. right.
      cbn [List.concat turns_log fold_left]. split; [exact Et|]. exists e. auto.
Qed.

Lemma receive_loop_returns (fuel n : nat) (start_time timeout_sec : float)
    (response : bytes) (log : io_log) :
  clock_expires start_time timeout_sec n ->
  (0 < fuel)%nat -> (n < List.length log + fuel)%nat ->
  receive_loop fuel start_time timeout_sec response log <> None.
Proof.
  intros Hclock. revert response log.
  induction fuel as [|fuel IH]; intros response log Hpos Hn; [lia|].
  rewrite receive_loop_turn.
  destruct (time_is_up start_time timeout_sec log) eqn:Et; [discriminate|].
  assert (Hlt : (List.length log < n)%nat).
  { destruct (Nat.lt_ge_cases (List.length log) n) as [|Hge]; [assumption|].
    rewrite (Hclock log Hge) in Et. discriminate. }
  destruct (hid_read (EvTime :: log) HID_REPORT_SIZE 100) as [[|b data]|e];
    [| |discriminate].
  - apply IH; cbn [turn_log List.length]; lia.
  - destruct (stop_sentinel _); [discriminate|].
    apply IH; cbn [turn_log List.length]; lia.
Qed.

(** C3, as the code has it. On a connected transport, once the clock gets
    past the timeout, the receive returns. Its buffer is made of the chunks
    the polls brought, in their order. It polls on as long as the clock does
    not read more than the timeout after the start and the buffer, with the
    chunk just polled, does not hold a sentinel: it is not two bytes long or
    holds none of [ESC '0'], [ESC '1'] and [FS]. It ends at the first clock
    reading past the timeout, at the first poll with which the buffer holds
    a sentinel, with no poll after it, or at a poll that raises. It returns
    the buffer without its trailing zero bytes, and reports success exactly
    when that result is not empty. So a buffer that holds a sentinel is a
    success, and the failure with the empty result means that only zero
    bytes came before the time was up, or that a poll raised: bytes without
    a sentinel that came before the timeout are returned as a success. *)
Theorem C3_receive_until_sentinel_or_timeout (fuel : nat) (self : MSR605XDevice)
    (timeout_ms : Z) (timeout_sec : float) (log : io_log) :
  is_connected self = true ->
  int_truediv_float timeout_ms 1000 = Ret timeout_sec ->
  let start_time := time_time log in
  clock_expires start_time timeout_sec fuel -> (0 < fuel)%nat ->
  exists ok response log' chunks,
    receive_response fuel self timeout_ms log = Some ((ok, response), log') /\
    polling_goes_on start_time timeout_sec [] (EvTime :: log) chunks /\
    (forall l, response <> l ++ [x00]) /\
    (ok = true <-> response <> []) /\
    ((time_is_up start_time timeout_sec (turns_log (EvTime :: log) chunks) = true /\
      stop_sentinel (List.concat chunks) = false /\
      log' = EvTime :: turns_log (EvTime :: log) chunks /\
      response = bytes_rstrip_nul (List.concat chunks) /\
      (ok = false <-> Forall (fun b => b = x00) (List.concat chunks)))
     \/ (time_is_up start_time timeout_sec (turns_log (EvTime :: log) chunks) = false /\
         exists last,
           hid_read (EvTime :: turns_log (EvTime :: log) chunks) HID_REPORT_SIZE 100
           = Ret last /\
           stop_sentinel (List.concat chunks ++ last) = true /\
           log' = EvRead HID_REPORT_SIZE 100 :: EvTime
                  :: turns_log (EvTime :: log) chunks /\
           response = bytes_rstrip_nul (List.concat chunks ++ last) /\
           ok = true)
     \/ (time_is_up start_time timeout_sec (turns_log (EvTime :: log) chunks) = false /\
         exists e,
           hid_read (EvTime :: turns_log (EvTime :: log) chunks) HID_REPORT_SIZE 100
           = Raise e /\
           log' = EvRead HID_REPORT_SIZE 100 :: EvTime
                  :: turns_log (EvTime :: log) chunks /\
           ok = false /\ response = [])).
Proof.
  intros Hc Ht start_time Hclock Hfuel.
  unfold receive_response. rewrite Hc, Ht. cbn [negb]. fold start_time.
  destruct (receive_loop fuel start_time timeout_sec [] (EvTime :: log))
    as [[result log']|] eqn:El.
  2: { exfalso. revert El.
       apply (receive_loop_returns fuel fuel); [assumption|assumption|].
       cbn [List.length]. lia. }
  destruct (receive_loop_run fuel start_time timeout_sec [] _ _ _ eq_refl El)
    as [chunks [Hgo Hend]].
  cbn [app] in Hend.
  assert (Hok : forall response : bytes,
            (0 <? len response) = true <-> response <> []).
  { intros [|b r].
    - split; [discriminate|contradiction].
    - split; [discriminate|]. intros _. apply Z.ltb_lt. rewrite len_cons.
      pose proof (len_nonneg r). lia. }
  assert (Hstrip : forall buf l, bytes_rstrip_nul buf <> l ++ [x00]).
  { intros buf l Hl. apply rstrip_with_last_false in Hl. discriminate. }
  destruct Hend as [[Hup [Hs [-> ->]]]|[[Hup [last [Hr [Hs [-> ->]]]]]
                                       |[Hup [e [Hr [-> ->]]]]]].
  - eexists (0 <? len (bytes_rstrip_nul (List.concat chunks))),
      (bytes_rstrip_nul (List.concat chunks)), _, chunks.
    split; [reflexivity|]. split; [exact Hgo|]. split; [apply Hstrip|].
    split; [apply Hok|]. left. repeat (split; [first [assumption|reflexivity]|]).
    rewrite <- rstrip_nul_nil_iff. split.
    + intros Hfalse. destruct (bytes_rstrip_nul (List.concat chunks)) as [|b r] eqn:E;
        [reflexivity|].
      apply Z.ltb_ge in Hfalse. rewrite len_cons in Hfalse.
      pose proof (len_nonneg r). lia.
    + intros ->. reflexivity.
  - eexists (0 <? len (bytes_rstrip_nul (List.concat chunks ++ last))),
      (bytes_rstrip_nul (List.concat chunks ++ last)), _, chunks.
    split; [reflexivity|]. split; [exact Hgo|]. split; [apply Hstrip|].
    split; [apply Hok|]. right. left. split; [exact Hup|]. exists last.
    repeat (split; [first [assumption|reflexivity]|]).
    apply Hok. now apply stop_sentinel_nonzero.
  - eexists false, [], _, chunks.
    split; [reflexivity|]. split; [exact Hgo|]. split.
    { intros l Hl. destruct l; discriminate. }
    split; [split; [discriminate|congruence]|]. right. right.
    split; [exact Hup|]. exists e. auto.
Qed.

End ReceiveProperties.

Lemma sample_clock_expires (log : io_log) :
  (20 <= List.length log)%nat ->
  float_gt (sample_clock log - sample_clock [])%float
           (round_to_float 300 / 1000)%float = true.
Proof.
  intros Hlen. unfold sample_clock.
  assert (Hk : In (Nat.min (List.length log) 100) (seq 20 81))
    by (apply in_seq; lia).
  revert Hk. generalize (Nat.min (List.length log) 100). intros k Hk.
  assert (Hall : forallb
                   (fun k => float_gt
                      (round_to_float (Z.of_nat k) / 10
                       - round_to_float (Z.of_nat (Nat.min (List.length (@nil io_event)) 100))
                         / 10)%float
                      (round_to_float 300 / 1000)%float) (seq 20 81) = true)
    by (vm_compute; reflexivity).
  rewrite forallb_forall in Hall. exact (Hall k Hk).
Qed.

Lemma C3_receive_until_sentinel_or_timeout_witness :
  receive_response (consts := sample_constants) (env := sentinel_env) 20
    connected_device 300 []
  = Some ((true, [x41; x1b; x30]),
          [EvRead 64 100; EvTime; EvRead 64 100; EvTime; EvTime]).
Proof.
  destruct (C3_receive_until_sentinel_or_timeout (consts := sample_constants)
              (env := sentinel_env) 20 connected_device 300
              (round_to_float 300 / 1000)%float [] eq_refl eq_refl
              sample_clock_expires ltac:(lia))
    as [ok [response [log' [chunks [Hr _]]]]].
  rewrite Hr. vm_compute in Hr. injection Hr as <- <- <-. reflexivity.
Defined.

(** C3 as stated fails: here two bytes without a sentinel come at the first
    poll and nothing after them; when the time is up the receive returns
    them as a success, not the failure with the empty result. *)
Lemma C3_timeout_with_data_counterexample :
  exists log',
    receive_response (consts := sample_constants) (env := sample_env) 20
      connected_device 300 [] = Some ((true, [x41; x42]), log') /\
    timed_out (env := sample_env) (time_time (HidEnv := sample_env) [])
      (round_to_float 300 / 1000)%float log' /\
    stop_sentinel [x41; x42; x00] = false /\
    bytes_contains [x41; x42] [x1b; x30] = false /\
    bytes_contains [x41; x42] [x1b; x31] = false /\
    bytes_contains [x41; x42] [x1c] = false.
Proof.
  eexists. split; [vm_compute; reflexivity|]. split.
  - eexists. split; [reflexivity|]. vm_compute. reflexivity.
  - repeat split; vm_compute; reflexivity.
Qed.

(* ===================================================================== *)
(** ** More on the decoders *)
(* ===================================================================== *)

Lemma occurs_at_byte (s : bytes) (a : byte) (j : nat) :
  nth_error s j = Some a -> occurs_at s [a] (Z.of_nat j).
Proof.
  intros H. destruct (nth_error_split s j H) as [l1 [l2 [-> Hl]]].
  split.
  - unfold len. rewrite length_app. cbn [List.length]. lia.
  - rewrite Nat2Z.id. rewrite <- Hl, skipn_app, skipn_all, Nat.sub_diag.
    cbn [app skipn startswith]. now rewrite byte_eqb_refl.
Qed.

Lemma in_slice_nth (s : bytes) (a : byte) (m n : nat) :
  In a (firstn n (skipn m s)) ->
  exists j, (m <= j < m + n)%nat /\ nth_error s j = Some a.
Proof.
  intros H. apply In_nth_error in H as [i Hi].
  rewrite nth_error_firstn in Hi. destruct (Nat.ltb_spec i n); [|discriminate].
  rewrite nth_error_skipn in Hi. exists (m + i)%nat. split; [lia|exact Hi].
Qed.

Lemma segment_has_no_separator (s : bytes) (n ds : Z) :
  0 <= ds <= len s -> ~ In x1c (slice s ds (segment_end s n ds)).
Proof.
  intros Hds Hin.
  destruct (segment_end_priority s n ds Hds) as [Hrange Hprio].
  rewrite slice_inside in Hin by lia.
  apply in_slice_nth in Hin as [j [Hj Hnth]].
  apply occurs_at_byte in Hnth.
  destruct Hprio as [[_ [_ Hfirst]]|[Habs _]].
  - apply (Hfirst (Z.of_nat j)); [lia|exact Hnth].
  - apply (Habs (Z.of_nat j)); [lia|exact Hnth].
Qed.

Lemma track_segment_no_separator (s : bytes) (n : Z) (seg : bytes) :
  n = 1 \/ n = 2 \/ n = 3 -> track_segment s n = Some seg -> ~ In x1c seg.
Proof.
  intros Hn H. unfold track_segment in H.
  destruct (Z.eqb_spec (bytes_find s (start_marker n) 0) (-1)) as [|Hne];
    [discriminate|].
  injection H as <-.
  destruct (bytes_find_range s (start_marker n) 0 ltac:(lia)) as [|[H0 Hle]];
    [contradiction|].
  rewrite (start_marker_len n Hn) in Hle.
  apply segment_has_no_separator. lia.
Qed.

Lemma in_found_tracks (entry : Z -> bytes -> TrackData) (s : bytes) (t : TrackData) :
  In t (found_tracks entry s) ->
  exists n seg, (n = 1 \/ n = 2 \/ n = 3) /\ track_segment s n = Some seg /\
                t = entry n seg.
Proof.
  unfold found_tracks. intros H. apply in_flat_map in H as [n [Hn Ht]].
  destruct (track_segment s n) as [seg|] eqn:E; [|contradiction].
  destruct Ht as [<-|[]]. exists n, seg. split; [|split; [exact E|reflexivity]].
  cbn [In] in Hn. intuition auto.
Qed.

Section DecoderInvariants.
Context {consts : Constants}.

(** X1. No entry returned by a decoder holds a field-separator byte in its
    raw data. *)
Theorem decoded_segment_has_no_separator (self : TrackParser) (response : bytes)
    (tracks : list TrackData) :
  parse_iso_response self response = Ret tracks
  \/ parse_raw_response self response = Ret tracks ->
  Forall (fun t => ~ In x1c (raw_data t)) tracks.
Proof.
  intros H. apply Forall_forall. intros t Ht.
  destruct H as [H|H].
  - rewrite parse_iso_response_eq in H. injection H as <-.
    apply in_found_tracks in Ht as [n [seg [Hn [Hs ->]]]].
    now apply (track_segment_no_separator response n).
  - rewrite parse_raw_response_eq in H. injection H as <-.
    apply in_found_tracks in Ht as [n [seg [Hn [Hs ->]]]].
    now apply (track_segment_no_separator response n).
Qed.

(** X5. The fields of a decoded entry hang together. From the ISO decoder:
    the text is the cleaned decoding of the raw bytes, the validity flag is
    the verdict of the validator on that text, the format is the format of
    the parser, and there is an error message exactly when the entry is not
    valid. From the RAW decoder: the text is the hexadecimal form of the raw
    bytes, the entry is valid exactly when it has bytes, the format is RAW,
    and there is never an error message. *)
Theorem decoded_entry_fields (self : TrackParser) (response : bytes) :
  (forall tracks t, parse_iso_response self response = Ret tracks -> In t tracks ->
     data t = _clean_track_data self (decode_ascii_replace (raw_data t)) (track_number t) /\
     is_valid t = _validate_track_data self (data t) (track_number t) /\
     format t = _data_format self /\
     (error_message t = None <-> is_valid t = true) /\
     (is_valid t = false ->
      error_message t = Some "Invalid characters in track data"%string)) /\
  (forall tracks t, parse_raw_response self response = Ret tracks -> In t tracks ->
     data t = bytes_hex (raw_data t) /\
     (is_valid t = true <-> raw_data t <> []) /\
     format t = RAW /\
     error_message t = None).
Proof.
  split; intros tracks t H Ht.
  - rewrite parse_iso_response_eq in H. injection H as <-.
    apply in_found_tracks in Ht as [n [seg [_ [_ ->]]]].
    unfold iso_track. cbn [data is_valid format error_message raw_data track_number].
    repeat (split; [reflexivity|]).
    destruct (_validate_track_data self _ n); split; try split; congruence.
  - rewrite parse_raw_response_eq in H. injection H as <-.
    apply in_found_tracks in Ht as [n [seg [_ [_ ->]]]].
    unfold raw_track. cbn [data is_valid format error_message raw_data].
    split; [reflexivity|]. split; [|split; reflexivity].
    destruct seg as [|b seg].
    + split; [discriminate|contradiction].
    + split; [discriminate|]. intros _. apply Z.ltb_lt. rewrite len_cons.
      pose proof (len_nonneg seg). lia.
Qed.

End DecoderInvariants.

Lemma decoded_segment_has_no_separator_witness :
  exists tracks,
    parse_raw_response (consts := sample_constants) iso_parser
      [x1b; x01; x41; x1c; x1c; x1b; x02; x42] = Ret tracks /\
    map raw_data tracks = [[x41]; [x42]] /\
    Forall (fun t => ~ In x1c (raw_data t)) tracks.
Proof.
  eexists. split; [vm_compute; reflexivity|]. split; [reflexivity|].
  apply (decoded_segment_has_no_separator (consts := sample_constants) iso_parser
           [x1b; x01; x41; x1c; x1c; x1b; x02; x42]).
  right. vm_compute. reflexivity.
Defined.

Lemma drop_while_incl {A : Type} (p : A -> bool) (l : list A) :
  exists pre, l = pre ++ drop_while p l.
Proof.
  induction l as [|a l [pre IH]]; [exists []; reflexivity|].
  cbn [drop_while]. destruct (p a).
  - exists (a :: pre). cbn [app]. now rewrite <- IH.
  - exists []. reflexivity.
Qed.

Lemma rstrip_with_prefix {A : Type} (p : A -> bool) (l : list A) :
  exists suf, l = rstrip_with p l ++ suf.
Proof.
  unfold rstrip_with. destruct (drop_while_incl p (rev l)) as [pre H].
  exists (rev pre). rewrite <- rev_app_distr, <- H. now rewrite rev_involutive.
Qed.

Lemma str_strip_incl (t : str) (c : char) : In c (str_strip t) -> In c t.
Proof.
  unfold str_strip. intros H.
  destruct (rstrip_with_prefix isspace (drop_while isspace t)) as [suf Hs].
  destruct (drop_while_incl isspace t) as [pre Hp].
  rewrite Hp, Hs. apply in_or_app. right. apply in_or_app. now left.
Qed.

Lemma str_strip_head (t : str) : isspace (hd 0%N (str_strip t)) = false.
Proof.
  unfold str_strip.
  destruct (rstrip_with_prefix isspace (drop_while isspace t)) as [suf Hs].
  destruct (rstrip_with isspace (drop_while isspace t)) as [|a r]; [reflexivity|].
  cbn [hd]. cbn [app] in Hs. now apply drop_while_head_false in Hs.
Qed.

Lemma str_strip_last (t : str) : isspace (last (str_strip t) 0%N) = false.
Proof.
  unfold str_strip.
  destruct (rstrip_with isspace (drop_while isspace t)) as [|a r] eqn:E;
    [reflexivity|].
  rewrite (app_removelast_last 0%N (l := a :: r)) in E by discriminate.
  now apply rstrip_with_last_false in E.
Qed.

Section CleanAndValidate.
Context {consts : Constants}.

Lemma clean_track_data_chars (self : TrackParser) (t : str) (n : Z) :
  Forall (fun c => ((32 <= c)%N \/ c = 9%N) /\ c <> 27%N /\ In c t)
         (_clean_track_data self t n).
Proof.
  apply Forall_forall. intros c Hc. unfold _clean_track_data in Hc.
  apply str_strip_incl in Hc. apply filter_In in Hc as [Hc H27].
  apply filter_In in Hc as [Hin Hc]. split; [|split; [|exact Hin]].
  - apply orb_true_iff in Hc as [Hc|Hc]; [left; now apply N.leb_le|right].
    cbn in Hc. rewrite orb_false_r in Hc. now apply N.eqb_eq.
  - intros ->. discriminate.
Qed.

(** X2. The text [_clean_track_data] returns holds no control character
    but the tab and no escape character, takes its characters from the
    input, neither begins nor ends with white space, and is left as it is by
    a second cleaning. *)
Theorem clean_track_data_result (self : TrackParser) (t : str) (n : Z) :
  let r := _clean_track_data self t n in
  Forall (fun c => ((32 <= c)%N \/ c = 9%N) /\ c <> 27%N /\ In c t) r /\
  isspace (hd 0%N r) = false /\
  isspace (last r 0%N) = false /\
  _clean_track_data self r n = r.
Proof.
  intros r.
  assert (Hall : Forall (fun c => ((32 <= c)%N \/ c = 9%N) /\ c <> 27%N /\ In c t) r)
    by apply clean_track_data_chars.
  split; [exact Hall|]. split; [apply str_strip_head|]. split; [apply str_strip_last|].
  unfold _clean_track_data at 1. fold r.
  rewrite (filter_all _ r).
  - rewrite filter_all.
    + apply str_strip_ends; [apply str_strip_head|apply str_strip_last].
    + revert Hall. apply Forall_impl. intros c [_ [Hc _]].
      destruct (N.eqb_spec c 27); [contradiction|reflexivity].
  - revert Hall. apply Forall_impl. intros c [[Hc|Hc] _].
    + destruct (N.leb_spec 32 c); [reflexivity|lia].
    + subst. reflexivity.
Qed.

(** X3. Whatever the format, the validator accepts only text that is not
    empty, of a track 1, 2 or 3, and no longer than the maximum of its track.
    Once the format is set to RAW, it accepts all such text: the characters
    are not looked at. *)
Theorem validate_track_data_outside_iso (self : TrackParser) (t : str) (n : Z) :
  let within :=
    t <> [] /\
    ((n = 1 /\ len t <= TRACK_1_max_chars) \/ (n = 2 /\ len t <= TRACK_2_max_chars)
     \/ (n = 3 /\ len t <= TRACK_3_max_chars)) in
  (_validate_track_data self t n = true -> within) /\
  (_validate_track_data (set_format self RAW) t n = true <-> within).
Proof.
  intros within.
  assert (Hnec : forall p, _validate_track_data p t n = true -> within).
  { intros p H. unfold _validate_track_data, specs_get in H.
    destruct t as [|c t]; [discriminate|]. split; [discriminate|].
    destruct (Z.eqb_spec n 1) as [->|]; [left|].
    { destruct (Z.ltb_spec TRACK_1_max_chars (len (c :: t))); [discriminate|]. lia. }
    destruct (Z.eqb_spec n 2) as [->|]; [right; left|].
    { destruct (Z.ltb_spec TRACK_2_max_chars (len (c :: t))); [discriminate|]. lia. }
    destruct (Z.eqb_spec n 3) as [->|]; [right; right|discriminate].
    destruct (Z.ltb_spec TRACK_3_max_chars (len (c :: t))); [discriminate|]. lia. }
  split; [apply Hnec|]. split; [apply Hnec|].
  intros [Hne Hcases]. unfold _validate_track_data, specs_get, set_format.
  cbn [_data_format DataFormat_eqb].
  destruct t as [|c t]; [contradiction|].
  destruct Hcases as [[-> Hl]|[[-> Hl]|[-> Hl]]]; cbn [Z.eqb Pos.eqb].
  - destruct (Z.ltb_spec TRACK_1_max_chars (len (c :: t))); [lia|reflexivity].
  - destruct (Z.ltb_spec TRACK_2_max_chars (len (c :: t))); [lia|reflexivity].
  - destruct (Z.ltb_spec TRACK_3_max_chars (len (c :: t))); [lia|reflexivity].
Qed.

Lemma byte_of_int_in_range (i : Z) :
  0 <= i <= 255 -> exists b, byte_of_int i = Ret b.
Proof.
  intros H. unfold byte_of_int.
  destruct (Z.ltb_spec i 0); [lia|]. destruct (Z.ltb_spec 255 i); [lia|].
  cbn [orb]. destruct (Byte.of_N (Z.to_N i)) as [b|] eqn:E; [eauto|].
  apply Byte.of_N_None_iff in E. lia.
Qed.

Lemma byte_of_int_out_of_range (i : Z) :
  i < 0 \/ 255 < i -> exists e, byte_of_int i = Raise e.
Proof.
  intros H. unfold byte_of_int.
  destruct (Z.ltb_spec i 0); destruct (Z.ltb_spec 255 i); cbn [orb]; eauto. lia.
Qed.

(** X4. The extraction of one track raises exactly when its track number
    is not the value of a byte, that is below 0 or above 255; for every other
    track number it returns, with an entry or with [None]. *)
Theorem extract_track_raises_iff (self : TrackParser) (response : bytes) (n : Z)
    (raw : bool) :
  ((exists e, _extract_track self response n raw = Raise e) <-> n < 0 \/ 255 < n) /\
  ((exists o, _extract_track self response n raw = Ret o) <-> 0 <= n <= 255).
Proof.
  assert (Hin : 0 <= n <= 255 -> exists o, _extract_track self response n raw = Ret o).
  { intros H. destruct (byte_of_int_in_range n H) as [b Hb].
    unfold _extract_track. cbn [bytes_of_ints]. rewrite Hb.
    change (byte_of_int 27) with (Ret (A := byte) x1b). cbn [bind].
    match goal with
    | |- exists o, try_except ?body _ = _ => destruct body; cbn [try_except]; eauto
    end. }
  assert (Hout : n < 0 \/ 255 < n -> exists e, _extract_track self response n raw = Raise e).
  { intros H. destruct (byte_of_int_out_of_range n H) as [e He].
    unfold _extract_track. cbn [bytes_of_ints]. rewrite He.
    change (byte_of_int 27) with (Ret (A := byte) x1b). cbn [bind]. eauto. }
  split; split; auto.
  - intros [e He]. destruct (Z.lt_ge_cases n 0); [auto|].
    destruct (Z.lt_ge_cases 255 n); [auto|].
    destruct Hin as [o Ho]; [lia|]. congruence.
  - intros [o Ho]. destruct (Z.lt_ge_cases n 0) as [Hlt|Hge].
    + destruct Hout as [e He]; [auto|]. congruence.
    + destruct (Z.lt_ge_cases 255 n) as [Hgt|Hle]; [|lia].
      destruct Hout as [e He]; [auto|]. congruence.
Qed.

End CleanAndValidate.

(* ===================================================================== *)
(** ** A frame inside a longer response *)
(* ===================================================================== *)

Lemma framed_segment_1 (prefix p1 p2 p3 suffix : bytes) :
  Forall (fun b => b <> x1b) prefix -> clean_payload p1 ->
  track_segment (prefix ++ wire_frame p1 p2 p3 ++ suffix) 1 = Some p1.
Proof.
  intros Hpre C1.
  replace (prefix ++ wire_frame p1 p2 p3 ++ suffix)
    with ((prefix ++ [x1b; x73]) ++ [x1b; x01] ++ p1 ++ x1c ::
          (track_field x02 p2 ++ track_field x03 p3 ++ [x3f; x1c] ++ suffix))
    by (unfold wire_frame, track_field; rewrite <- ?app_assoc; reflexivity).
  apply track_segment_field; [reflexivity| |now apply clean_payload_no_fs].
  rewrite bytes_find_from by (split; [lia|apply len_nonneg]).
  rewrite <- ?app_assoc. cbn [Z.to_nat skipn].
  rewrite find_from_skip by exact Hpre.
  cbn -[Z.add len]. len_lia.
Qed.

Lemma framed_segment_2 (prefix p1 p2 p3 suffix : bytes) :
  Forall (fun b => b <> x1b) prefix -> clean_payload p1 -> clean_payload p2 ->
  track_segment (prefix ++ wire_frame p1 p2 p3 ++ suffix) 2 = Some p2.
Proof.
  intros Hpre C1 C2.
  replace (prefix ++ wire_frame p1 p2 p3 ++ suffix)
    with ((prefix ++ [x1b; x73; x1b; x01] ++ p1 ++ [x1c]) ++ [x1b; x02] ++ p2 ++ x1c ::
          (track_field x03 p3 ++ [x3f; x1c] ++ suffix))
    by (unfold wire_frame, track_field; rewrite <- ?app_assoc; reflexivity).
  apply track_segment_field; [reflexivity| |now apply clean_payload_no_fs].
  rewrite bytes_find_from by (split; [lia|apply len_nonneg]).
  rewrite <- ?app_assoc. cbn [Z.to_nat skipn].
  rewrite find_from_skip by exact Hpre.
  cbn -[Z.add len]. rewrite find_from_skip by now apply clean_payload_no_esc.
  cbn -[Z.add len]. len_lia.
Qed.

Lemma framed_segment_3 (prefix p1 p2 p3 suffix : bytes) :
  Forall (fun b => b <> x1b) prefix ->
  clean_payload p1 -> clean_payload p2 -> clean_payload p3 ->
  track_segment (prefix ++ wire_frame p1 p2 p3 ++ suffix) 3 = Some p3.
Proof.
  intros Hpre C1 C2 C3.
  replace (prefix ++ wire_frame p1 p2 p3 ++ suffix)
    with ((prefix ++ [x1b; x73; x1b; x01] ++ p1 ++ [x1c; x1b; x02] ++ p2 ++ [x1c])
          ++ [x1b; x03] ++ p3 ++ x1c :: ([x3f; x1c] ++ suffix))
    by (unfold wire_frame, track_field; rewrite <- ?app_assoc; reflexivity).
  apply track_segment_field; [reflexivity| |now apply clean_payload_no_fs].
  rewrite bytes_find_from by (split; [lia|apply len_nonneg]).
  rewrite <- ?app_assoc. cbn [Z.to_nat skipn].
  rewrite find_from_skip by exact Hpre.
  cbn -[Z.add len]. rewrite find_from_skip by now apply clean_payload_no_esc.
  cbn -[Z.add len]. rewrite find_from_skip by now apply clean_payload_no_esc.
  cbn -[Z.add len]. len_lia.
Qed.

Section FramedResponse.
Context {consts : Constants}.

(** X6. When the payloads hold neither the escape byte nor the field
    separator, the decoders read a frame of the wire grammar the same way
    whatever comes after it (a status trailer, padding) and whatever comes
    before it, as long as no escape byte comes before it. *)
Theorem decoders_ignore_surroundings (self : TrackParser)
    (prefix p1 p2 p3 suffix : bytes) :
  Forall (fun b => b <> x1b) prefix ->
  clean_payload p1 -> clean_payload p2 -> clean_payload p3 ->
  parse_iso_response self (prefix ++ wire_frame p1 p2 p3 ++ suffix)
  = parse_iso_response self (wire_frame p1 p2 p3) /\
  parse_raw_response self (prefix ++ wire_frame p1 p2 p3 ++ suffix)
  = parse_raw_response self (wire_frame p1 p2 p3).
Proof.
  intros Hpre C1 C2 C3.
  rewrite (parse_iso_wire_frame self p1 p2 p3), (parse_raw_wire_frame self p1 p2 p3)
    by assumption.
  rewrite parse_iso_response_eq, parse_raw_response_eq. unfold found_tracks.
  cbn [flat_map].
  rewrite framed_segment_1, framed_segment_2, framed_segment_3 by assumption.
  split; reflexivity.
Qed.

End FramedResponse.

Lemma decoders_ignore_surroundings_witness :
  exists tracks,
    parse_raw_response (consts := sample_constants) iso_parser
      ([x00; x00] ++ wire_frame [x41] [] [x42; x43] ++ [x1b; x30; x00]) = Ret tracks /\
    map raw_data tracks = [[x41]; []; [x42; x43]].
Proof.
  destruct (decoders_ignore_surroundings (consts := sample_constants) iso_parser
              [x00; x00] [x41] [] [x42; x43] [x1b; x30; x00]) as [_ H].
  - repeat constructor; discriminate.
  - repeat constructor; discriminate.
  - constructor.
  - repeat constructor; discriminate.
  - eexists. rewrite H. split; vm_compute; reflexivity.
Defined.

(* ===================================================================== *)
(** ** The display of tracks *)
(* ===================================================================== *)

Lemma display_lines_flat_map (tracks : list TrackData) (acc : list str) :
  fold_left (fun lines track => lines ++ track_display_lines track) tracks acc
  = acc ++ flat_map track_display_lines tracks.
Proof.
  revert acc. induction tracks as [|t tracks IH]; intros acc; cbn [fold_left flat_map].
  - now rewrite app_nil_r.
  - now rewrite IH, app_assoc.
Qed.

Lemma count_occ_absent (l : str) (c : char) :
  ~ In c l -> count_occ N.eq_dec l c = 0%nat.
Proof. apply count_occ_not_In. Qed.

Lemma str_join_line_breaks (lines : list str) :
  Forall (fun l => ~ In 10%N l) lines -> lines <> [] ->
  S (count_occ N.eq_dec (str_join [10%N] lines) 10%N) = List.length lines.
Proof.
  induction 1 as [|l lines Hl Hrest IH]; intros Hne; [contradiction|].
  destruct lines as [|l' lines].
  - cbn [str_join List.length]. now rewrite count_occ_absent.
  - change (str_join [10%N] (l :: l' :: lines))
      with (l ++ [10%N] ++ str_join [10%N] (l' :: lines)).
    rewrite !count_occ_app, count_occ_absent by exact Hl.
    cbn [count_occ]. destruct (N.eq_dec 10 10) as [_|Hc]; [|contradiction].
    cbn [List.length] in *. rewrite <- IH by discriminate. lia.
Qed.

Lemma track_display_first_line (t : TrackData) :
  exists l rest, track_display_lines t = (84%N :: l) :: rest.
Proof. unfold track_display_lines. cbn [str_of_string N_of_ascii app]. eauto. Qed.

Lemma hex_has_no_line_break (s : bytes) : ~ In 10%N (bytes_hex s).
Proof.
  unfold bytes_hex. intros H. apply in_flat_map in H as [b [_ H]].
  assert (Hd : forall k, hex_digit k <> 10%N).
  { intros k. unfold hex_digit. destruct (N.ltb_spec k 10); lia. }
  destruct H as [H|[H|[]]]; now apply Hd in H.
Qed.

Lemma display_line_no_break (t : TrackData) :
  track_number t = 1 \/ track_number t = 2 \/ track_number t = 3 ->
  ~ In 10%N (data t) ->
  error_message t = None
  \/ error_message t = Some "Invalid characters in track data"%string ->
  Forall (fun l => ~ In 10%N l) (track_display_lines t).
Proof.
  intros Hn Hd He. unfold track_display_lines.
  assert (Hfirst : ~ In 10%N
            (str_of_string "Track " ++ str_of_int (track_number t)
             ++ str_of_string " ["
             ++ (if is_valid t then str_of_string "OK" else str_of_string "ERROR")
             ++ str_of_string "]: " ++ data t)).
  { assert (H1 : ~ In 10%N (str_of_string "Track "))
      by (vm_compute; intuition discriminate).
    assert (H2 : ~ In 10%N (str_of_int (track_number t)))
      by (destruct Hn as [-> | [-> | ->]]; vm_compute; intuition discriminate).
    assert (H3 : ~ In 10%N (str_of_string " ["))
      by (vm_compute; intuition discriminate).
    assert (H4 : ~ In 10%N (if is_valid t then str_of_string "OK"
                            else str_of_string "ERROR"))
      by (destruct (is_valid t); vm_compute; intuition discriminate).
    assert (H5 : ~ In 10%N (str_of_string "]: "))
      by (vm_compute; intuition discriminate).
    intros H. rewrite !in_app_iff in H. tauto. }
  destruct He as [-> | ->].
  - constructor; [exact Hfirst|constructor].
  - constructor; [exact Hfirst|]. constructor; [|constructor].
    vm_compute. intuition discriminate.
Qed.

Section Display.
Context {consts : Constants}.

(** X7. The display of a list of tracks is empty exactly when the list is.
    The display of what a decoder returned is cut by line breaks into one
    line for each entry and one more for each entry that is not valid from
    the ISO decoder; the entries of the RAW decoder, valid or not, take one
    line each. *)
Theorem format_track_display_lines (self : TrackParser) (response : bytes) :
  (forall tracks, format_track_display self tracks = [] <-> tracks = []) /\
  (forall tracks, parse_iso_response self response = Ret tracks -> tracks <> [] ->
     S (count_occ N.eq_dec (format_track_display self tracks) 10%N)
     = (List.length tracks
        + List.length (filter (fun t => negb (is_valid t)) tracks))%nat) /\
  (forall tracks, parse_raw_response self response = Ret tracks -> tracks <> [] ->
     S (count_occ N.eq_dec (format_track_display self tracks) 10%N)
     = List.length tracks).
Proof.
  assert (Heq : forall tracks, format_track_display self tracks
                               = str_join [10%N] (flat_map track_display_lines tracks)).
  { intros tracks. unfold format_track_display. now rewrite display_lines_flat_map. }
  assert (Hnn : forall t tracks, flat_map track_display_lines (t :: tracks) <> []).
  { intros t tracks. cbn [flat_map].
    destruct (track_display_first_line t) as [l [rest ->]]. discriminate. }
  split; [|split].
  - intros tracks. rewrite Heq. split; [|intros ->; reflexivity].
    destruct tracks as [|t tracks]; [reflexivity|]. cbn [flat_map].
    destruct (track_display_first_line t) as [l [rest ->]]. cbn [app].
    match goal with
    | |- context [str_join _ (_ :: ?m)] => destruct m
    end; cbn [str_join app]; discriminate.
  - intros tracks Hp Hne. rewrite Heq. rewrite parse_iso_response_eq in Hp.
    injection Hp as <-.
    rewrite str_join_line_breaks.
    + set (found := found_tracks (iso_track self) response).
      assert (Hone : forall t, In t found ->
                List.length (track_display_lines t)
                = if is_valid t then 1%nat else 2%nat).
      { intros t Ht. apply in_found_tracks in Ht as [n [seg [_ [_ ->]]]].
        unfold track_display_lines, iso_track.
        cbn [error_message is_valid].
        destruct (_validate_track_data self _ n); reflexivity. }
      clearbody found. clear Hne. induction found as [|t found IH]; [reflexivity|].
      cbn [flat_map filter List.length]. rewrite length_app, Hone by now left.
      rewrite IH by (intros t' Ht'; apply Hone; now right).
      destruct (is_valid t); cbn [negb List.length]; lia.
    + apply Forall_forall. intros l Hl. apply in_flat_map in Hl as [t [Ht Hl]].
      pose proof Ht as Ht'. apply in_found_tracks in Ht' as [n [seg [Hn [_ Et]]]].
      assert (Hlines : Forall (fun l => ~ In 10%N l) (track_display_lines t)).
      { apply display_line_no_break.
        - subst t. exact Hn.
        - subst t. cbn [iso_track data]. intros Hin.
          pose proof (clean_track_data_chars self (decode_ascii_replace seg) n)
            as Hall.
          rewrite Forall_forall in Hall. apply Hall in Hin as [[Hc|Hc] _]; lia.
        - subst t. unfold iso_track. cbn [error_message].
          destruct (_validate_track_data self _ n); auto. }
      rewrite Forall_forall in Hlines. now apply Hlines.
    + destruct (found_tracks (iso_track self) response) as [|t ts];
        [contradiction|apply Hnn].
  - intros tracks Hp Hne. rewrite Heq. rewrite parse_raw_response_eq in Hp.
    injection Hp as <-.
    rewrite str_join_line_breaks.
    + set (found := found_tracks raw_track response).
      assert (Hone : forall t, In t found ->
                List.length (track_display_lines t) = 1%nat).
      { intros t Ht. apply in_found_tracks in Ht as [n [seg [_ [_ ->]]]].
        reflexivity. }
      clearbody found. clear Hne. induction found as [|t found IH]; [reflexivity|].
      cbn [flat_map List.length]. rewrite length_app, Hone by now left.
      rewrite IH by (intros t' Ht'; apply Hone; now right). reflexivity.
    + apply Forall_forall. intros l Hl. apply in_flat_map in Hl as [t [Ht Hl]].
      pose proof Ht as Ht'. apply in_found_tracks in Ht' as [n [seg [Hn [_ Et]]]].
      assert (Hlines : Forall (fun l => ~ In 10%N l) (track_display_lines t)).
      { apply display_line_no_break; subst t; cbn [raw_track track_number data error_message];
          [exact Hn|apply hex_has_no_line_break|now left]. }
      rewrite Forall_forall in Hlines. now apply Hlines.
    + destruct (found_tracks raw_track response) as [|t ts];
        [contradiction|apply Hnn].
Qed.

End Display.

Lemma format_track_display_lines_witness :
  exists tracks,
    parse_iso_response (consts := sample_constants) iso_parser
      (wire_frame [x41] [x3b; x31; x3f] []) = Ret tracks /\
    List.length tracks = 3%nat /\
    S (count_occ N.eq_dec (format_track_display iso_parser tracks) 10%N) = 4%nat.
Proof.
  destruct (format_track_display_lines (consts := sample_constants) iso_parser
              (wire_frame [x41] [x3b; x31; x3f] [])) as [_ [H _]].
  eexists. split; [vm_compute; reflexivity|]. split; [reflexivity|].
  rewrite H; [reflexivity|vm_compute; reflexivity|discriminate].
Defined.

(* ===================================================================== *)
(** ** The fields of a driver's license *)
(* ===================================================================== *)

Lemma first_down_Some {A : Type} (f : nat -> option A) (lo extra : nat) (a : A) :
  first_down f lo extra = Some a ->
  exists k, (lo <= k <= lo + extra)%nat /\ f k = Some a.
Proof.
  induction extra as [|extra IH]; cbn [first_down].
  - destruct (f (lo + 0)%nat) eqn:E; [|discriminate].
    intros [= <-]. exists (lo + 0)%nat. split; [lia|exact E].
  - destruct (f (lo + S extra)%nat) eqn:E.
    + intros [= <-]. exists (lo + S extra)%nat. split; [lia|exact E].
    + intros H. destruct (IH H) as [k [Hk Hf]]. exists k. split; [lia|exact Hf].
Qed.

Lemma first_down_top {A : Type} (f : nat -> option A) (lo extra : nat) (a : A) :
  f (lo + extra)%nat = Some a -> first_down f lo extra = Some a.
Proof. intros H. destruct extra; cbn [first_down]; now rewrite H. Qed.

Lemma run_length_le (k : char_class) (s : str) : (run_length k s <= List.length s)%nat.
Proof.
  induction s as [|c s IH]; cbn [run_length List.length]; [lia|].
  destruct (class_matches k c); lia.
Qed.

Lemma run_length_firstn (k : char_class) (s : str) (n : nat) :
  (n <= run_length k s)%nat ->
  Forall (fun c => class_matches k c = true) (firstn n s) /\
  List.length (firstn n s) = n.
Proof.
  revert n. induction s as [|c s IH]; intros n Hn; cbn [run_length] in Hn.
  - assert (n = 0)%nat by lia. subst. split; [constructor|reflexivity].
  - destruct n as [|n]; [split; [constructor|reflexivity]|].
    destruct (class_matches k c) eqn:E; [|lia].
    destruct (IH n ltac:(lia)) as [Hall Hlen]. cbn [firstn List.length].
    split; [now constructor|now rewrite Hlen].
Qed.

Lemma run_length_exact (k : char_class) (v : str) (c : char) (rest : str) :
  Forall (fun c => class_matches k c = true) v -> class_matches k c = false ->
  run_length k (v ++ c :: rest) = List.length v.
Proof.
  induction 1 as [|a v Ha _ IH]; intros Hc; cbn [app run_length List.length].
  - now rewrite Hc.
  - rewrite Ha. now rewrite IH.
Qed.

Lemma run_length_ge (k : char_class) (v rest : str) :
  Forall (fun c => class_matches k c = true) v ->
  (List.length v <= run_length k (v ++ rest))%nat.
Proof.
  induction 1 as [|a v Ha _ IH]; cbn [app run_length List.length]; [lia|].
  rewrite Ha. lia.
Qed.

Lemma match_here_group (its : list regex_item) (s : str) (g : option str) (v : str) :
  match_here its s g = Some (Some v) -> g = Some v \/ group_text_ok its s v.
Proof.
  revert s g. induction its as [|it rest IH]; intros s g H; cbn [match_here] in H.
  - left. now injection H.
  - set (run := run_length (item_class it) s) in *.
    set (lo := min_count (item_count it)) in *.
    set (hi := match max_count (item_count it) with
               | Some m => Nat.min m run
               | None => run
               end) in *.
    destruct (Nat.ltb_spec hi lo) as [|Hle]; [discriminate|].
    apply first_down_Some in H as [k [Hk H]].
    assert (Hrun : (k <= run)%nat).
    { unfold hi in Hk. destruct (max_count (item_count it)); lia. }
    destruct (run_length_firstn _ s k Hrun) as [Hall Hlen].
    apply IH in H as [H|[it' [pre [post [Hin [Hg [Hs [Hc [Hmin Hmax]]]]]]]]].
    + destruct (item_group it) eqn:Eg; [|now left].
      right. injection H as <-. exists it, [], (skipn k s).
      split; [now left|]. split; [exact Eg|].
      split; [cbn [app]; now rewrite firstn_skipn|]. split; [exact Hall|].
      rewrite Hlen. split; [lia|]. intros m Hm. unfold hi in Hk, Hle.
      rewrite Hm in Hk, Hle. lia.
    + right. exists it', (firstn k s ++ pre), post.
      split; [now right|]. split; [exact Hg|].
      split; [rewrite <- app_assoc, <- Hs; now rewrite firstn_skipn|].
      split; [exact Hc|]. split; assumption.
Qed.

Lemma search_from_group (its : list regex_item) (s v : str) :
  search_from its s = Some (Some v) -> group_text_ok its s v.
Proof.
  induction s as [|c s IH]; cbn [search_from].
  - destruct (match_here its [] None) as [g|] eqn:E; [|discriminate].
    intros [= ->]. apply match_here_group in E as [E|E]; [discriminate|exact E].
  - destruct (match_here its (c :: s) None) as [g|] eqn:E.
    + intros [= ->]. apply match_here_group in E as [E|E]; [discriminate|exact E].
    + intros H. destruct (IH H) as [it [pre [post [Hin [Hg [Hs Hrest]]]]]].
      exists it, (c :: pre), post. split; [exact Hin|]. split; [exact Hg|].
      split; [cbn [app]; now rewrite Hs|exact Hrest].
Qed.

Lemma re_search_group (r : regex) (s v : str) :
  re_search r s = Some (Some v) -> group_text_ok (items r) s v.
Proof.
  unfold re_search. destruct (anchored r).
  - intros H. apply match_here_group in H as [H|H]; [discriminate|exact H].
  - apply search_from_group.
Qed.

Lemma upper_letter_class (v : str) :
  Forall (fun c => class_matches UpperLetter c = true) v <-> upper_letters v.
Proof.
  unfold upper_letters. split; apply Forall_impl; intros c; cbn [class_matches].
  - intros H. apply andb_true_iff in H as [H1 H2]. apply N.leb_le in H1, H2. lia.
  - intros H. apply andb_true_iff. split; apply N.leb_le; lia.
Qed.

Lemma upper_alnum_class (v : str) :
  Forall (fun c => class_matches UpperLetterOrDigit c = true) v <-> upper_alnums v.
Proof.
  unfold upper_alnums, upper_alnum. split; apply Forall_impl; intros c;
    cbn [class_matches].
  - intros H. apply orb_true_iff in H as [H|H];
      apply andb_true_iff in H as [H1 H2]; apply N.leb_le in H1, H2; lia.
  - intros [H|H]; apply orb_true_iff; [right|left];
      apply andb_true_iff; split; apply N.leb_le; lia.
Qed.

(** X8. Every field [parse_aamva] returns is one of its five fields, and
    its text is a stretch of the input made of upper-case letters (of
    upper-case letters and digits for the license number): two of them for
    the issuer, one or more for the license number, the last name and the
    first name, any number for the middle name. *)
Theorem parse_aamva_field_text (self : TrackParser) (s : str) (field : string)
    (v : str) :
  In (field, v) (parse_aamva self s) ->
  (exists pre post, s = pre ++ v ++ post) /\
  ((field = "iin"%string /\ upper_letters v /\ List.length v = 2%nat)
   \/ (field = "license_number"%string /\ upper_alnums v /\ v <> [])
   \/ (field = "last_name"%string /\ upper_letters v /\ v <> [])
   \/ (field = "first_name"%string /\ upper_letters v /\ v <> [])
   \/ (field = "middle_name"%string /\ upper_letters v)).
Proof.
  unfold parse_aamva. intros H. apply in_flat_map in H as [[f r] [Hin H]].
  cbn [fst snd] in H.
  destruct (re_search r s) as [[g|]|] eqn:E; try contradiction.
  destruct H as [[= <- <-]|[]].
  apply re_search_group in E as [it [pre [post [Hit [Hg [Hs [Hc [Hmin Hmax]]]]]]]].
  split; [eauto|].
  assert (Hne : (1 <= List.length g)%nat -> g <> [])
    by (intros Hl ->; cbn in Hl; lia).
  unfold aamva_patterns in Hin. cbn [In] in Hin.
  destruct Hin as [[= <- <-]|[[= <- <-]|[[= <- <-]|[[= <- <-]|[[= <- <-]|[]]]]]];
    cbn [items In] in Hit.
  - left. destruct Hit as [<-|[<-|[]]]; [discriminate| ]. cbn in *.
    split; [reflexivity|]. split; [now apply upper_letter_class|].
    specialize (Hmax 2%nat eq_refl). lia.
  - right; left. destruct Hit as [<-|[<-|[]]]; [|discriminate]. cbn in *.
    split; [reflexivity|]. split; [now apply upper_alnum_class|auto].
  - right; right; left. destruct Hit as [<-|[<-|[<-|[]]]]; try discriminate.
    cbn in *. split; [reflexivity|]. split; [now apply upper_letter_class|auto].
  - right; right; right; left. destruct Hit as [<-|[<-|[<-|[]]]]; try discriminate.
    cbn in *. split; [reflexivity|]. split; [now apply upper_letter_class|auto].
  - right; right; right; right.
    destruct Hit as [<-|[<-|[<-|[<-|[]]]]]; try discriminate.
    cbn in *. split; [reflexivity|]. now apply upper_letter_class.
Qed.

Lemma parse_aamva_field_text_witness :
  In ("license_number"%string, str_of_string "B4111")
    (parse_aamva iso_parser (str_of_string "%B4111^DOE/JOHN^2512?")) /\
  upper_alnums (str_of_string "B4111").
Proof.
  assert (H : In ("license_number"%string, str_of_string "B4111")
                (parse_aamva iso_parser (str_of_string "%B4111^DOE/JOHN^2512?")))
    by (vm_compute; auto).
  split; [exact H|].
  destruct (parse_aamva_field_text iso_parser _ _ _ H)
    as [_ [[E _]|[[_ [Hv _]]|[[E _]|[[E _]|[E _]]]]]]; try discriminate E.
  exact Hv.
Defined.

Lemma match_here_once_hit (k : char_class) (rest : list regex_item) (c : char)
    (s : str) (g : option str) :
  class_matches k c = true ->
  match_here (one k :: rest) (c :: s) g = match_here rest s g.
Proof.
  intros H. cbn [match_here one item_class item_count item_group min_count
                   max_count run_length].
  rewrite H. cbn [Nat.min Nat.ltb Nat.leb Nat.sub first_down Nat.add skipn].
  now destruct (match_here rest s g).
Qed.

Lemma match_here_miss (it : regex_item) (rest : list regex_item) (s : str)
    (g : option str) :
  (1 <= min_count (item_count it))%nat -> run_length (item_class it) s = 0%nat ->
  match_here (it :: rest) s g = None.
Proof.
  intros Hmin Hrun. cbn [match_here]. rewrite Hrun.
  replace (match max_count (item_count it) with
           | Some m => Nat.min m 0
           | None => 0%nat
           end) with 0%nat by (destruct (max_count (item_count it)); lia).
  destruct (Nat.ltb_spec 0 (min_count (item_count it))); [reflexivity|lia].
Qed.

Lemma run_length_mismatch (k : char_class) (c : char) (s : str) :
  class_matches k c = false -> run_length k (c :: s) = 0%nat.
Proof. intros H. cbn [run_length]. now rewrite H. Qed.

Lemma search_from_hit (its : list regex_item) (s : str) (g : option str) :
  match_here its s None = Some g -> search_from its s = Some g.
Proof. intros H. destruct s; cbn [search_from]; now rewrite H. Qed.

Lemma search_from_miss (its : list regex_item) (c : char) (s : str) :
  match_here its (c :: s) None = None ->
  search_from its (c :: s) = search_from its s.
Proof. intros H. cbn [search_from]. now rewrite H. Qed.

Lemma search_from_skip (it : regex_item) (rest : list regex_item) (pre s : str) :
  (1 <= min_count (item_count it))%nat ->
  Forall (fun c => class_matches (item_class it) c = false) pre ->
  search_from (it :: rest) (pre ++ s) = search_from (it :: rest) s.
Proof.
  intros Hmin. induction 1 as [|c pre Hc _ IH]; [reflexivity|].
  cbn [app]. rewrite search_from_miss; [exact IH|].
  apply match_here_miss; [exact Hmin|now apply run_length_mismatch].
Qed.

Lemma firstn_length_app {A : Type} (v rest : list A) :
  firstn (List.length v) (v ++ rest) = v.
Proof. rewrite firstn_app, firstn_all, Nat.sub_diag. cbn [firstn]. apply app_nil_r. Qed.

Lemma skipn_length_app {A : Type} (v rest : list A) :
  skipn (List.length v) (v ++ rest) = rest.
Proof. rewrite skipn_app, skipn_all, Nat.sub_diag. reflexivity. Qed.

Lemma match_here_cons (it : regex_item) (rest : list regex_item) (s : str)
    (g : option str) :
  match_here (it :: rest) s g
  = let run := run_length (item_class it) s in
    let lo := min_count (item_count it) in
    let hi := match max_count (item_count it) with
              | Some m => Nat.min m run
              | None => run
              end in
    if (hi <? lo)%nat then None
    else first_down
           (fun k => match_here rest (skipn k s)
                       (if item_group it then Some (firstn k s) else g))
           lo (hi - lo).
Proof. reflexivity. Qed.

(** A group of one or more, or of any number, followed by a literal that is
    not of its class, takes the whole run before the literal. *)
Lemma match_here_group_then_literal (k : char_class) (q : repeat_count)
    (l : char) (v s : str) (g : option str) :
  max_count q = None -> (min_count q <= List.length v)%nat ->
  Forall (fun c => class_matches k c = true) v -> class_matches k l = false ->
  match_here [group_of k q; one (Literal l)] (v ++ l :: s) g = Some (Some v).
Proof.
  intros Hmax Hmin Hv Hl.
  rewrite match_here_cons. cbn [group_of item_class item_count item_group].
  cbv zeta. rewrite Hmax, (run_length_exact k v l s Hv Hl).
  destruct (Nat.ltb_spec (List.length v) (min_count q)); [lia|].
  apply first_down_top. cbv beta.
  replace (min_count q + (List.length v - min_count q))%nat with (List.length v) by lia.
  rewrite skipn_length_app, firstn_length_app.
  rewrite match_here_once_hit by (cbn; apply N.eqb_refl).
  reflexivity.
Qed.

Lemma literal_mismatch (l c : char) : c <> l -> class_matches (Literal l) c = false.
Proof. intros H. cbn. now apply N.eqb_neq. Qed.

Lemma upper_letters_not (l : char) (v : str) :
  (l < 65 \/ 90 < l)%N -> upper_letters v ->
  Forall (fun c => class_matches (Literal l) c = false) v.
Proof.
  intros Hl. apply Forall_impl. intros c Hc. apply literal_mismatch. lia.
Qed.

Lemma upper_alnums_not (l : char) (v : str) :
  (l < 48 \/ 57 < l < 65 \/ 90 < l)%N -> upper_alnums v ->
  Forall (fun c => class_matches (Literal l) c = false) v.
Proof.
  intros Hl. apply Forall_impl. intros c Hc. apply literal_mismatch.
  unfold upper_alnum in Hc. lia.
Qed.

Lemma upper_letters_alnums (v : str) : upper_letters v -> upper_alnums v.
Proof. apply Forall_impl. intros c Hc. right. exact Hc. Qed.

(** X9. On a record made of a percent sign, two upper-case letters, a run
    of upper-case letters and digits, a caret, a last name, a dollar sign, a
    first name, two dollar signs, a middle name and a caret, whatever comes
    after, [parse_aamva] returns the five fields: the two letters as the
    issuer, the two letters together with the run after them as the license
    number, and the three names. *)
Theorem parse_aamva_record (self : TrackParser)
    (st lic last first mid rest : str) :
  upper_letters st -> List.length st = 2%nat -> upper_alnums lic ->
  upper_letters last -> last <> [] -> upper_letters first -> first <> [] ->
  upper_letters mid ->
  parse_aamva self
    ([37%N] ++ st ++ lic ++ [94%N] ++ last ++ [36%N] ++ first ++ [36%N; 36%N]
     ++ mid ++ [94%N] ++ rest)
  = [("iin"%string, st); ("license_number"%string, st ++ lic);
     ("last_name"%string, last); ("first_name"%string, first);
     ("middle_name"%string, mid)].
Proof.
  intros Hst Hlen Hlic Hlast Hlast0 Hfirst Hfirst0 Hmid.
  assert (Hpos : forall v : str, v <> [] -> (1 <= List.length v)%nat)
    by (intros [|? ?] ?; [contradiction|cbn [List.length]; lia]).
  set (tail3 := mid ++ [94%N] ++ rest).
  set (tail2 := first ++ [36%N; 36%N] ++ tail3).
  set (tail1 := last ++ [36%N] ++ tail2).
  assert (Hiin : re_search
            {| anchored := true;
               items := [one (Literal 37%N); group_of UpperLetter (Times 2)] |}
            ([37%N] ++ st ++ lic ++ [94%N] ++ tail1) = Some (Some st)).
  { unfold re_search. cbn [anchored items app].
    rewrite match_here_once_hit by reflexivity.
    cbn [match_here group_of item_class item_count item_group min_count max_count].
    pose proof (run_length_ge UpperLetter st (lic ++ 94%N :: tail1)
                  (proj2 (upper_letter_class st) Hst)) as Hrun.
    rewrite Hlen in Hrun.
    rewrite (Nat.min_l 2) by exact Hrun. cbn [Nat.ltb Nat.leb Nat.sub].
    apply first_down_top. cbn [Nat.add]. rewrite <- Hlen, firstn_length_app.
    reflexivity. }
  assert (Hlicense : re_search
            {| anchored := false;
               items := [group_of UpperLetterOrDigit OneOrMore; one (Literal 94%N)] |}
            ([37%N] ++ st ++ lic ++ [94%N] ++ tail1) = Some (Some (st ++ lic))).
  { unfold re_search. cbn [anchored items app].
    rewrite search_from_miss
      by (apply match_here_miss; [cbn; lia|reflexivity]).
    apply search_from_hit. rewrite app_assoc.
    apply match_here_group_then_literal; [reflexivity| | |reflexivity].
    - cbn [min_count]. rewrite length_app. lia.
    - apply upper_alnum_class. apply Forall_app. split;
        [now apply upper_letters_alnums|exact Hlic]. }
  assert (Hlastname : re_search
            {| anchored := false;
               items := [one (Literal 94%N); group_of UpperLetter OneOrMore;
                         one (Literal 36%N)] |}
            ([37%N] ++ st ++ lic ++ [94%N] ++ tail1) = Some (Some last)).
  { unfold re_search. cbn [anchored items].
    rewrite !app_assoc. rewrite <- (app_assoc _ [94%N] tail1).
    rewrite search_from_skip.
    - apply search_from_hit. cbn [app]. rewrite match_here_once_hit by reflexivity.
      unfold tail1. apply match_here_group_then_literal;
        [reflexivity|cbn; now apply Hpos|now apply upper_letter_class|reflexivity].
    - cbn; lia.
    - repeat (apply Forall_app; split).
      + repeat constructor.
      + apply upper_letters_not; [lia|exact Hst].
      + apply upper_alnums_not; [lia|exact Hlic]. }
  assert (Hfirstname : re_search
            {| anchored := false;
               items := [one (Literal 36%N); group_of UpperLetter OneOrMore;
                         one (Literal 36%N)] |}
            ([37%N] ++ st ++ lic ++ [94%N] ++ tail1) = Some (Some first)).
  { unfold re_search, tail1. cbn [anchored items].
    rewrite !app_assoc. rewrite <- (app_assoc _ [36%N] tail2).
    rewrite search_from_skip.
    - apply search_from_hit. cbn [app]. rewrite match_here_once_hit by reflexivity.
      unfold tail2. change ([36%N; 36%N] ++ tail3) with (36%N :: 36%N :: tail3).
      apply match_here_group_then_literal;
        [reflexivity|cbn; now apply Hpos|now apply upper_letter_class|reflexivity].
    - cbn; lia.
    - repeat (apply Forall_app; split).
      + repeat constructor.
      + apply upper_letters_not; [lia|exact Hst].
      + apply upper_alnums_not; [lia|exact Hlic].
      + repeat constructor.
      + apply upper_letters_not; [lia|exact Hlast]. }
  assert (Hmiddle : re_search
            {| anchored := false;
               items := [one (Literal 36%N); one (Literal 36%N);
                         group_of UpperLetter ZeroOrMore; one (Literal 94%N)] |}
            ([37%N] ++ st ++ lic ++ [94%N] ++ tail1) = Some (Some mid)).
  { unfold re_search, tail1. cbn [anchored items].
    rewrite !app_assoc. rewrite <- (app_assoc _ [36%N] tail2).
    rewrite search_from_skip.
    - cbn [app]. unfold tail2. destruct first as [|f0 first']; [contradiction|].
      assert (Hf0 : class_matches (Literal 36%N) f0 = false).
      { apply literal_mismatch. apply Forall_inv in Hfirst. lia. }
      rewrite search_from_miss.
      + rewrite search_from_skip.
        * apply search_from_hit. cbn [app].
          rewrite !match_here_once_hit by reflexivity.
          unfold tail3. apply match_here_group_then_literal;
            [reflexivity|cbn; lia|now apply upper_letter_class|reflexivity].
        * cbn; lia.
        * apply upper_letters_not; [lia|exact Hfirst].
      + rewrite match_here_once_hit by reflexivity.
        apply match_here_miss; [cbn; lia|].
        cbn [app one item_class]. now apply run_length_mismatch.
    - cbn; lia.
    - repeat (apply Forall_app; split).
      + repeat constructor.
      + apply upper_letters_not; [lia|exact Hst].
      + apply upper_alnums_not; [lia|exact Hlic].
      + repeat constructor.
      + apply upper_letters_not; [lia|exact Hlast]. }
  unfold parse_aamva, aamva_patterns. cbn [flat_map fst snd].
  fold tail3 tail2 tail1 in Hiin, Hlicense, Hlastname, Hfirstname, Hmiddle |- *.
  change (last ++ [36%N] ++ first ++ [36%N; 36%N] ++ mid ++ [94%N] ++ rest)
    with tail1.
  rewrite Hiin, Hlicense, Hlastname, Hfirstname, Hmiddle. reflexivity.
Qed.

Lemma parse_aamva_record_witness :
  parse_aamva iso_parser (str_of_string "%CAABC123^DOE$JOHN$$M^=2512")
  = [("iin"%string, str_of_string "CA");
     ("license_number"%string, str_of_string "CAABC123");
     ("last_name"%string, str_of_string "DOE");
     ("first_name"%string, str_of_string "JOHN");
     ("middle_name"%string, str_of_string "M")].
Proof.
  apply (parse_aamva_record iso_parser (str_of_string "CA") (str_of_string "ABC123")
           (str_of_string "DOE") (str_of_string "JOHN") (str_of_string "M")
           (str_of_string "=2512"));
    try discriminate; try reflexivity;
    unfold upper_letters, upper_alnums, upper_alnum;
    repeat constructor; cbn; lia.
Defined.

(* ===================================================================== *)
(** ** The life cycle of the transport *)
(* ===================================================================== *)

Section LifeCycle.
Context {consts : Constants} {ids : UsbIds} {env : HidEnv} {open_env : HidOpenEnv}.

Lemma connect_failed_state (self : MSR605XDevice) (e : exn) (log : conn_log) :
  exists self',
    connect_failed self e log
    = ((false, ("Connection failed: " ++ exn_str e)%string), self', log) /\
    _device self' = None /\ _connected self' = false /\
    _on_status_change self' = _on_status_change self.
Proof. eexists. split; [reflexivity|]. repeat split. Qed.

(** What [connect] does on a transport that is not flagged connected. *)
Lemma connect_cases (self : MSR605XDevice) (path : option bytes) (log : conn_log) :
  _connected self = false ->
  exists self' log',
    _on_status_change self' = _on_status_change self /\
    ((connect self path log = ((true, "Connected successfully"%string), self', log') /\
      _device self' = Some HidHandle /\ _connected self' = true)
     \/ (exists e,
           connect self path log
           = ((false, ("Connection failed: " ++ exn_str e)%string), self', log') /\
           _device self' = None /\ _connected self' = false)).
Proof.
  intros Hc. unfold connect. rewrite Hc.
  destruct (match path with
            | Some ((_ :: _) as p) =>
                (hid_open_path (EvHidDevice :: log) p, EvOpenPath p :: EvHidDevice :: log)
            | _ => (hid_open (EvHidDevice :: log) VENDOR_ID PRODUCT_ID,
                    EvOpen VENDOR_ID PRODUCT_ID :: EvHidDevice :: log)
            end) as [[[]|e] log1].
  2: { do 2 eexists. split; [|right; exists e; split; [reflexivity|split; reflexivity]].
       reflexivity. }
  destruct (hid_set_nonblocking log1 false) as [[]|e].
  2: { do 2 eexists. split; [|right; exists e; split; [reflexivity|split; reflexivity]].
       reflexivity. }
  unfold enumerate_devices.
  destruct (hid_enumerate (EvSetNonblocking false :: log1) VENDOR_ID PRODUCT_ID)
    as [devs|e]; cbn [bind].
  2: { do 2 eexists. split; [|right; exists e; split; [reflexivity|split; reflexivity]].
       reflexivity. }
  unfold _notify_status_change.
  destruct devs as [|d devs]; cbn [map _on_status_change];
    destruct (_on_status_change self) as [cb|]; try destruct (cb true) as [[]|e];
    do 2 eexists;
    (split; [|first [left; split; [reflexivity|split; reflexivity]
                    |right; exists e; split; [reflexivity|split; reflexivity]]]);
    reflexivity.
Qed.

(** X10. From the fresh object on, [set_status_callback], [connect] and
    [disconnect] keep the transport coherent: it holds a handle exactly when
    it is flagged connected, so [is_connected] is the flag. *)
Theorem transport_stays_coherent :
  coherent new_device /\
  (forall self callback, coherent self -> coherent (set_status_callback self callback)) /\
  (forall self path log, coherent self -> coherent (snd (fst (connect self path log)))) /\
  (forall self log, coherent self -> coherent (snd (fst (disconnect self log)))) /\
  (forall self, coherent self -> is_connected self = _connected self).
Proof.
  split; [|split; [|split; [|split]]].
  - unfold coherent. cbn. split; [discriminate|congruence].
  - intros self cb H. exact H.
  - intros self path log H. destruct (_connected self) eqn:Hc.
    + unfold connect. rewrite Hc. exact H.
    + destruct (connect_cases self path log Hc)
        as [self' [log' [_ [[-> [Hd Hf]]|[e [-> [Hd Hf]]]]]]];
        cbn [fst snd]; unfold coherent; rewrite Hd, Hf;
        split; congruence.
  - intros self log H. unfold disconnect, _notify_status_change.
    destruct (_connected self) eqn:Hc; [|exact H].
    destruct (_device self) eqn:Hd; [|exact H].
    destruct (hid_close log) as [[]|e]; [|exact H].
    cbn [_on_status_change]. destruct (_on_status_change self) as [cb|];
      [destruct (cb false) as [[]|e]|]; cbn [fst snd];
      unfold coherent; cbn; split; congruence.
  - intros self H. unfold is_connected. destruct (_connected self) eqn:Hc;
      [|reflexivity].
    destruct (_device self) eqn:Hd; [reflexivity|].
    unfold coherent in H. rewrite Hc, Hd in H. destruct H as [H _].
    now specialize (H eq_refl).
Qed.


(** X12. Whatever its outcome, [connect] never closes the handle: when it
    fails after the handle was opened, the handle is dropped open. After a
    failed [connect] every send fails and makes no call. *)
Theorem connect_never_closes (self : MSR605XDevice) (path : option bytes)
    (log : conn_log) :
  (In (EvTransport EvClose) (snd (connect self path log)) ->
   In (EvTransport EvClose) log) /\
  (_connected self = false ->
   fst (fst (fst (connect self path log))) = false ->
   forall command data l,
     send_command (snd (fst (connect self path log))) command data l
     = ((false, []), l)).
Proof.
  split.
  - unfold connect, enumerate_devices, connect_failed, _notify_status_change.
    destruct (_connected self); [auto|].
    destruct path as [[|b p]|];
      repeat match goal with
             | |- context [match ?x with Ret _ => _ | Raise _ => _ end] =>
                 destruct x as [?|?]; cbn [bind map snd fst app _on_status_change]
             | |- context [match ?x with Some _ => _ | None => _ end] =>
                 destruct x as [?|]; cbn [bind map snd fst app _on_status_change]
             | |- context [match ?x with [] => _ | _ :: _ => _ end] =>
                 destruct x as [|? ?]; cbn [bind map snd fst app _on_status_change]
             end;
      cbn [In]; intuition discriminate.
  - intros Hc Hfail l command data.
    destruct (connect_cases self path log Hc)
      as [self' [log' [_ [[Heq _]|[e [Heq [_ Hf]]]]]]];
      rewrite Heq in *; cbn [fst snd] in *; [discriminate|].
    unfold send_command, is_connected. now rewrite Hf.
Qed.

End LifeCycle.

Section Operations.
Context {consts : Constants} {ids : UsbIds} {env : HidEnv} {open_env : HidOpenEnv}.

(** X13. A [disconnect] after a [connect] that succeeded, when closing the
    handle goes through and the listener, if there is one, does not raise,
    succeeds and gives back a transport without handle, without identity and
    not connected, on which a new [connect] is not refused. *)
Theorem connect_then_disconnect (self self' : MSR605XDevice) (path : option bytes)
    (clog clog' : conn_log) (msg : string) (log : io_log) :
  connect self path clog = ((true, msg), self', clog') ->
  hid_close log = Ret tt ->
  (forall callback, _on_status_change self = Some callback -> callback false = Ret tt) ->
  exists self'' log',
    disconnect self' log = ((true, "Disconnected successfully"%string), self'', log') /\
    _device self'' = None /\ _connected self'' = false /\ _device_info self'' = None /\
    _on_status_change self'' = _on_status_change self /\
    (forall path' clog'',
       connect self'' path' clog'' <> ((false, "Already connected"%string), self'', clog'')).
Proof.
  intros Hconn Hclose Hcb.
  assert (Hc : _connected self = false).
  { destruct (_connected self) eqn:E; [|reflexivity].
    unfold connect in Hconn. rewrite E in Hconn. discriminate. }
  destruct (connect_cases self path clog Hc)
    as [s1 [l1 [Hs [[Heq [Hd Hf]]|[e [Heq _]]]]]]; rewrite Heq in Hconn;
    [|discriminate].
  injection Hconn as _ <- _.
  unfold disconnect, _notify_status_change. rewrite Hf, Hd, Hclose.
  cbn [_on_status_change]. rewrite Hs.
  assert (Hre : forall s path' clog'', _connected s = false ->
                  connect s path' clog'' <> ((false, "Already connected"%string), s, clog'')).
  { intros s path' clog'' Hs0 Heq'.
    destruct (connect_cases s path' clog'' Hs0)
      as [s2 [l2 [_ [[Heq2 _]|[e [Heq2 _]]]]]]; rewrite Heq2 in Heq';
      [discriminate|].
    injection Heq' as Hm _ _. discriminate Hm. }
  destruct (_on_status_change self) as [cb|] eqn:Ecb.
  - rewrite (Hcb cb eq_refl). do 2 eexists. split; [reflexivity|].
    cbn [_device _connected _device_info _on_status_change].
    repeat (split; [reflexivity|]). intros path' clog''. now apply Hre.
  - do 2 eexists. split; [reflexivity|].
    cbn [_device _connected _device_info _on_status_change].
    repeat (split; [reflexivity|]). intros path' clog''. now apply Hre.
Qed.

(** X14. A [disconnect] on a connected transport closes the handle once
    and makes no other call on it; the listener is called after the closing.
    It leaves the transport connected, and untouched, exactly when closing
    raised. It reports success exactly when closing went through and the
    listener did not raise; so when the listener raises, it reports a
    failure although the transport is disconnected. *)
Theorem disconnect_outcome (self self' : MSR605XDevice) (log log' : io_log)
    (ok : bool) (msg : string) :
  is_connected self = true ->
  disconnect self log = ((ok, msg), self', log') ->
  log' = match hid_close log, _on_status_change self with
         | Ret _, Some _ => [EvStatus false]
         | _, _ => []
         end ++ EvClose :: log /\
  (is_connected self' = true <-> exists e, hid_close log = Raise e) /\
  (is_connected self' = true -> self' = self) /\
  (is_connected self' = false ->
   _device self' = None /\ _connected self' = false /\ _device_info self' = None) /\
  (ok = true <->
   hid_close log = Ret tt /\
   forall callback, _on_status_change self = Some callback -> callback false = Ret tt) /\
  (ok = false -> exists e, msg = ("Disconnect failed: " ++ exn_str e)%string).
Proof.
  intros Hc H. destruct (is_connected_handle self Hc) as [Hf [h Hd]].
  unfold disconnect, _notify_status_change in H. rewrite Hf, Hd in H.
  destruct (hid_close log) as [[]|e] eqn:Ecl.
  - cbn [_on_status_change] in H.
    destruct (_on_status_change self) as [cb|] eqn:Ecb.
    + destruct (cb false) as [[]|e] eqn:Er; injection H as <- <- <- <-;
        (split; [reflexivity|]);
        cbn [is_connected _connected _device _device_info andb];
        (split; [split; [discriminate|intros [? ?]; discriminate]|]);
        (split; [discriminate|]); (split; [auto|]).
      * split; [split; [intros _; split; [reflexivity|congruence]|reflexivity]
               |discriminate].
      * split; [split; [discriminate|]|intros _; now exists e].
        intros [_ Hcb]. specialize (Hcb cb eq_refl). congruence.
    + injection H as <- <- <- <-. split; [reflexivity|].
      cbn [is_connected _connected _device _device_info andb].
      split; [split; [discriminate|intros [? ?]; discriminate]|].
      split; [discriminate|]. split; [auto|].
      split; [split; [intros _; split; [reflexivity|discriminate]|reflexivity]
             |discriminate].
  - injection H as <- <- <- <-. split; [reflexivity|].
    rewrite Hc. split; [split; eauto|]. split; [reflexivity|].
    split; [discriminate|].
    split; [split; [discriminate|intros [? _]; discriminate]|intros _; now exists e].
Qed.

Lemma receive_loop_only_polls (fuel : nat) (start_time timeout_sec : float)
    (response : bytes) (log : io_log) (r : exc bytes) (log' : io_log) :
  receive_loop fuel start_time timeout_sec response log = Some (r, log') ->
  forall e, In e log' -> is_poll_event e \/ In e log.
Proof.
  revert response log. induction fuel as [|fuel IH]; intros response log H e He;
    [discriminate|].
  cbn [receive_loop] in H.
  assert (Hstep : forall rsp lg,
            (forall x, In x lg -> is_poll_event x \/ In x log) ->
            receive_loop fuel start_time timeout_sec rsp lg = Some (r, log') ->
            is_poll_event e \/ In e log).
  { intros rsp lg Hlg Hrec. destruct (IH rsp lg Hrec e He) as [Hp|Hin];
      [now left|now apply Hlg]. }
  assert (H1 : forall x, In x (EvRead HID_REPORT_SIZE 100 :: EvTime :: log) ->
                         is_poll_event x \/ In x log).
  { intros x [<-|[<-|Hx]]; cbn; auto. }
  assert (H2 : forall x, In x (EvSleep 0x1.47ae147ae147bp-7%float
                               :: EvRead HID_REPORT_SIZE 100
                               :: EvTime :: log) ->
                         is_poll_event x \/ In x log).
  { intros x [<-|Hx]; [cbn; auto|now apply H1]. }
  destruct (float_gt _ _).
  { injection H as <- <-. destruct He as [<-|He]; cbn; auto. }
  destruct (hid_read (EvTime :: log) HID_REPORT_SIZE 100) as [[|b data]|ex].
  - now apply (Hstep _ _ H2 H).
  - destruct (2 <=? len (response ++ b :: data)).
    + destruct (_ || _); [injection H as <- <-; now apply H1|].
      destruct (bytes_contains _ [x1c]); [injection H as <- <-; now apply H1|].
      now apply (Hstep _ _ H1 H).
    + now apply (Hstep _ _ H1 H).
  - injection H as <- <-. now apply H1.
Qed.

(** X15. A receive only reads the clock, polls the handle and sleeps: every
    other call in the log after it, a write or the closing of the handle, was
    in the log before it. *)
Theorem receive_only_polls (fuel : nat) (self : MSR605XDevice) (timeout_ms : Z)
    (log log' : io_log) (result : bool * bytes) :
  receive_response fuel self timeout_ms log = Some (result, log') ->
  forall e, In e log' -> is_poll_event e \/ In e log.
Proof.
  unfold receive_response. intros H e He.
  destruct (negb (is_connected self)); [injection H as <- <-; now right|].
  destruct (int_truediv_float timeout_ms 1000) as [timeout_sec|ex];
    [|injection H as <- <-; destruct He as [<-|He]; cbn; auto].
  destruct (receive_loop fuel _ _ [] (EvTime :: log)) as [[[buf|ex] lg]|] eqn:El;
    [| |discriminate]; injection H as <- <-;
    destruct (receive_loop_only_polls _ _ _ _ _ _ _ El e He) as [Hp|[<-|Hin]];
    cbn; auto.
Qed.

Lemma flush_polls_shift (k : nat) (log : io_log) :
  flush_polls k (EvRead HID_REPORT_SIZE 50 :: log)
  = EvRead HID_REPORT_SIZE 50 :: flush_polls k log.
Proof. induction k as [|k IH]; cbn [flush_polls]; [reflexivity|now rewrite IH]. Qed.

Lemma flush_loop_polls (k fuel : nat) (log : io_log) :
  (forall i, (i < k)%nat ->
     exists b data, hid_read (flush_polls i log) HID_REPORT_SIZE 50 = Ret (b :: data)) ->
  (hid_read (flush_polls k log) HID_REPORT_SIZE 50 = Ret []
   \/ exists e, hid_read (flush_polls k log) HID_REPORT_SIZE 50 = Raise e) ->
  (k < fuel)%nat ->
  exists r, flush_loop fuel log = Some (r, flush_polls (S k) log).
Proof.
  revert fuel log. induction k as [|k IH]; intros fuel log Hdata Hlast Hfuel;
    (destruct fuel as [|fuel]; [lia|]); cbn [flush_loop].
  - change (flush_polls 0 log) with log in Hlast.
    change (flush_polls 1 log) with (EvRead HID_REPORT_SIZE 50 :: log).
    destruct Hlast as [-> | [e ->]]; eexists; reflexivity.
  - destruct (Hdata 0%nat ltac:(lia)) as [b [data Hr]].
    change (flush_polls 0 log) with log in Hr. rewrite Hr.
    change (flush_polls (S (S k)) log)
      with (EvRead HID_REPORT_SIZE 50 :: flush_polls (S k) log).
    rewrite <- flush_polls_shift. apply IH.
    + intros i Hi. rewrite flush_polls_shift. apply (Hdata (S i)). lia.
    + rewrite flush_polls_shift. exact Hlast.
    + lia.
Qed.

(** X16. A flush on a connected transport polls until a poll brings nothing
    or raises, and makes no other call: when the first [k] polls bring data
    and the next one does not, it makes [k + 1] polls and returns, whatever
    the last poll raised. *)
Theorem flush_reads_until_empty (fuel k : nat) (self : MSR605XDevice) (log : io_log) :
  is_connected self = true ->
  (forall i, (i < k)%nat ->
     exists b data, hid_read (flush_polls i log) HID_REPORT_SIZE 50 = Ret (b :: data)) ->
  (hid_read (flush_polls k log) HID_REPORT_SIZE 50 = Ret []
   \/ exists e, hid_read (flush_polls k log) HID_REPORT_SIZE 50 = Raise e) ->
  (k < fuel)%nat ->
  flush fuel self log = Some (flush_polls (S k) log).
Proof.
  intros Hc Hdata Hlast Hfuel. unfold flush. rewrite Hc. cbn [negb].
  destruct (flush_loop_polls k fuel log Hdata Hlast Hfuel) as [r ->]. reflexivity.
Qed.

Lemma send_command_report (self : MSR605XDevice) (command data : bytes) (log : io_log) :
  is_connected self = true ->
  let report := [x00] ++ (command ++ data)
                ++ zero_bytes (HID_REPORT_SIZE - 1 - len (command ++ data)) in
  send_command self command data log
  = ((match hid_write log report with
      | Ret n => negb (n <? 0)
      | Raise _ => false
      end, []), EvWrite report :: log).
Proof.
  intros Hc report. destruct (is_connected_handle self Hc) as [_ [h Hh]].
  unfold send_command. rewrite Hc, Hh. cbn [negb].
  assert (Hrep : (if len ([x00] ++ command ++ data) <? HID_REPORT_SIZE
                  then ([x00] ++ command ++ data)
                       ++ zero_bytes (HID_REPORT_SIZE - len ([x00] ++ command ++ data))
                  else [x00] ++ command ++ data) = report).
  { unfold report. rewrite (len_app [x00]). change (len [x00]) with 1.
    destruct (Z.ltb_spec (1 + len (command ++ data)) HID_REPORT_SIZE).
    - rewrite <- app_assoc. do 3 f_equal. lia.
    - unfold zero_bytes.
      replace (Z.to_nat (HID_REPORT_SIZE - 1 - len (command ++ data))) with 0%nat by lia.
      cbn [repeat]. now rewrite app_nil_r. }
  rewrite Hrep. destruct (hid_write log report) as [n|e]; [|reflexivity].
  destruct (n <? 0); reflexivity.
Qed.

(** X17. [send_and_receive] on a connected transport writes the report of
    the command. When the write raises or returns a negative count, it fails
    with the empty result and does not poll. Otherwise its result is that of
    the receive that follows the write. *)
Theorem send_and_receive_outcome (fuel : nat) (self : MSR605XDevice)
    (command data : bytes) (timeout_ms : Z) (log : io_log) :
  is_connected self = true ->
  let report := [x00] ++ (command ++ data)
                ++ zero_bytes (HID_REPORT_SIZE - 1 - len (command ++ data)) in
  ((exists e, hid_write log report = Raise e)
   \/ (exists n, hid_write log report = Ret n /\ n < 0) ->
   send_and_receive fuel self command data timeout_ms log
   = Some ((false, []), EvWrite report :: log)) /\
  (forall n, hid_write log report = Ret n -> 0 <= n ->
   send_and_receive fuel self command data timeout_ms log
   = receive_response fuel self timeout_ms (EvWrite report :: log)).
Proof.
  intros Hc report. unfold send_and_receive.
  rewrite (send_command_report self command data log Hc). fold report.
  split.
  - intros [[e ->]|[n [-> Hn]]]; [reflexivity|].
    destruct (Z.ltb_spec n 0); [reflexivity|lia].
  - intros n -> Hn. destruct (Z.ltb_spec n 0); [lia|reflexivity].
Qed.

(** X18. On a transport that is not connected, as the fresh object is, a
    send, a receive, a flush and a [send_and_receive] make no call; the first
    two and the last fail with the empty result. *)
Theorem not_connected_no_io (self : MSR605XDevice) (log : io_log) :
  is_connected new_device = false /\
  (is_connected self = false ->
   (forall command data, send_command self command data log = ((false, []), log)) /\
   (forall fuel timeout_ms,
      receive_response fuel self timeout_ms log = Some ((false, []), log)) /\
   (forall fuel, flush fuel self log = Some log) /\
   (forall fuel command data timeout_ms,
      send_and_receive fuel self command data timeout_ms log
      = Some ((false, []), log))).
Proof.
  split; [reflexivity|]. intros Hc.
  unfold send_and_receive, send_command, receive_response, flush. rewrite Hc.
  cbn [negb]. repeat split; reflexivity.
Qed.

(** X19. A connected transport sends a RAW write frame in one report: the
    frame is 13 bytes longer than its payloads, and the report has the
    report size when the command and the frame take at most the report size
    minus one, and their length plus one when they take more; it starts with
    the report-ID byte, the command and the frame. *)
Theorem send_write_frame (self : MSR605XDevice) (parser : TrackParser)
    (command : bytes) (t1 t2 t3 : option bytes) (log : io_log) :
  is_connected self = true ->
  let frame := build_raw_write_data parser t1 t2 t3 in
  len frame = 13 + len (payload t1) + len (payload t2) + len (payload t3) /\
  exists ok padding,
    send_command self command frame log
    = ((ok, []), EvWrite ([x00] ++ command ++ frame ++ padding) :: log) /\
    Forall (fun b => b = x00) padding /\
    len ([x00] ++ command ++ frame ++ padding)
    = Z.max HID_REPORT_SIZE (1 + len command + len frame).
Proof.
  intros Hc frame.
  assert (Hlen : len frame
                 = 13 + len (payload t1) + len (payload t2) + len (payload t3)).
  { unfold frame. rewrite build_raw_write_data_eq. unfold wire_frame, track_field.
    len_lia. }
  split; [exact Hlen|].
  rewrite (send_command_report self command frame log Hc).
  eexists _, (zero_bytes (HID_REPORT_SIZE - 1 - len (command ++ frame))).
  split; [now rewrite <- app_assoc|]. split.
  - unfold zero_bytes. apply Forall_forall. intros b Hb.
    now apply repeat_spec in Hb.
  - rewrite !len_app, zero_bytes_len. change (len [x00]) with 1. lia.
Qed.

End Operations.

Lemma connect_then_disconnect_witness :
  exists self' clog' self'' log',
    connect (ids := sample_ids) (open_env := sample_open_env) new_device None []
    = ((true, "Connected successfully"%string), self', clog') /\
    disconnect (env := sample_env) self' []
    = ((true, "Disconnected successfully"%string), self'', log') /\
    _device self'' = None /\ _connected self'' = false.
Proof.
  eexists _, _.
  destruct (connect_then_disconnect (ids := sample_ids) (env := sample_env)
              (open_env := sample_open_env) new_device _ None [] _ _ []
              eq_refl eq_refl ltac:(discriminate))
    as [self'' [log' [Hd [Hdev [Hcon _]]]]].
  exists self'', log'. repeat split; assumption.
Defined.

Lemma disconnect_outcome_witness :
  exists self' log',
    disconnect (env := sample_env) connected_device []
    = ((true, "Disconnected successfully"%string), self', log') /\
    log' = [EvStatus false; EvClose] /\
    _device self' = None /\ _connected self' = false /\ _device_info self' = None.
Proof.
  eexists _, _. split; [reflexivity|].
  destruct (disconnect_outcome (env := sample_env) connected_device _ [] _ _ _
              eq_refl eq_refl) as [Hlog [_ [_ [Hoff _]]]].
  split; [reflexivity|]. apply Hoff. reflexivity.
Defined.

Lemma receive_only_polls_witness :
  exists result log',
    receive_response (consts := sample_constants) (env := sample_env) 20
      connected_device 300 [EvWrite [x00; x1b; x72]] = Some (result, log') /\
    forall e, In e log' -> is_poll_event e \/ In e [EvWrite [x00; x1b; x72]].
Proof.
  destruct (receive_response (consts := sample_constants) (env := sample_env) 20
              connected_device 300 [EvWrite [x00; x1b; x72]])
    as [[result log']|] eqn:E; [|vm_compute in E; discriminate].
  exists result, log'. split; [reflexivity|].
  exact (receive_only_polls (consts := sample_constants) (env := sample_env) 20
           connected_device 300 _ _ _ E).
Defined.

Lemma flush_reads_until_empty_witness :
  flush (consts := sample_constants) (env := sample_env) 10 connected_device []
  = Some (flush_polls (consts := sample_constants) 4 []).
Proof.
  apply (flush_reads_until_empty (consts := sample_constants) (env := sample_env)
           10 3 connected_device [] eq_refl).
  - intros i Hi. destruct i as [|[|[|i]]]; [eexists _, _; reflexivity ..|lia].
  - left. reflexivity.
  - lia.
Defined.

Lemma send_and_receive_outcome_witness :
  is_connected connected_device = true /\
  exists report,
    len report = 64 /\
    send_and_receive (consts := sample_constants) (env := sample_env) 20
      connected_device [x1b; x72] [] 300 []
    = receive_response (consts := sample_constants) (env := sample_env) 20
        connected_device 300 [EvWrite report].
Proof.
  split; [reflexivity|]. eexists. split;
    [|apply (proj2 (send_and_receive_outcome (consts := sample_constants)
                      (env := sample_env) 20 connected_device [x1b; x72] [] 300 []
                      eq_refl) 64 eq_refl); lia].
  reflexivity.
Defined.

Lemma send_write_frame_witness :
  is_connected connected_device = true /\
  len (build_raw_write_data iso_parser (Some [x41; x42]) None (Some [x43])) = 16 /\
  exists ok padding,
    send_command (consts := sample_constants) (env := sample_env) connected_device
      [x1b; x6e] (build_raw_write_data iso_parser (Some [x41; x42]) None (Some [x43])) []
    = ((ok, []),
       [EvWrite ([x00] ++ [x1b; x6e]
                 ++ build_raw_write_data iso_parser (Some [x41; x42]) None (Some [x43])
                 ++ padding)]) /\
    len padding = 45.
Proof.
  split; [reflexivity|].
  destruct (send_write_frame (consts := sample_constants) (env := sample_env)
              connected_device iso_parser [x1b; x6e] (Some [x41; x42]) None
              (Some [x43]) [] eq_refl)
    as [Hlen [ok [padding [Hsend [_ Hrep]]]]].
  split; [exact Hlen|]. exists ok, padding. split; [exact Hsend|].
  rewrite !len_app in Hrep. rewrite Hlen in Hrep.
  change (len [x00]) with 1 in Hrep. change (len [x1b; x6e]) with 2 in Hrep.
  change (HID_REPORT_SIZE (Constants := sample_constants)) with 64 in Hrep.
  change (len (payload (Some [x41; x42]))) with 2 in Hrep.
  change (len (payload None)) with 0 in Hrep.
  change (len (payload (Some [x43]))) with 1 in Hrep. lia.
Defined.

Section ConnectIdentity.
Context {ids : UsbIds} {open_env : HidOpenEnv}.

(** X20. When the handle is opened and set up, and the listing of the
    devices returns, [connect] records the identity of the first device
    listed, whatever path was opened, and keeps the identity it had when the
    list is empty. It then calls the listener, if there is one, and succeeds
    exactly when the listener does not raise; when the listener raises, the
    transport is left not connected with the identity recorded. *)
Theorem connect_records_first_listed (self : MSR605XDevice) (path : option bytes)
    (log : conn_log) (devs : list hid_info) :
  let l1 := EvHidDevice :: log in
  let l2 := match path with
            | Some ((_ :: _) as p) => EvOpenPath p
            | _ => EvOpen VENDOR_ID PRODUCT_ID
            end :: l1 in
  let l3 := EvSetNonblocking false :: l2 in
  _connected self = false ->
  match path with
  | Some ((_ :: _) as p) => hid_open_path l1 p
  | _ => hid_open l1 VENDOR_ID PRODUCT_ID
  end = Ret tt ->
  hid_set_nonblocking l2 false = Ret tt ->
  hid_enumerate l3 VENDOR_ID PRODUCT_ID = Ret devs ->
  exists ok msg self',
    connect self path log
    = ((ok, msg), self',
       match _on_status_change self with
       | Some _ => [EvTransport (EvStatus true)]
       | None => []
       end ++ EvEnumerate VENDOR_ID PRODUCT_ID :: l3) /\
    _device_info self'
    = match devs with
      | dev :: _ =>
          Some {| vendor_id := hi_vendor_id dev;
                  product_id := hi_product_id dev;
                  serial_number := option_default (hi_serial_number dev) ""%string;
                  manufacturer :=
                    option_default (hi_manufacturer_string dev) "Unknown"%string;
                  product := option_default (hi_product_string dev) "MSR605X"%string;
                  path := hi_path dev |}
      | [] => _device_info self
      end /\
    is_connected self' = ok /\
    (ok = true <->
     forall callback, _on_status_change self = Some callback -> callback true = Ret tt).
Proof.
  intros l1 l2 l3 Hc Hopen Hset Henum. unfold connect. rewrite Hc.
  fold l1.
  assert (Hpair : match path with
                  | Some ((_ :: _) as p) => (hid_open_path l1 p, EvOpenPath p :: l1)
                  | _ => (hid_open l1 VENDOR_ID PRODUCT_ID,
                          EvOpen VENDOR_ID PRODUCT_ID :: l1)
                  end = (Ret tt, l2)).
  { unfold l2. destruct path as [[|b p]|]; now rewrite Hopen. }
  rewrite Hpair, Hset. unfold enumerate_devices. fold l3. rewrite Henum.
  cbn [bind]. unfold _notify_status_change.
  destruct devs as [|dev devs]; cbn [map _on_status_change _device_info];
    destruct (_on_status_change self) as [cb|];
    try destruct (cb true) as [[]|e] eqn:Ecb;
    do 3 eexists; (split; [reflexivity|]); (split; [reflexivity|]);
    (split; [reflexivity|]);
    first [ split; [intros _ cb' [= <-]; exact Ecb|reflexivity]
          | split; [discriminate|intros H; specialize (H cb eq_refl); congruence]
          | split; [intros _ cb'; discriminate|reflexivity] ].
Qed.

End ConnectIdentity.

Lemma connect_records_first_listed_witness :
  exists msg self' log',
    connect (ids := sample_ids) (open_env := sample_open_env)
      new_device (Some [x39]) [] = ((true, msg), self', log') /\
    option_map path (_device_info self') = Some [x31].
Proof.
  destruct (connect_records_first_listed (ids := sample_ids)
              (open_env := sample_open_env) new_device (Some [x39]) [] _
              eq_refl eq_refl eq_refl eq_refl)
    as [ok [msg [self' [Hconn [Hinfo [_ Hok]]]]]].
  assert (ok = true) as -> by (apply Hok; discriminate).
  exists msg, self'. eexists. split; [exact Hconn|]. rewrite Hinfo. reflexivity.
Defined.
